(** * IndexedDbVFS: a versioned block store with a zero-store rollback journal

    Shallow embedding of [src/examples/IndexedDbVFS.js] and the properties
    its specification states about it.

    Conventions of the embedding:
    - JavaScript numbers that hold offsets, sizes, indices and versions are
      integers below 2^53 and are modelled as [Z]; the places where the
      source forces a 32-bit or 8-bit representation ([x | 0], [setUint32],
      [Int8Array] stores) have the wrap-around written out.
    - An [Int8Array] is a [list Z] of signed bytes.
    - The object store [blocks] is an association list kept in ascending
      IndexedDB key order, because range queries return the first record in
      key order.
    - Opened-file entries are JavaScript objects shared by the two maps of
      the VFS; they live in a heap of objects and the maps hold references.
    - Every operation returns the new VFS state together with a completion:
      the returned status code, or the exception the source raises.
    - The embedding covers [xOpen], [xClose], [xRead], [xWrite],
      [xTruncate], [xSync], [xLock], [xUnlock], [xFileSize], [xAccess],
      [xDelete] and [purge] with the private methods they call. An
      opened-file entry is the entry of a file that [xOpen] has opened
      successfully, so its [block0] is set. [#maybePurge] records that a
      purge was scheduled; the scheduled callback is a step of its own.
    - Several connections are several VFS objects over one object store:
      the state of one of them holds its own entries and the records that
      all of them have written. *)

From Stdlib Require Import ZArith Lia List String Ascii Sorted.
From stdpp Require Import base gmap sets list strings.

Open Scope Z_scope.

(** ** Numeric conversions of JavaScript *)

Definition ToInt32 (z : Z) : Z := (z + 2 ^ 31) mod 2 ^ 32 - 2 ^ 31.
Definition ToUint32 (z : Z) : Z := z mod 2 ^ 32.
Definition ToInt8 (z : Z) : Z := (z + 128) mod 256 - 128.
Definition ToUint8 (z : Z) : Z := z mod 256.

(** A number that may be [NaN] ([undefined] behaves as [NaN] in every
    arithmetic context the source uses): [None] is [NaN]. *)
Abbreviation jsnum := (option Z).

Definition num_lt (a b : jsnum) : bool :=
  match a, b with Some x, Some y => x <? y | _, _ => false end.
Definition num_ge (a b : jsnum) : bool :=
  match a, b with Some x, Some y => y <=? x | _, _ => false end.
Definition Math_max (a b : jsnum) : jsnum :=
  match a, b with Some x, Some y => Some (Z.max x y) | _, _ => None end.
Definition Math_min (a b : jsnum) : jsnum :=
  match a, b with Some x, Some y => Some (Z.min x y) | _, _ => None end.
Definition num_sub (a b : jsnum) : jsnum :=
  match a, b with Some x, Some y => Some (x - y) | _, _ => None end.
Definition num_add (a b : jsnum) : jsnum :=
  match a, b with Some x, Some y => Some (x + y) | _, _ => None end.

(** ** Typed arrays *)

Abbreviation Int8Array := (list Z).

Definition byteLength (a : Int8Array) : Z := Z.of_nat (length a).

(** [new Int8Array(n)]: [n] zero bytes. *)
Definition new_Int8Array (n : Z) : Int8Array := replicate (Z.to_nat n) 0.

(** [a[i]]: [None] is [undefined]. *)
Definition ta_get (a : Int8Array) (i : Z) : option Z :=
  if i <? 0 then None else a !! Z.to_nat i.

(** A relative index argument of [subarray] and [fill]: negative values
    count from the end, everything is clamped to [0 .. len]. *)
Definition relative_index (len i : Z) : Z :=
  if i <? 0 then Z.max (len + i) 0 else Z.min i len.

(** [a.subarray(b, e)] *)
Definition subarray (a : Int8Array) (b e : Z) : Int8Array :=
  let len := byteLength a in
  let b' := relative_index len b in
  let e' := relative_index len e in
  take (Z.to_nat (e' - b')) (drop (Z.to_nat b') a).

(** [a.set(src, offset)]: [None] is the RangeError raised when the source
    does not fit. *)
Definition ta_set (a src : Int8Array) (offset : Z) : option Int8Array :=
  if (offset <? 0) || (byteLength a <? offset + byteLength src) then None
  else Some (take (Z.to_nat offset) a ++ src
             ++ drop (Z.to_nat offset + length src) a).

(** [a.fill(v, start, end)] *)
Definition ta_fill (a : Int8Array) (v start end_ : Z) : Int8Array :=
  let len := byteLength a in
  let k := relative_index len start in
  let f := relative_index len end_ in
  if f <=? k then a
  else take (Z.to_nat k) a ++ replicate (Z.to_nat (f - k)) (ToInt8 v)
       ++ drop (Z.to_nat f) a.

(** [a.subarray(b).set(src)]: a write through a view lands in [a]. *)
Definition view_set (a : Int8Array) (b : Z) (src : Int8Array)
  : option Int8Array :=
  ta_set a src (relative_index (byteLength a) b).

(** [a.subarray(b).fill(v, start)]: the fill is relative to the view. *)
Definition view_fill (a : Int8Array) (b v start : Z) : Int8Array :=
  let b' := Z.to_nat (relative_index (byteLength a) b) in
  let view := drop b' a in
  take b' a ++ ta_fill view v start (byteLength view).

(** [new DataView(a.buffer).getUint32(off)], big-endian. *)
Definition getUint32 (a : Int8Array) (off : Z) : option Z :=
  if (off <? 0) || (byteLength a <? off + 4) then None
  else match drop (Z.to_nat off) a with
       | b0 :: b1 :: b2 :: b3 :: _ =>
           Some (ToUint8 b0 * 2 ^ 24 + ToUint8 b1 * 2 ^ 16
                 + ToUint8 b2 * 2 ^ 8 + ToUint8 b3)
       | _ => None
       end.

(** [new DataView(a.buffer).setUint32(off, v)], big-endian; a [NaN] value
    is stored as 0. *)
Definition setUint32 (a : Int8Array) (off : Z) (v : jsnum)
  : option Int8Array :=
  let u := match v with Some z => ToUint32 z | None => 0 end in
  ta_set a [ToInt8 (u / 2 ^ 24); ToInt8 (u / 2 ^ 16);
            ToInt8 (u / 2 ^ 8); ToInt8 u] off.

(** ** IndexedDB keys and key ranges *)

(** The components that occur in the array keys of the source: numbers,
    [Infinity], strings and the empty array [[]]. IndexedDB orders the
    types Number < String < Array. *)
Inductive keypart :=
  | KNum (z : Z)
  | KInfinity
  | KStr (s : string)
  | KEmptyArray.

Abbreviation idbkey := (list keypart).

Definition keypart_cmp (a b : keypart) : comparison :=
  match a, b with
  | KNum x, KNum y => x ?= y
  | KNum _, _ => Lt
  | KInfinity, KNum _ => Gt
  | KInfinity, KInfinity => Eq
  | KInfinity, _ => Lt
  | KStr _, (KNum _ | KInfinity) => Gt
  | KStr s, KStr t => String.compare s t
  | KStr _, KEmptyArray => Lt
  | KEmptyArray, KEmptyArray => Eq
  | KEmptyArray, _ => Gt
  end.

(** Array keys compare component by component; a proper prefix is smaller. *)
Fixpoint key_cmp (a b : idbkey) : comparison :=
  match a, b with
  | [], [] => Eq
  | [], _ :: _ => Lt
  | _ :: _, [] => Gt
  | x :: a', y :: b' =>
      match keypart_cmp x y with
      | Eq => key_cmp a' b'
      | c => c
      end
  end.

Record IDBKeyRange := bound {
  lower : idbkey;
  upper : idbkey;
  lowerOpen : bool;
  upperOpen : bool
}.

(** [IDBKeyRange.bound(l, u)] with both ends closed. *)
Definition bound_closed (l u : idbkey) : IDBKeyRange := bound l u false false.

(** A single key used as a query. *)
Definition only (k : idbkey) : IDBKeyRange := bound k k false false.

Definition includes (r : IDBKeyRange) (k : idbkey) : bool :=
  match key_cmp (lower r) k with
  | Lt => true
  | Eq => negb (lowerOpen r)
  | Gt => false
  end
  &&
  match key_cmp k (upper r) with
  | Lt => true
  | Eq => negb (upperOpen r)
  | Gt => false
  end.

(** ** Records of the object store [blocks] *)

(** A file block. [fileSize] is present on block 0 only. *)
Record FileBlock := mkFileBlock {
  name : string;
  index : Z;
  version : Z;
  data : Int8Array;
  fileSize : jsnum
}.

(** The purge record: [index] is the string ['purge'], [data] a [Map]
    from page index to version. *)
Record PurgeBlock := mkPurgeBlock {
  purge_name : string;
  purge_version : Z;
  purge_data : gmap Z Z
}.

Inductive stored :=
  | SBlock (b : FileBlock)
  | SPurge (p : PurgeBlock).

(** The primary key, key path [['name', 'index', 'version']]. *)
Definition key_of (r : stored) : idbkey :=
  match r with
  | SBlock b => [KStr (name b); KNum (index b); KNum (version b)]
  | SPurge p => [KStr (purge_name p); KStr "purge"; KNum (purge_version p)]
  end.

(** The key in the secondary index ['version'], key path
    [['name', 'version']]. *)
Definition version_key_of (r : stored) : idbkey :=
  match r with
  | SBlock b => [KStr (name b); KNum (version b)]
  | SPurge p => [KStr (purge_name p); KNum (purge_version p)]
  end.

Abbreviation objectStore := (list stored).

(** [blocks.put(r)]: insert in key order, replacing a record with the
    same key. *)
Fixpoint store_put (r : stored) (s : objectStore) : objectStore :=
  match s with
  | [] => [r]
  | x :: s' =>
      match key_cmp (key_of r) (key_of x) with
      | Lt => r :: x :: s'
      | Eq => r :: s'
      | Gt => x :: store_put r s'
      end
  end.

(** [blocks.get(range)]: the first record in key order inside the range. *)
Definition store_get (rg : IDBKeyRange) (s : objectStore) : option stored :=
  head (List.filter (fun x => includes rg (key_of x)) s).

(** [blocks.getKey(range)] *)
Definition store_getKey (rg : IDBKeyRange) (s : objectStore) : option idbkey :=
  key_of <$> store_get rg s.

(** [blocks.delete(range)] *)
Definition store_delete (rg : IDBKeyRange) (s : objectStore) : objectStore :=
  List.filter (fun x => negb (includes rg (key_of x))) s.

(** Insertion of a record into a list ordered by the secondary index
    key. The records are inserted from the largest primary key down, so
    placing a record before those with an equal index key keeps records
    with equal index keys in primary key order. *)
Fixpoint version_index_insert (r : stored) (l : list stored) : list stored :=
  match l with
  | [] => [r]
  | x :: l' =>
      match key_cmp (version_key_of r) (version_key_of x) with
      | Gt => x :: version_index_insert r l'
      | _ => r :: l
      end
  end.

(** The records of the store in the order of the index ['version']. *)
Definition version_index (s : objectStore) : list stored :=
  foldr version_index_insert [] s.

(** [blocks.index('version').getAllKeys(range)]: the primary keys of the
    records whose index key lies in the range, in index order. *)
Definition index_version_getAllKeys (rg : IDBKeyRange) (s : objectStore)
  : list idbkey :=
  key_of <$> List.filter (fun x => includes rg (version_key_of x))
                         (version_index s).

(** Requests that reach the store through [IDBContext]: the writes, the
    deletions and the awaited [sync()]. *)
Inductive event :=
  | EvPut (r : stored)
  | EvDelete (rg : IDBKeyRange)
  | EvSync.

(** ** Constants of [VFS.js] *)

(** Modelled from the spec: [VFS.js] is not part of the sources; section 6
    says the result codes, open flags and lock levels are those of the
    engine's public interface, with the lock levels NONE = 0, SHARED = 1,
    RESERVED = 2, PENDING = 3, EXCLUSIVE = 4. The constants below are
    the ones this file uses. *)
Definition SQLITE_OK : Z := 0.
Definition SQLITE_IOERR_SHORT_READ : Z := 522.
Definition SQLITE_OPEN_CREATE : Z := 4.
Definition SQLITE_OPEN_DELETEONCLOSE : Z := 8.
Definition SQLITE_OPEN_MAIN_DB : Z := 256.
Definition SQLITE_OPEN_MAIN_JOURNAL : Z := 2048.
Definition SQLITE_OPEN_TEMP_JOURNAL : Z := 4096.
Definition SQLITE_LOCK_NONE : Z := 0.
Definition SQLITE_LOCK_SHARED : Z := 1.
Definition SQLITE_LOCK_RESERVED : Z := 2.
Definition SQLITE_LOCK_PENDING : Z := 3.
Definition SQLITE_LOCK_EXCLUSIVE : Z := 4.

Definition BLOCK_SIZE : Z := 4096.

(** ** The VFS object *)

Inductive Durability := DurDefault | DurStrict | DurRelaxed.
Inductive PurgeMode := PurgeDeferred | PurgeManual.

Record VFSOptions := mkOptions {
  durability : Durability;
  purge_mode : PurgeMode;
  purgeAtLeast : Z
}.

Definition DEFAULT_OPTIONS : VFSOptions :=
  {| durability := DurDefault; purge_mode := PurgeDeferred;
     purgeAtLeast := 16 |}.

(** An opened-file entry. [journalPages] is a JavaScript array that may
    have holes ([None] elements read as [undefined]); the optional fields
    are [None] while the property is absent. *)
Record OpenedFileEntry := mkEntry {
  path : string;
  flags : Z;
  block0 : FileBlock;
  journalPages : option (list (option Z));
  changedPages : option (gset Z);
  cachedPageIndex : option Z;
  cachedPageEntry : option Int8Array
}.

(** The state of one [IndexedDbVFS] object and of the store behind it.
    [objects] is the heap of opened-file entries; [mapIdToFile] and
    [mapPathToFile] hold references into it. [blocks] is the content of
    the object store, [trace] the requests issued so far (oldest first).
    [idleTasks] are the purges handed to the idle callback.
    [this_cachedPageIndex] and [this_cachedPageEntry] are the properties
    that [#xReadJournal] assigns on the VFS object itself. *)
Record IndexedDbVFS := mkVFS {
  options : VFSOptions;
  mapIdToFile : gmap Z nat;
  mapPathToFile : gmap string nat;
  objects : gmap nat OpenedFileEntry;
  blocks : objectStore;
  trace : list event;
  pendingPurges : gset string;
  idleTasks : list string;
  this_cachedPageIndex : option Z;
  this_cachedPageEntry : option Int8Array
}.

Inductive exn := TypeError | RangeError | DataError.

(** How a call ends: with a status code, with an exception, or not at all
    (a loop that exhausts its fuel). *)
Inductive completion :=
  | Return (rc : Z)
  | Throw (e : exn)
  | Diverge.

(** *** Field updates *)

Definition with_fileSize (n : jsnum) (b : FileBlock) : FileBlock :=
  {| name := name b; index := index b; version := version b;
     data := data b; fileSize := n |}.
Definition with_data (d : Int8Array) (b : FileBlock) : FileBlock :=
  {| name := name b; index := index b; version := version b;
     data := d; fileSize := fileSize b |}.
Definition with_version (v : Z) (b : FileBlock) : FileBlock :=
  {| name := name b; index := index b; version := v;
     data := data b; fileSize := fileSize b |}.

Definition with_block0 (b : FileBlock) (f : OpenedFileEntry)
  : OpenedFileEntry :=
  {| path := path f; flags := flags f; block0 := b;
     journalPages := journalPages f; changedPages := changedPages f;
     cachedPageIndex := cachedPageIndex f;
     cachedPageEntry := cachedPageEntry f |}.
Definition with_journalPages (j : option (list (option Z)))
  (f : OpenedFileEntry) : OpenedFileEntry :=
  {| path := path f; flags := flags f; block0 := block0 f;
     journalPages := j; changedPages := changedPages f;
     cachedPageIndex := cachedPageIndex f;
     cachedPageEntry := cachedPageEntry f |}.
Definition with_changedPages (c : option (gset Z)) (f : OpenedFileEntry)
  : OpenedFileEntry :=
  {| path := path f; flags := flags f; block0 := block0 f;
     journalPages := journalPages f; changedPages := c;
     cachedPageIndex := cachedPageIndex f;
     cachedPageEntry := cachedPageEntry f |}.
Definition with_cache (i : option Z) (e : option Int8Array)
  (f : OpenedFileEntry) : OpenedFileEntry :=
  {| path := path f; flags := flags f; block0 := block0 f;
     journalPages := journalPages f; changedPages := changedPages f;
     cachedPageIndex := i; cachedPageEntry := e |}.

Definition with_maps (ids : gmap Z nat) (paths : gmap string nat)
  (st : IndexedDbVFS) : IndexedDbVFS :=
  {| options := options st; mapIdToFile := ids; mapPathToFile := paths;
     objects := objects st; blocks := blocks st; trace := trace st;
     pendingPurges := pendingPurges st; idleTasks := idleTasks st;
     this_cachedPageIndex := this_cachedPageIndex st;
     this_cachedPageEntry := this_cachedPageEntry st |}.
Definition with_objects (o : gmap nat OpenedFileEntry) (st : IndexedDbVFS)
  : IndexedDbVFS :=
  {| options := options st; mapIdToFile := mapIdToFile st;
     mapPathToFile := mapPathToFile st;
     objects := o; blocks := blocks st; trace := trace st;
     pendingPurges := pendingPurges st; idleTasks := idleTasks st;
     this_cachedPageIndex := this_cachedPageIndex st;
     this_cachedPageEntry := this_cachedPageEntry st |}.
Definition with_store (s : objectStore) (t : list event) (st : IndexedDbVFS)
  : IndexedDbVFS :=
  {| options := options st; mapIdToFile := mapIdToFile st;
     mapPathToFile := mapPathToFile st;
     objects := objects st; blocks := s; trace := t;
     pendingPurges := pendingPurges st; idleTasks := idleTasks st;
     this_cachedPageIndex := this_cachedPageIndex st;
     this_cachedPageEntry := this_cachedPageEntry st |}.
Definition with_purges (p : gset string) (i : list string)
  (st : IndexedDbVFS) : IndexedDbVFS :=
  {| options := options st; mapIdToFile := mapIdToFile st;
     mapPathToFile := mapPathToFile st;
     objects := objects st; blocks := blocks st; trace := trace st;
     pendingPurges := p; idleTasks := i;
     this_cachedPageIndex := this_cachedPageIndex st;
     this_cachedPageEntry := this_cachedPageEntry st |}.
Definition with_this_cache (i : option Z) (e : option Int8Array)
  (st : IndexedDbVFS) : IndexedDbVFS :=
  {| options := options st; mapIdToFile := mapIdToFile st;
     mapPathToFile := mapPathToFile st;
     objects := objects st; blocks := blocks st; trace := trace st;
     pendingPurges := pendingPurges st; idleTasks := idleTasks st;
     this_cachedPageIndex := i; this_cachedPageEntry := e |}.

(** Assignment to the field of an entry object. *)
Definition store_object (r : nat) (f : OpenedFileEntry) (st : IndexedDbVFS)
  : IndexedDbVFS :=
  with_objects (<[r := f]> (objects st)) st.

(** [this.#mapIdToFile.get(fileId)]: the reference and the object. *)
Definition file_of_id (st : IndexedDbVFS) (fileId : Z)
  : option (nat * OpenedFileEntry) :=
  r ← mapIdToFile st !! fileId; f ← objects st !! r; Some (r, f).

(** [this.#mapPathToFile.get(path)] *)
Definition file_of_path (st : IndexedDbVFS) (p : string)
  : option (nat * OpenedFileEntry) :=
  r ← mapPathToFile st !! p; f ← objects st !! r; Some (r, f).

(** *** The store seen through [IDBContext] *)

(** Modelled from the spec: [IDBContext.js] is not part of the sources.
    Section 4.1 describes [run(mode, fn)] as running [fn] on the block
    store inside a transaction, in the order of the calls; so the
    requests of the callbacks take effect on [blocks] in the order in
    which the VFS makes them, and each is recorded in [trace]. *)
Definition idb_put (r : stored) (st : IndexedDbVFS) : IndexedDbVFS :=
  with_store (store_put r (blocks st)) (trace st ++ [EvPut r]) st.

(** Modelled from the spec: [blocks.delete] through [IDBContext.run], as
    [idb_put]. *)
Definition idb_delete (rg : IDBKeyRange) (st : IndexedDbVFS) : IndexedDbVFS :=
  with_store (store_delete rg (blocks st)) (trace st ++ [EvDelete rg]) st.

(** Modelled from the spec: [IDBContext.sync()], which section 4.1
    describes as waiting for the current transaction to commit; it
    changes no record. *)
Definition idb_sync (st : IndexedDbVFS) : IndexedDbVFS :=
  with_store (blocks st) (trace st ++ [EvSync]) st.

(** Modelled from the spec: [blocks.get(range)] through
    [IDBContext.run], for a range of block keys; [None] is
    [undefined]. *)
Definition idb_get_block (rg : IDBKeyRange) (st : IndexedDbVFS)
  : option FileBlock :=
  match store_get rg (blocks st) with
  | Some (SBlock b) => Some b
  | _ => None
  end.

(** Sequential assignments to the fields of an entry object: the update
    is applied to the object in the heap, so that two references to the
    same object observe it. *)
Definition modify_object (r : nat) (g : OpenedFileEntry -> OpenedFileEntry)
  (st : IndexedDbVFS) : IndexedDbVFS :=
  with_objects (alter g r (objects st)) st.

(** The read/write operand [{size, value}]. *)
Record PData := mkPData {
  pData_size : Z;
  pData_value : Int8Array
}.

(** ** Private helpers of the class *)

(** [#isJournal(file)], as a truth value. *)
Definition isJournal (file : OpenedFileEntry) : bool :=
  negb (Z.land (flags file)
               (Z.lor SQLITE_OPEN_MAIN_JOURNAL SQLITE_OPEN_TEMP_JOURNAL) =? 0).

Definition ends_with (suffix s : string) : bool :=
  let n := String.length s in
  let m := String.length suffix in
  (m <=? n)%nat && String.eqb (substring (n - m) m s) suffix.

(** [#getJournalDatabasePath(file)]: [file.path.replace(/-journal$/, '')]. *)
Definition getJournalDatabasePath (file : OpenedFileEntry) : string :=
  let p := path file in
  if ends_with "-journal" p
  then substring 0 (String.length p - 8) p
  else p.

(** [#checksum(data, nonce, pageSize)]. The loop runs on fuel; [None] is
    returned when the fuel runs out before the loop ends. The sum itself
    is a JavaScript number and becomes [NaN] when [data[x]] is
    [undefined]. *)
Fixpoint checksum_loop (fuel : nat) (d : Int8Array) (result : jsnum) (x : Z)
  : option jsnum :=
  if 0 <? x then
    match fuel with
    | O => None
    | S fuel' =>
        let value := ta_get d x in
        let term :=
          match value with
          | Some v => Some (if 0 <=? v then v else v + 256)
          | None => None
          end in
        checksum_loop fuel' d (num_add result term) (x - 200)
    end
  else Some result.

Definition checksum (d : Int8Array) (nonce pageSize : Z) : option jsnum :=
  checksum_loop (Z.to_nat pageSize) d (Some nonce) (pageSize - 200).

(** [#maybePurge(name, nPages)]: the purge is handed to the idle callback
    and the file is marked as having a purge pending. *)
Definition maybePurge (name_ : string) (nPages : Z) (st : IndexedDbVFS)
  : IndexedDbVFS :=
  if match purge_mode (options st) with PurgeManual => true | _ => false end
     || bool_decide (name_ ∈ pendingPurges st)
     || (nPages <? purgeAtLeast (options st))
  then st
  else with_purges ({[name_]} ∪ pendingPurges st) (idleTasks st ++ [name_]) st.

(** ** xClose *)

Definition xClose (st : IndexedDbVFS) (fileId : Z)
  : IndexedDbVFS * completion :=
  match file_of_id st fileId with
  | Some (_, file) =>
      let st1 := with_maps (delete fileId (mapIdToFile st))
                           (delete (path file) (mapPathToFile st)) st in
      let st2 :=
        if negb (Z.land (flags file) SQLITE_OPEN_DELETEONCLOSE =? 0)
        then idb_delete (bound_closed [KStr (path file)]
                                      [KStr (path file); KEmptyArray]) st1
        else st1 in
      (st2, Return SQLITE_OK)
  | None => (st, Return SQLITE_OK)
  end.

(** ** Reading a database file

    [blockSize] is [file.block0.data.byteLength], which is [BLOCK_SIZE]
    for every block 0 that [xOpen] creates or loads. The quotients and
    remainders below are those of JavaScript as long as it is positive;
    the properties that depend on them assume so. *)

(** The range of the versions of block [i] that are visible at version
    [v]: from [[path, i, v]] to [[path, i, Infinity]]. *)
Definition visible_range (p : string) (i v : Z) : IDBKeyRange :=
  bound_closed [KStr p; KNum i; KNum v] [KStr p; KNum i; KInfinity].

(** The body of the loop of [#xReadGeneral]. The result is the final
    [bufferOffset], or the way the loop ended abnormally. *)
Fixpoint xReadGeneral_loop (fuel : nat) (st : IndexedDbVFS) (r : nat)
  (file : OpenedFileEntry) (buf : Int8Array) (blockSize : Z)
  (bufferOffset fileOffset bytesRemaining : Z)
  : IndexedDbVFS * Int8Array * (Z + completion) :=
  if bytesRemaining =? 0 then (st, buf, inl bufferOffset)
  else
    match fuel with
    | O => (st, buf, inr Diverge)
    | S fuel' =>
        let blockIndex := fileOffset `div` blockSize in
        let blockOffset := fileOffset `rem` blockSize in
        let blockBytes := Z.min (blockSize - blockOffset) bytesRemaining in
        let fetched :=
          idb_get_block
            (visible_range (path file) blockIndex (version (block0 file)))
            st in
        let block := default (block0 file) fetched in
        let '(st1, file1, block1) :=
          if blockIndex =? 0 then
            if version block <? version (block0 file)
            then (store_object r (with_block0 block file) st,
                  with_block0 block file, block)
            else (st, file, block0 file)
          else (st, file, block) in
        match view_set buf bufferOffset
                (subarray (data block1) blockOffset (blockOffset + blockBytes))
        with
        | None => (st1, buf, inr (Throw RangeError))
        | Some buf' =>
            xReadGeneral_loop fuel' st1 r file1 buf' blockSize
              (bufferOffset + blockBytes) (fileOffset + blockBytes)
              (bytesRemaining - blockBytes)
        end
    end.

(** [#xReadGeneral(file, pData, iOffset)]. With a positive block size
    every round of the loop consumes at least one of the remaining bytes
    (and a negative count is used up in one round), so the fuel given
    here is enough. *)
Definition xReadGeneral (st : IndexedDbVFS) (r : nat) (file : OpenedFileEntry)
  (pData : PData) (iOffset : Z) : IndexedDbVFS * Int8Array * completion :=
  let bgn := Math_min (Some iOffset) (fileSize (block0 file)) in
  let end_ := Math_min (Some (iOffset + pData_size pData))
                       (fileSize (block0 file)) in
  let bytesRemaining := num_sub end_ bgn in
  let blockSize := byteLength (data (block0 file)) in
  let '(st1, buf, res) :=
    match bytesRemaining with
    | Some n =>
        xReadGeneral_loop (S (Z.to_nat (Z.abs n))) st r file
          (pData_value pData) blockSize 0 iOffset n
    | None => (st, pData_value pData, inl 0)
    end in
  match res with
  | inr c => (st1, buf, c)
  | inl bufferOffset =>
      if bufferOffset =? pData_size pData
      then (st1, buf, Return SQLITE_OK)
      else (st1,
            view_fill buf bufferOffset 0 (pData_size pData - bufferOffset),
            Return SQLITE_IOERR_SHORT_READ)
  end.

(** ** Reading a journal file *)

(** [a[i]] on the array [journalPages]; holes and indices outside the
    array read as [undefined]. *)
Definition array_get (a : list (option Z)) (i : Z) : option Z :=
  if i <? 0 then None else mjoin (a !! Z.to_nat i).

(** [a[i] = x]: an index past the end extends the array with holes. A
    negative index would create a property and not an element; the model
    does not keep such a property, and what is stated about
    [journalPages] takes an entry index that is not negative. *)
Definition array_assign (a : list (option Z)) (i x : Z) : list (option Z) :=
  if i <? 0 then a
  else
    let n := Z.to_nat i in
    if (n <? length a)%nat then <[n := Some x]> a
    else a ++ replicate (n - length a)%nat None ++ [Some x].

(** The range of the versions of page [i] strictly older than [v]: the
    lower bound [[dbPath, i, v]] is open. *)
Definition older_range (p : string) (i v : Z) : IDBKeyRange :=
  bound [KStr p; KNum i; KNum v] [KStr p; KNum i; KInfinity] true false.

(** The rebuilding of a page entry in [#xReadJournal]: page index, page
    data and checksum are written one after the other into
    [this.cachedPageEntry]; the state after an exception keeps what was
    assigned before it. *)
Definition build_page_entry (st : IndexedDbVFS) (header : Int8Array)
  (dbPath : string) (dbFile : OpenedFileEntry) (entrySize pageIndex : Z)
  : IndexedDbVFS * option completion :=
  let block :=
    idb_get_block (older_range dbPath pageIndex (version (block0 dbFile)))
                  st in
  match getUint32 header 12 with
  | None => (st, Some (Throw RangeError))
  | Some nonce =>
      let pageSize := byteLength (data (block0 dbFile)) in
      let entry0 := new_Int8Array entrySize in
      let st0 := with_this_cache (Some pageIndex) (Some entry0) st in
      match setUint32 entry0 0 (Some (pageIndex + 1)) with
      | None => (st0, Some (Throw RangeError))
      | Some entry1 =>
          let st1 := with_this_cache (Some pageIndex) (Some entry1) st in
          match block with
          | None => (st1, Some (Throw TypeError))
          | Some b =>
              match ta_set entry1 (data b) 4 with
              | None => (st1, Some (Throw RangeError))
              | Some entry2 =>
                  let st2 :=
                    with_this_cache (Some pageIndex) (Some entry2) st in
                  match checksum (data b) nonce pageSize with
                  | None => (st2, Some Diverge)
                  | Some sum =>
                      match setUint32 entry2 (entrySize - 4) sum with
                      | None => (st2, Some (Throw RangeError))
                      | Some entry3 =>
                          (with_this_cache (Some pageIndex) (Some entry3) st,
                           None)
                      end
                  end
              end
          end
      end
  end.

(** [#xReadJournal(file, pData, iOffset)] *)
Definition xReadJournal (st : IndexedDbVFS) (file : OpenedFileEntry)
  (pData : PData) (iOffset : Z) : IndexedDbVFS * Int8Array * completion :=
  let buf := pData_value pData in
  let dbPath := getJournalDatabasePath file in
  match getUint32 (data (block0 file)) 20 with
  | None => (st, buf, Throw RangeError)
  | Some sectorSize =>
      match file_of_path st dbPath with
      | None => (st, buf, Throw TypeError)
      | Some (_, dbFile) =>
          let entrySize := byteLength (data (block0 dbFile)) + 8 in
          if sectorSize <=? iOffset then
            let entryIndex := ToInt32 ((iOffset - sectorSize) `quot` entrySize) in
            match journalPages dbFile with
            | None => (st, buf, Throw TypeError)
            | Some pages =>
                let pageIndex := array_get pages entryIndex in
                let '(st1, failure) :=
                  if bool_decide (cachedPageIndex file = pageIndex)
                  then (st, None)
                  else
                    match pageIndex with
                    | None => (st, Some (Throw DataError))
                    | Some p =>
                        build_page_entry st (data (block0 file)) dbPath dbFile
                                         entrySize p
                    end in
                match failure with
                | Some c => (st1, buf, c)
                | None =>
                    let skip := (iOffset - sectorSize) `rem` entrySize in
                    match this_cachedPageEntry st1 with
                    | None => (st1, buf, Throw TypeError)
                    | Some entry =>
                        match ta_set buf
                                (subarray entry skip (skip + byteLength buf)) 0
                        with
                        | None => (st1, buf, Throw RangeError)
                        | Some buf' => (st1, buf', Return SQLITE_OK)
                        end
                    end
                end
            end
          else
            match ta_set buf
                    (subarray (data (block0 file)) iOffset
                              (iOffset + pData_size pData)) 0
            with
            | None => (st, buf, Throw RangeError)
            | Some buf' => (st, buf', Return SQLITE_OK)
            end
      end
  end.

(** ** xRead *)

Definition xRead (st : IndexedDbVFS) (fileId : Z) (pData : PData) (iOffset : Z)
  : IndexedDbVFS * Int8Array * completion :=
  let buf := pData_value pData in
  match file_of_id st fileId with
  | None => (st, buf, Throw TypeError)
  | Some (r, file) =>
      if isJournal file then xReadJournal st file pData iOffset
      else
        let blockSize := byteLength (data (block0 file)) in
        let blockIndex := ToInt32 (iOffset `quot` blockSize) in
        if (blockIndex + 1) * blockSize <? iOffset + pData_size pData
        then xReadGeneral st r file pData iOffset
        else if num_ge (Some iOffset) (fileSize (block0 file))
        then
          (* pData.value.fill(0, pData.size): the second argument of
             [fill] is the start index. *)
          (st, ta_fill buf 0 (pData_size pData) (byteLength buf),
           Return SQLITE_IOERR_SHORT_READ)
        else
          let fetched :=
            idb_get_block
              (visible_range (path file) blockIndex (version (block0 file)))
              st in
          let reconciled :=
            if blockIndex =? 0 then
              match fetched with
              | None => None
              | Some block =>
                  if version block <? version (block0 file)
                  then Some (store_object r (with_block0 block file) st, block)
                  else Some (st, block0 file)
              end
            else (fun block => (st, block)) <$> fetched in
          match reconciled with
          | None => (st, buf, Throw TypeError)
          | Some (st1, block) =>
              let blockOffset := iOffset `rem` blockSize in
              match ta_set buf
                      (subarray (data block) blockOffset
                                (blockOffset + byteLength buf)) 0
              with
              | None => (st1, buf, Throw RangeError)
              | Some buf' => (st1, buf', Return SQLITE_OK)
              end
          end
  end.

(** ** Writing a database file *)

(** The record built for a block other than block 0: the name and the
    version of block 0, a zero-filled payload of the block size. *)
Definition fresh_block (file : OpenedFileEntry) (blockIndex : Z) : FileBlock :=
  {| name := name (block0 file);
     index := blockIndex;
     version := version (block0 file);
     data := new_Int8Array (byteLength (data (block0 file)));
     fileSize := None |}.

(** [file.changedPages?.add(blockIndex)] *)
Definition changedPages_add (blockIndex : Z) (file : OpenedFileEntry)
  : OpenedFileEntry :=
  match changedPages file with
  | Some s => with_changedPages (Some ({[blockIndex]} ∪ s)) file
  | None => file
  end.

(** The test of [xWrite] that selects the read-modify-write path. *)
Definition needs_general_write (file : OpenedFileEntry) (pData : PData)
  (iOffset : Z) : bool :=
  let blockSize := byteLength (data (block0 file)) in
  let blockIndex := ToInt32 (iOffset `quot` blockSize) in
  negb (iOffset =? blockIndex * blockSize)
  || (num_lt (Some iOffset) (fileSize (block0 file))
      && negb (pData_size pData =? blockSize)).

(** The part of [xWrite] after the test: the write of one block. *)
Definition xWrite_fast (st : IndexedDbVFS) (r : nat) (file : OpenedFileEntry)
  (pData : PData) (iOffset : Z) : IndexedDbVFS * completion :=
  let blockSize := byteLength (data (block0 file)) in
  let blockIndex := ToInt32 (iOffset `quot` blockSize) in
  let file1 :=
    with_block0
      (with_fileSize (Math_max (fileSize (block0 file))
                               (Some (iOffset + pData_size pData)))
                     (block0 file))
      file in
  let st1 := store_object r file1 st in
  if blockIndex =? 0 then
    match ta_set (data (block0 file1)) (pData_value pData) 0 with
    | None => (st1, Throw RangeError)
    | Some d =>
        let file2 := with_block0 (with_data d (block0 file1)) file1 in
        (store_object r (changedPages_add blockIndex file2) st1,
         Return SQLITE_OK)
    end
  else
    match ta_set (data (fresh_block file1 blockIndex)) (pData_value pData) 0
    with
    | None => (st1, Throw RangeError)
    | Some d =>
        let block := with_data d (fresh_block file1 blockIndex) in
        let st2 := idb_put (SBlock block) st1 in
        (store_object r (changedPages_add blockIndex file1) st2,
         Return SQLITE_OK)
    end.

(** The body of the loop of [#xWriteGeneral]; [None] in the result means
    the loop ended normally. *)
Fixpoint xWriteGeneral_loop (fuel : nat) (st : IndexedDbVFS) (r : nat)
  (file : OpenedFileEntry) (src : Int8Array) (blockSize : Z)
  (lastBlockIndex : jsnum) (bufferOffset fileOffset bytesRemaining : Z)
  : IndexedDbVFS * OpenedFileEntry * option completion :=
  if bytesRemaining =? 0 then (st, file, None)
  else
    match fuel with
    | O => (st, file, Some Diverge)
    | S fuel' =>
        let blockIndex := fileOffset `div` blockSize in
        let blockOffset := fileOffset `rem` blockSize in
        let blockBytes := Z.min (blockSize - blockOffset) bytesRemaining in
        let block :=
          if blockIndex =? 0 then Some (block0 file)
          else if num_ge lastBlockIndex (Some blockIndex)
                  && (blockBytes <? blockSize)
          then idb_get_block
                 (bound_closed [KStr (path file); KNum blockIndex]
                    [KStr (path file); KNum blockIndex; KInfinity]) st
          else Some (fresh_block file blockIndex) in
        match block with
        | None => (st, file, Some (Throw TypeError))
        | Some b =>
            match ta_set (data b)
                    (subarray src bufferOffset (bufferOffset + blockBytes))
                    blockOffset
            with
            | None => (st, file, Some (Throw RangeError))
            | Some d =>
                let b' := with_data d b in
                let file1 :=
                  if blockIndex =? 0 then with_block0 b' file else file in
                let st1 :=
                  if blockIndex =? 0 then st else idb_put (SBlock b') st in
                let file2 := changedPages_add blockIndex file1 in
                xWriteGeneral_loop fuel' (store_object r file2 st1) r file2
                  src blockSize lastBlockIndex (bufferOffset + blockBytes)
                  (fileOffset + blockBytes) (bytesRemaining - blockBytes)
            end
        end
    end.

(** [#xWriteGeneral(file, pData, iOffset)]. With a positive block size
    every round of the loop consumes at least one byte of the source, so
    its length is enough fuel. *)
Definition xWriteGeneral (st : IndexedDbVFS) (r : nat) (file : OpenedFileEntry)
  (pData : PData) (iOffset : Z) : IndexedDbVFS * completion :=
  let src := pData_value pData in
  let blockSize := byteLength (data (block0 file)) in
  let lastBlockIndex :=
    (fun n => n `div` blockSize) <$> fileSize (block0 file) in
  let '(st1, file1, failure) :=
    xWriteGeneral_loop (length src) st r file src blockSize lastBlockIndex
      0 iOffset (byteLength src) in
  match failure with
  | Some c => (st1, c)
  | None =>
      let file2 :=
        with_block0
          (with_fileSize (Math_max (fileSize (block0 file1))
                                   (Some (iOffset + pData_size pData)))
                         (block0 file1))
          file1 in
      (store_object r file2 st1, Return SQLITE_OK)
  end.

(** ** Writing a journal file *)

(** [#xWriteJournal(file, pData, iOffset)]. [r] is the reference of the
    journal file's entry; every assignment goes to the heap, so the code
    behaves as the source does when [dbFile] and [file] are one object. *)
Definition xWriteJournal (st : IndexedDbVFS) (r : nat) (file : OpenedFileEntry)
  (pData : PData) (iOffset : Z) : IndexedDbVFS * completion :=
  let dbPath := getJournalDatabasePath file in
  let dbRef := mapPathToFile st !! dbPath in
  let set_fileSize st' :=
    modify_object r
      (fun f => with_block0
         (with_fileSize (Math_max (fileSize (block0 f))
                                  (Some (iOffset + pData_size pData)))
                        (block0 f)) f) st' in
  if iOffset =? 0 then
    let header := data (block0 file) in
    match ta_set header
            (subarray (pData_value pData) 0 (byteLength header)) 0 with
    | None => (st, Throw RangeError)
    | Some header' =>
        let st1 :=
          modify_object r
            (fun f => with_block0 (with_data header' (block0 f)) f) st in
        if match ta_get header' 0 with
           | Some b => negb (b =? 0)
           | None => false
           end
        then
          match dbRef with
          | None => (st1, Throw TypeError)
          | Some d =>
              let st2 :=
                modify_object d
                  (fun f => with_changedPages (Some ∅)
                              (with_journalPages (Some []) f)) st1 in
              let st3 := modify_object r (with_cache (Some (-1)) None) st2 in
              let st4 :=
                modify_object d
                  (fun f => with_block0
                     (with_version (version (block0 f) - 1) (block0 f)) f)
                  st3 in
              (set_fileSize st4, Return SQLITE_OK)
          end
        else (set_fileSize st1, Return SQLITE_OK)
    end
  else
    match getUint32 (data (block0 file)) 20 with
    | None => (st, Throw RangeError)
    | Some sectorSize =>
        match file_of_path st dbPath with
        | None => (st, Throw TypeError)
        | Some (d, dbFile) =>
            let entrySize := byteLength (data (block0 dbFile)) + 8 in
            if (iOffset - sectorSize) `rem` entrySize =? 0 then
              let entryIndex := (iOffset - sectorSize) `quot` entrySize in
              match getUint32 (pData_value pData) 0 with
              | None => (st, Throw RangeError)
              | Some n =>
                  let pageIndex := n - 1 in
                  match journalPages dbFile with
                  | None => (st, Throw TypeError)
                  | Some pages =>
                      let st1 :=
                        modify_object d
                          (with_journalPages
                             (Some (array_assign pages entryIndex pageIndex)))
                          st in
                      (set_fileSize st1, Return SQLITE_OK)
                  end
              end
            else (set_fileSize st, Return SQLITE_OK)
        end
    end.

(** ** xWrite *)

Definition xWrite (st : IndexedDbVFS) (fileId : Z) (pData : PData) (iOffset : Z)
  : IndexedDbVFS * completion :=
  match file_of_id st fileId with
  | None => (st, Throw TypeError)
  | Some (r, file) =>
      if isJournal file then xWriteJournal st r file pData iOffset
      else if needs_general_write file pData iOffset
      then xWriteGeneral st r file pData iOffset
      else xWrite_fast st r file pData iOffset
  end.

(** ** xTruncate *)

Definition xTruncate (st : IndexedDbVFS) (fileId iSize : Z)
  : IndexedDbVFS * completion :=
  match file_of_id st fileId with
  | None => (st, Throw TypeError)
  | Some (r, file) =>
      let file1 := with_block0 (with_fileSize (Some iSize) (block0 file)) file in
      let st1 := store_object r file1 st in
      let block0_copy := block0 file1 in
      let lastBlockIndex := iSize `div` byteLength (data (block0 file1)) in
      let st2 := idb_put (SBlock block0_copy) st1 in
      let st3 :=
        idb_delete
          (bound_closed [KStr (path file); KNum lastBlockIndex; KInfinity]
                        [KStr (path file); KInfinity; KInfinity]) st2 in
      (st3, Return SQLITE_OK)
  end.

(** ** xSync *)

(** The key of the purge record of a file: [[path, 'purge', 0]]. *)
Definition purge_key (p : string) : idbkey := [KStr p; KStr "purge"; KNum 0].

Definition idb_get_purge (p : string) (st : IndexedDbVFS) : option PurgeBlock :=
  match store_get (only (purge_key p)) (blocks st) with
  | Some (SPurge pb) => Some pb
  | _ => None
  end.

(** One step of the loop over [journalPages]:
    [if (changedPages.has(pageIndex)) purgeBlock.data.set(pageIndex, v)]. *)
Definition mark_obsolete (changed : gset Z) (v : Z) (m : gmap Z Z)
  (pageIndex : option Z) : gmap Z Z :=
  match pageIndex with
  | Some p => if bool_decide (p ∈ changed) then <[p := v]> m else m
  | None => m
  end.

(** The purge record that [xSync] reads or creates. *)
Definition purge_record_or_new (p : string) (st : IndexedDbVFS) : PurgeBlock :=
  default {| purge_name := p; purge_version := 0; purge_data := ∅ |}
          (idb_get_purge p st).

(** The callback that [xSync] runs on the store. An exception raised in
    it (the iteration of an absent [journalPages]) rejects the promise of
    the callback, which [xSync] does not await. *)
Definition xSync_callback (file : OpenedFileEntry) (st : IndexedDbVFS)
  : IndexedDbVFS :=
  let st1 := idb_put (SBlock (block0 file)) st in
  match changedPages file with
  | None => st1
  | Some changed =>
      let purgeBlock := purge_record_or_new (path file) st1 in
      match journalPages file with
      | None => st1
      | Some pages =>
          let purgeBlock' :=
            {| purge_name := purge_name purgeBlock;
               purge_version := purge_version purgeBlock;
               purge_data :=
                 foldl (mark_obsolete changed (version (block0 file)))
                       (purge_data purgeBlock) pages |} in
          let st2 := idb_put (SPurge purgeBlock') st1 in
          maybePurge (path file) (Z.of_nat (size (purge_data purgeBlock'))) st2
      end
  end.

Definition xSync (st : IndexedDbVFS) (fileId flags_ : Z)
  : IndexedDbVFS * completion :=
  match file_of_id st fileId with
  | None => (st, Throw TypeError)
  | Some (_, file) =>
      if negb (isJournal file) then
        let st1 := xSync_callback file st in
        let st2 :=
          match durability (options st1) with
          | DurRelaxed => st1
          | _ => idb_sync st1
          end in
        (st2, Return SQLITE_OK)
      else (st, Return SQLITE_OK)
  end.

(** ** xLock *)

(** The callback of [xLock] at the RESERVED level. An absent [dbFile]
    raises inside the callback, before any request is made. *)
Definition xLock_sweep (file : OpenedFileEntry) (st : IndexedDbVFS)
  : IndexedDbVFS :=
  let dbPath := getJournalDatabasePath file in
  match file_of_path st dbPath with
  | None => st
  | Some (_, dbFile) =>
      let keys :=
        index_version_getAllKeys
          (bound [KStr dbPath] [KStr dbPath; KNum (version (block0 dbFile))]
                 false true)
          (blocks st) in
      foldl (fun st' key => idb_delete (only key) st') st keys
  end.

(** [xLock(fileId, flags)]. [WebLocks.js] is not part of the sources:
    [lockResult] stands for the value of
    [this.#webLocks.lock(file.path, flags)], which [xLock] returns. *)
Definition xLock (st : IndexedDbVFS) (fileId flags_ lockResult : Z)
  : IndexedDbVFS * completion :=
  match file_of_id st fileId with
  | None => (st, Throw TypeError)
  | Some (_, file) =>
      let st1 :=
        if flags_ =? SQLITE_LOCK_RESERVED then xLock_sweep file st else st in
      (st1, Return lockResult)
  end.

(** [xFileSize(fileId, pSize64)]: the value handed to [pSize64.set]. *)
Definition xFileSize (st : IndexedDbVFS) (fileId : Z) : option jsnum :=
  (fun rf => fileSize (block0 (snd rf))) <$> file_of_id st fileId.

(** ** purge *)

(** [purge(name)]. The argument of the model is the pathname that
    [new URL(name, 'file://localhost/')] gives; the callers inside the
    class pass a pathname. The entries of the [Map] are visited in the
    order of [map_to_list], not in their insertion order; the deletions
    remove disjoint sets of keys chosen before any of them runs, so the
    records that are left do not depend on the order. *)
Definition purge (st : IndexedDbVFS) (p : string) : IndexedDbVFS :=
  match idb_get_purge p st with
  | Some purgeBlock =>
      let st1 :=
        foldl (fun st' entry =>
                 idb_delete (older_range p (fst entry) (snd entry)) st')
              st (map_to_list (purge_data purgeBlock)) in
      idb_delete (only (purge_key p)) st1
  | None => st
  end.

(** The callback that [#maybePurge] hands to [requestIdleCallback] or
    [setTimeout]: [this.purge(name); this.#pendingPurges.delete(name)].
    The callbacks run in the order in which they were scheduled. *)
Definition run_idle_task (st : IndexedDbVFS) : IndexedDbVFS :=
  match idleTasks st with
  | [] => st
  | name_ :: rest =>
      let st1 := purge (with_purges (pendingPurges st) rest st) name_ in
      with_purges (pendingPurges st1 ∖ {[name_]}) (idleTasks st1) st1
  end.

(** ** xOpen *)

(** Modelled from the spec: the result code of [VFS.js] for a file that
    cannot be opened, as in the engine's public interface. *)
Definition SQLITE_CANTOPEN : Z := 14.

(** The range of the block-0 records of a file, from [[path, 0]] to
    [[path, 0, Infinity]]. *)
Definition block0_range (p : string) : IDBKeyRange :=
  bound_closed [KStr p; KNum 0] [KStr p; KNum 0; KInfinity].

(** The entry that [xOpen] builds. *)
Definition new_entry (p : string) (flags_ : Z) (b : FileBlock)
  : OpenedFileEntry :=
  {| path := p; flags := flags_; block0 := b;
     journalPages := None; changedPages := None;
     cachedPageIndex := None; cachedPageEntry := None |}.

(** The block 0 of a file that [xOpen] creates. *)
Definition created_block0 (p : string) : FileBlock :=
  {| name := p; index := 0; version := 0;
     data := new_Int8Array BLOCK_SIZE; fileSize := Some 0 |}.

(** [this.#mapIdToFile.set(fileId, file); this.#mapPathToFile.set(file.path,
    file)] for a new object [file]. *)
Definition register (fileId : Z) (file : OpenedFileEntry) (st : IndexedDbVFS)
  : IndexedDbVFS :=
  let r := fresh (dom (objects st)) in
  with_maps (<[fileId := r]> (mapIdToFile st))
            (<[path file := r]> (mapPathToFile st))
            (store_object r file st).

(** [xOpen(name, fileId, flags, pOutFlags)]. [pathname] stands for
    [new URL(name, 'http://localhost/').pathname], [None] when the
    constructor throws, which the [catch] turns into SQLITE_CANTOPEN.
    When the file is not found and is not to be created, the source has
    already put into both maps an entry whose [block0] is [null];
    [OpenedFileEntry] has no such value, so no state is given for that
    outcome ([None]). On success [pOutFlags] is set to 0. *)
Definition xOpen (st : IndexedDbVFS) (pathname : option string)
  (fileId flags_ : Z) : option IndexedDbVFS * completion :=
  match pathname with
  | None => (Some st, Return SQLITE_CANTOPEN)
  | Some p =>
      match idb_get_block (block0_range p) st with
      | Some b =>
          (Some (register fileId (new_entry p flags_ b) st), Return SQLITE_OK)
      | None =>
          if negb (Z.land flags_ SQLITE_OPEN_CREATE =? 0) then
            let file := new_entry p flags_ (created_block0 p) in
            let st1 := register fileId file st in
            if negb (isJournal file) then
              let st2 := idb_put (SBlock (block0 file)) st1 in
              let st3 := purge st2 (path file) in
              (Some (idb_sync st3), Return SQLITE_OK)
            else (Some st1, Return SQLITE_OK)
          else (None, Return SQLITE_CANTOPEN)
      end
  end.

(** ** xUnlock, xAccess, xDelete *)

(** [xUnlock(fileId, flags)]; [unlockResult] stands for the value of
    [this.#webLocks.unlock(file.path, flags)]. *)
Definition xUnlock (st : IndexedDbVFS) (fileId flags_ unlockResult : Z)
  : IndexedDbVFS * completion :=
  match file_of_id st fileId with
  | None => (st, Throw TypeError)
  | Some _ => (st, Return unlockResult)
  end.

(** [xAccess(name, flags, pResOut)]: the value handed to [pResOut.set]
    and the completion. [pathname] stands for
    [new URL(name, 'file://localhost/').pathname]; nothing catches the
    TypeError of the constructor. *)
Definition xAccess (st : IndexedDbVFS) (pathname : option string) (flags_ : Z)
  : option Z * completion :=
  match pathname with
  | None => (None, Throw TypeError)
  | Some p =>
      let key := store_getKey (block0_range p) (blocks st) in
      (Some (match key with Some _ => 1 | None => 0 end), Return SQLITE_OK)
  end.

(** [xDelete(name, syncDir)]. With [syncDir] the source awaits the
    promise of the request, which changes neither the store nor the
    entries. *)
Definition xDelete (st : IndexedDbVFS) (pathname : option string)
  (syncDir : bool) : IndexedDbVFS * completion :=
  match pathname with
  | None => (st, Throw TypeError)
  | Some p =>
      (idb_delete (bound_closed [KStr p] [KStr p; KEmptyArray]) st,
       Return SQLITE_OK)
  end.

(** [xSectorSize(fileId)] *)
Definition xSectorSize (fileId : Z) : Z := BLOCK_SIZE.

(** ** Notions used to state the properties *)

(** The requests issued between two states. *)
Definition issued (st st' : IndexedDbVFS) : list event :=
  drop (length (trace st)) (trace st').

(** A request that writes to or deletes from the store. *)
Definition is_write (e : event) : bool :=
  match e with
  | EvPut _ | EvDelete _ => true
  | EvSync => false
  end.

(** The newest committed block 0 of a file, fetched as [xOpen] does: the
    first record from [[path, 0]] to [[path, 0, Infinity]]. *)
Definition committed_block0 (p : string) (s : objectStore) : option FileBlock :=
  match store_get (bound_closed [KStr p; KNum 0] [KStr p; KNum 0; KInfinity]) s
  with
  | Some (SBlock b) => Some b
  | _ => None
  end.

Definition stored_name (x : stored) : string :=
  match x with SBlock b => name b | SPurge p => purge_name p end.
Definition stored_version (x : stored) : Z :=
  match x with SBlock b => version b | SPurge p => purge_version p end.


(** The byte positions that enter the checksum of a page:
    [pageSize - 200], [pageSize - 400], ... as long as they are above 0. *)
Definition checksum_positions (pageSize : Z) : list Z :=
  (fun k => pageSize - 200 * Z.of_nat k)
    <$> seq 1 (Z.to_nat ((pageSize - 1) `div` 200)).

(** The sum of the bytes at these positions, read as unsigned values. *)
Definition checksum_sum (d : Int8Array) (pageSize : Z) : Z :=
  foldr Z.add 0
    ((fun x => ToUint8 (default 0 (ta_get d x))) <$> checksum_positions pageSize).

(** All elements are signed bytes, as those of an [Int8Array] are. *)
Definition int8_values (a : Int8Array) : Prop :=
  Forall (fun b => -128 <= b < 128) a.

(** The three kinds of writes that the specification sends to the
    read-modify-write path. *)
Definition misaligned (blockSize iOffset : Z) : Prop :=
  iOffset `mod` blockSize <> 0.
Definition partial_in_file (blockSize : Z) (size_ : jsnum) (len iOffset : Z)
  : Prop :=
  len <> blockSize /\ exists n, size_ = Some n /\ iOffset < n.
Definition multi_block (blockSize len iOffset : Z) : Prop :=
  (iOffset `div` blockSize + 1) * blockSize < iOffset + len.

(** The dispatch of [xWrite] as the specification words it: misaligned,
    partial and multi-block writes go to [#xWriteGeneral], and only
    aligned single full-block writes take the fast path. *)
Definition write_dispatch_as_specified (file : OpenedFileEntry) (pData : PData)
  (iOffset : Z) : Prop :=
  let blockSize := byteLength (data (block0 file)) in
  let len := pData_size pData in
  ((misaligned blockSize iOffset
    \/ partial_in_file blockSize (fileSize (block0 file)) len iOffset
    \/ multi_block blockSize len iOffset)
   -> needs_general_write file pData iOffset = true)
  /\ (needs_general_write file pData iOffset = false
      -> ~ misaligned blockSize iOffset /\ len = blockSize
         /\ ~ multi_block blockSize len iOffset).

(** The beginning of a transaction as the specification words it: after
    the write of the journal header at offset 0, the in-memory version of
    block 0 of the database file is one less than the newest committed
    block-0 version in the store. *)
Definition begins_below_committed (st : IndexedDbVFS) (fileId : Z)
  (pData : PData) : Prop :=
  let st' := fst (xWrite st fileId pData 0) in
  forall r file d dbFile' committed,
    file_of_id st fileId = Some (r, file) ->
    file_of_path st' (getJournalDatabasePath file) = Some (d, dbFile') ->
    committed_block0 (getJournalDatabasePath file) (blocks st')
    = Some committed ->
    version (block0 dbFile') = version committed - 1.

(** "truncate is a no-op": the cached size stays and nothing is written
    to or deleted from the store. *)
Definition truncate_is_noop (st : IndexedDbVFS) (fileId iSize : Z) : Prop :=
  let st' := fst (xTruncate st fileId iSize) in
  xFileSize st' fileId = xFileSize st fileId
  /\ Forall (fun e => is_write e = false) (issued st st').

(** What the specification names as the in-memory state of a file: the
    cached fileSize, changedPages and journalPages. *)
Definition file_state (f : OpenedFileEntry)
  : jsnum * option (gset Z) * option (list (option Z)) :=
  (fileSize (block0 f), changedPages f, journalPages f).

(** "a zero-length read or write is a no-op": the in-memory state of
    every file and the records of the store stay, and the call returns
    OK. *)
Definition read_is_noop (st : IndexedDbVFS) (fileId : Z) (pData : PData)
  (iOffset : Z) : Prop :=
  let '(st', _, c) := xRead st fileId pData iOffset in
  file_state <$> objects st' = file_state <$> objects st
  /\ blocks st' = blocks st /\ c = Return SQLITE_OK.
Definition write_is_noop (st : IndexedDbVFS) (fileId : Z) (pData : PData)
  (iOffset : Z) : Prop :=
  let '(st', c) := xWrite st fileId pData iOffset in
  file_state <$> objects st' = file_state <$> objects st
  /\ blocks st' = blocks st /\ c = Return SQLITE_OK.

(** The order of the object store: ascending primary keys, which also
    excludes two records with one key. *)
Definition key_lt (x y : stored) : Prop :=
  key_cmp (key_of x) (key_of y) = Lt.

Definition store_sorted (s : objectStore) : Prop := StronglySorted key_lt s.

(** The page index that a read at [iOffset] looks up, when the read is
    past the header and the database file has its journal pages. *)
Definition looked_up_page (file dbFile : OpenedFileEntry) (iOffset : Z)
  : option (option Z) :=
  match getUint32 (data (block0 file)) 20, journalPages dbFile with
  | Some sectorSize, Some pages =>
      if sectorSize <=? iOffset then
        Some (array_get pages
                (ToInt32 ((iOffset - sectorSize)
                          `quot` (byteLength (data (block0 dbFile)) + 8))))
      else None
  | _, _ => None
  end.

(** The purges that are scheduled and the files that are marked as
    having a purge pending are the same, each scheduled once. *)
Definition purges_scheduled (st : IndexedDbVFS) : Prop :=
  NoDup (idleTasks st) /\ forall n, n ∈ idleTasks st <-> n ∈ pendingPurges st.

(** The records that [purge] leaves when the purge record is [pb]: those
    outside every range it deletes. *)
Definition purge_keeps (p : string) (pb : PurgeBlock) (x : stored) : bool :=
  forallb (fun entry : Z * Z =>
             negb (includes (older_range p (fst entry) (snd entry)) (key_of x)))
          (map_to_list (purge_data pb))
  && negb (includes (only (purge_key p)) (key_of x)).

(** What the assignments of [#xWriteJournal] keep of the entry [f0] of a
    journal once the header [h] is copied. *)
Definition keeps_header (h : Int8Array) (f0 f : OpenedFileEntry) : Prop :=
  data (block0 f) = h /\ flags f = flags f0 /\ path f = path f0.

(** ** Example states *)

Module Example.

(** A database [/db] of two blocks, committed at version 0 and opened
    as file 1, with its journal [/db-journal] opened as file 2. *)
Definition db_block0 : FileBlock :=
  {| name := "/db"; index := 0; version := 0;
     data := new_Int8Array BLOCK_SIZE; fileSize := Some 8192 |}.
Definition db_block1 : FileBlock :=
  {| name := "/db"; index := 1; version := 0;
     data := replicate 4096 8; fileSize := None |}.
Definition db_file : OpenedFileEntry :=
  {| path := "/db"; flags := 262; block0 := db_block0;
     journalPages := None; changedPages := None;
     cachedPageIndex := None; cachedPageEntry := None |}.
Definition journal_file : OpenedFileEntry :=
  {| path := "/db-journal"; flags := 2054;
     block0 := {| name := "/db-journal"; index := 0; version := 0;
                  data := new_Int8Array BLOCK_SIZE; fileSize := Some 0 |};
     journalPages := None; changedPages := None;
     cachedPageIndex := None; cachedPageEntry := None |}.
Definition opened : IndexedDbVFS :=
  {| options := DEFAULT_OPTIONS;
     mapIdToFile := {[ 1 := 0%nat; 2 := 1%nat ]};
     mapPathToFile := {[ "/db" := 0%nat; "/db-journal" := 1%nat ]};
     objects := {[ 0%nat := db_file; 1%nat := journal_file ]};
     blocks := [SBlock db_block0; SBlock db_block1];
     trace := [];
     pendingPurges := ∅; idleTasks := [];
     this_cachedPageIndex := None; this_cachedPageEntry := None |}.

(** A database [/new] that was just created: one empty block 0. *)
Definition new_block0 : FileBlock :=
  {| name := "/new"; index := 0; version := 0;
     data := new_Int8Array BLOCK_SIZE; fileSize := Some 0 |}.
Definition new_file : OpenedFileEntry :=
  {| path := "/new"; flags := 262; block0 := new_block0;
     journalPages := None; changedPages := None;
     cachedPageIndex := None; cachedPageEntry := None |}.
Definition created : IndexedDbVFS :=
  {| options := DEFAULT_OPTIONS;
     mapIdToFile := {[ 1 := 0%nat ]};
     mapPathToFile := {[ "/new" := 0%nat ]};
     objects := {[ 0%nat := new_file ]};
     blocks := [SBlock new_block0];
     trace := [];
     pendingPurges := ∅; idleTasks := [];
     this_cachedPageIndex := None; this_cachedPageEntry := None |}.

(** A journal header: magic, page count, nonce 5, database size,
    sector size 4096, page size 4096. *)
Definition header : Int8Array :=
  [-39; -43; 5; -7; 32; -95; 99; -41;  0; 0; 0; 0;  0; 0; 0; 5;
   0; 0; 0; 2;  0; 0; 16; 0;  0; 0; 16; 0].

(** A transaction on [/db]: the journal header is written, page 2
    (block 1) is journalled, then block 1 is overwritten. *)
Definition begun : IndexedDbVFS :=
  fst (xWrite opened 2 (mkPData 28 header) 0).
Definition journalled : IndexedDbVFS :=
  fst (xWrite begun 2 (mkPData 4 [0; 0; 0; 2]) 4096).
Definition written : IndexedDbVFS :=
  fst (xWrite journalled 1 (mkPData 4096 (replicate 4096 9)) 4096).

(** The entries of the two files in that state, and the state after
    the [xSync] that commits the transaction. *)
Definition written_db_file : OpenedFileEntry :=
  default db_file (snd <$> file_of_id written 1).
Definition written_journal_file : OpenedFileEntry :=
  default journal_file (snd <$> file_of_id written 2).
Definition synced : IndexedDbVFS := fst (xSync written 1 0).

(** The store left behind when that transaction is abandoned before
    its [xSync], seen by a connection that opens the files anew. *)
Definition reopened : IndexedDbVFS := with_store (blocks written) [] opened.

(** The entries of the two files after the write of the journal
    header. *)
Definition begun_db_file : OpenedFileEntry :=
  default db_file (snd <$> file_of_id begun 1).
Definition begun_journal_file : OpenedFileEntry :=
  default journal_file (snd <$> file_of_id begun 2).

(** Block 1 as the transaction wrote it, at version -1, and the purge
    record that its [xSync] leaves. *)
Definition written_block1 : FileBlock :=
  {| name := "/db"; index := 1; version := -1;
     data := replicate (Z.to_nat 4096) 9; fileSize := None |}.
Definition synced_purge : PurgeBlock :=
  {| purge_name := "/db"; purge_version := 0; purge_data := {[ 1 := -1 ]} |}.


(** The journal header written a second time, with no [xSync] in
    between, and the entry of the database file afterwards. *)
Definition begun_twice : IndexedDbVFS :=
  fst (xWrite begun 2 (mkPData 28 header) 0).
Definition begun_twice_db_file : OpenedFileEntry :=
  default db_file (snd <$> file_of_id begun_twice 1).


(** A connection that opened the files at version 0, after another
    connection has committed version -1: its entries are those of
    [opened], the store is the one that the commit left. Its reads do
    not move the cached block 0. *)
Definition stale : IndexedDbVFS := with_store (blocks synced) [] opened.

(** The connection of [reopened] after it opened [/db] a second time, as
    file 3, and closed that file: file 1 is still open, the path is no
    longer in the map of the paths. *)
Definition unregistered : IndexedDbVFS :=
  fst (xClose (default reopened (fst (xOpen reopened (Some "/db") 3 262))) 3).

(** The state [written] of a VFS that schedules a purge as soon as one
    page is obsolete, and the state after its [xSync]. *)
Definition eager_written : IndexedDbVFS :=
  {| options := {| durability := DurDefault; purge_mode := PurgeDeferred;
                   purgeAtLeast := 1 |};
     mapIdToFile := mapIdToFile written;
     mapPathToFile := mapPathToFile written;
     objects := objects written;
     blocks := blocks written;
     trace := trace written;
     pendingPurges := pendingPurges written;
     idleTasks := idleTasks written;
     this_cachedPageIndex := this_cachedPageIndex written;
     this_cachedPageEntry := this_cachedPageEntry written |}.
Definition scheduled : IndexedDbVFS := fst (xSync eager_written 1 0).

End Example.

(** * Properties *)

(** ** Keys and the object store *)

Lemma string_compare_refl (s : string) : String.compare s s = Eq.
Proof.
  pose proof (String.compare_antisym s s) as H.
  destruct (String.compare s s); simpl in H; congruence.
Qed.

Lemma keypart_cmp_refl (a : keypart) : keypart_cmp a a = Eq.
Proof.
  destruct a; simpl; auto using Z.compare_refl, string_compare_refl.
Qed.

Lemma keypart_cmp_eq (a b : keypart) : keypart_cmp a b = Eq -> a = b.
Proof.
  destruct a, b; simpl; try discriminate; auto.
  - intros H. apply Z.compare_eq in H. congruence.
  - intros H. apply String.compare_eq_iff in H. congruence.
Qed.

Lemma keypart_cmp_antisym (a b : keypart) :
  keypart_cmp a b = CompOpp (keypart_cmp b a).
Proof.
  destruct a, b; simpl; try done.
  - apply Z.compare_antisym.
  - apply String.compare_antisym.
Qed.

Lemma key_cmp_refl (k : idbkey) : key_cmp k k = Eq.
Proof.
  induction k as [|a k IH]; simpl; [done|].
  by rewrite keypart_cmp_refl.
Qed.

Lemma key_cmp_eq (k k' : idbkey) : key_cmp k k' = Eq -> k = k'.
Proof.
  revert k'. induction k as [|a k IH]; intros [|b k']; simpl; try done.
  destruct (keypart_cmp a b) eqn:E; try done.
  intros H. apply keypart_cmp_eq in E. apply IH in H. congruence.
Qed.

Lemma key_cmp_antisym (k k' : idbkey) : key_cmp k k' = CompOpp (key_cmp k' k).
Proof.
  revert k'. induction k as [|a k IH]; intros [|b k']; simpl; try done.
  rewrite (keypart_cmp_antisym a b).
  destruct (keypart_cmp b a); simpl; auto.
Qed.

Lemma includes_only (k k' : idbkey) : includes (only k) k' = true <-> k' = k.
Proof.
  unfold includes, only; simpl. split.
  - rewrite (key_cmp_antisym k' k).
    destruct (key_cmp k k') eqn:E; simpl; try done.
    intros _. symmetry. by apply key_cmp_eq.
  - intros ->. by rewrite key_cmp_refl.
Qed.

Lemma includes_only_ne (k k' : idbkey) : k' <> k -> includes (only k) k' = false.
Proof.
  intros Hne. destruct (includes (only k) k') eqn:I; [|done].
  by apply includes_only in I.
Qed.

Lemma store_get_in (rg : IDBKeyRange) (s : objectStore) (x : stored) :
  store_get rg s = Some x -> x ∈ s /\ includes rg (key_of x) = true.
Proof.
  unfold store_get. induction s as [|y s IH]; simpl; [done|].
  destruct (includes rg (key_of y)) eqn:E; simpl.
  - intros [= ->]. split; [left | done].
  - intros H. destruct (IH H). split; [by right | done].
Qed.

Lemma store_get_only_key (k : idbkey) (s : objectStore) (x : stored) :
  store_get (only k) s = Some x -> key_of x = k.
Proof. intros H. apply store_get_in in H as [_ H]. by apply includes_only. Qed.

Lemma store_get_put_same (r : stored) (s : objectStore) :
  store_get (only (key_of r)) (store_put r s) = Some r.
Proof.
  unfold store_get. induction s as [|x s IH]; simpl.
  - by rewrite (proj2 (includes_only _ _) eq_refl).
  - destruct (key_cmp (key_of r) (key_of x)) eqn:E; simpl.
    + by rewrite (proj2 (includes_only _ _) eq_refl).
    + by rewrite (proj2 (includes_only _ _) eq_refl).
    + destruct (includes (only (key_of r)) (key_of x)) eqn:I; [|done].
      apply includes_only in I. rewrite I, key_cmp_refl in E. done.
Qed.

Lemma store_get_put_other (r : stored) (k : idbkey) (s : objectStore) :
  key_of r <> k ->
  store_get (only k) (store_put r s) = store_get (only k) s.
Proof.
  intros Hne. unfold store_get.
  pose proof (includes_only_ne k (key_of r) Hne) as Hr.
  induction s as [|x s IH]; simpl.
  - by rewrite Hr.
  - destruct (key_cmp (key_of r) (key_of x)) eqn:E; simpl.
    + rewrite Hr. apply key_cmp_eq in E. by rewrite <- E, Hr.
    + by rewrite Hr.
    + destruct (includes (only k) (key_of x)); [done | apply IH].
Qed.

Lemma store_put_elem (r : stored) (s : objectStore) : r ∈ store_put r s.
Proof.
  induction s as [|y s IH]; simpl; [left|].
  destruct (key_cmp (key_of r) (key_of y)); [left | left | by right].
Qed.

Lemma store_put_keeps (r x : stored) (s : objectStore) :
  x ∈ s -> key_of x <> key_of r -> x ∈ store_put r s.
Proof.
  intros Hx Hne. induction s as [|y s IH]; simpl; [by apply elem_of_nil in Hx|].
  destruct (key_cmp (key_of r) (key_of y)) eqn:E.
  - apply key_cmp_eq in E. apply elem_of_cons in Hx as [->|Hx]; [congruence|].
    by right.
  - by right.
  - apply elem_of_cons in Hx as [->|Hx]; [left | right; auto].
Qed.

Lemma store_put_from (r x : stored) (s : objectStore) :
  x ∈ store_put r s -> x = r \/ x ∈ s.
Proof.
  induction s as [|y s IH]; simpl.
  - intros H. apply list_elem_of_singleton in H. by left.
  - destruct (key_cmp (key_of r) (key_of y)).
    + intros H. apply elem_of_cons in H as [->|H]; [by left|].
      right. by right.
    + intros H. apply elem_of_cons in H as [->|H]; [by left | by right].
    + intros H. apply elem_of_cons in H as [->|H]; [right; left|].
      destruct (IH H); [by left | right; by right].
Qed.

Lemma elem_of_filter_bool (f : stored -> bool) (s : list stored) (x : stored) :
  x ∈ List.filter f s <-> x ∈ s /\ f x = true.
Proof. rewrite !list_elem_of_In. apply filter_In. Qed.

Lemma elem_of_store_delete (rg : IDBKeyRange) (s : objectStore) (x : stored) :
  x ∈ store_delete rg s <-> x ∈ s /\ includes rg (key_of x) = false.
Proof.
  unfold store_delete. rewrite elem_of_filter_bool.
  by rewrite negb_true_iff.
Qed.

(** ** The order of the store *)

Lemma ascii_compare_trans (a b c : ascii) :
  Ascii.compare a b = Lt -> Ascii.compare b c = Lt -> Ascii.compare a c = Lt.
Proof.
  unfold Ascii.compare. rewrite !N.compare_lt_iff. apply N.lt_trans.
Qed.

Lemma string_compare_trans (s1 s2 s3 : string) :
  String.compare s1 s2 = Lt -> String.compare s2 s3 = Lt ->
  String.compare s1 s3 = Lt.
Proof.
  revert s2 s3. induction s1 as [|a s1 IH]; intros [|b s2] [|c s3];
    simpl; try done.
  destruct (Ascii.compare a b) eqn:Eab; try done;
    destruct (Ascii.compare b c) eqn:Ebc; try done.
  - apply Ascii.compare_eq_iff in Eab, Ebc. subst.
    assert (Ascii.compare c c = Eq) as -> by apply N.compare_refl.
    apply IH.
  - apply Ascii.compare_eq_iff in Eab. subst. by rewrite Ebc.
  - apply Ascii.compare_eq_iff in Ebc. subst. by rewrite Eab.
  - by rewrite (ascii_compare_trans _ _ _ Eab Ebc).
Qed.

Lemma keypart_cmp_trans (a b c : keypart) :
  keypart_cmp a b = Lt -> keypart_cmp b c = Lt -> keypart_cmp a c = Lt.
Proof.
  destruct a, b, c; simpl; try done.
  - rewrite !Z.compare_lt_iff. apply Z.lt_trans.
  - apply string_compare_trans.
Qed.

Lemma key_cmp_trans (a b c : idbkey) :
  key_cmp a b = Lt -> key_cmp b c = Lt -> key_cmp a c = Lt.
Proof.
  revert b c. induction a as [|x a IH]; intros [|y b] [|z c]; simpl; try done.
  destruct (keypart_cmp x y) eqn:Exy; try done;
    destruct (keypart_cmp y z) eqn:Eyz; try done.
  - apply keypart_cmp_eq in Exy, Eyz. subst.
    rewrite keypart_cmp_refl. apply IH.
  - apply keypart_cmp_eq in Exy. subst. by rewrite Eyz.
  - apply keypart_cmp_eq in Eyz. subst. by rewrite Exy.
  - by rewrite (keypart_cmp_trans _ _ _ Exy Eyz).
Qed.

Lemma key_lt_trans (x y z : stored) : key_lt x y -> key_lt y z -> key_lt x z.
Proof. apply key_cmp_trans. Qed.

(** [put] keeps the store in ascending key order, without duplicate
    keys. *)
Lemma store_put_sorted (r : stored) (s : objectStore) :
  store_sorted s -> store_sorted (store_put r s).
Proof.
  unfold store_sorted. induction 1 as [|x s Hs IH Hx]; simpl.
  - repeat constructor.
  - destruct (key_cmp (key_of r) (key_of x)) eqn:E.
    + apply key_cmp_eq in E. constructor; [done|].
      eapply Forall_impl; [exact Hx|]. intros y Hy.
      unfold key_lt in *. by rewrite E.
    + constructor; [by constructor|].
      constructor; [exact E|].
      eapply Forall_impl; [exact Hx|]. intros y Hy.
      by apply (key_lt_trans r x y).
    + constructor; [exact IH|].
      apply Forall_forall. intros y Hy.
      apply store_put_from in Hy as [->|Hy].
      * unfold key_lt. by rewrite key_cmp_antisym, E.
      * by apply (proj1 (Forall_forall _ _) Hx).
Qed.

Lemma filter_sorted (f : stored -> bool) (s : objectStore) :
  store_sorted s -> store_sorted (List.filter f s).
Proof.
  unfold store_sorted. induction 1 as [|x s Hs IH Hx]; simpl; [constructor|].
  destruct (f x); [|done]. constructor; [done|].
  apply Forall_forall. intros y Hy. apply elem_of_filter_bool in Hy as [Hy _].
  by apply (proj1 (Forall_forall _ _) Hx).
Qed.

Lemma store_delete_sorted (rg : IDBKeyRange) (s : objectStore) :
  store_sorted s -> store_sorted (store_delete rg s).
Proof. apply filter_sorted. Qed.

(** On a sorted store, [get] returns the record with the least key in
    the range. *)
Lemma store_get_least (rg : IDBKeyRange) (s : objectStore) (x y : stored) :
  store_sorted s ->
  store_get rg s = Some x ->
  y ∈ s -> includes rg (key_of y) = true ->
  y = x \/ key_lt x y.
Proof.
  unfold store_sorted, store_get.
  induction 1 as [|z s Hs IH Hz]; simpl; [done|].
  intros Hget Hy Hin. apply elem_of_cons in Hy as [->|Hy].
  - rewrite Hin in Hget. left. by injection Hget.
  - destruct (includes rg (key_of z)).
    + injection Hget as <-. right.
      by apply (proj1 (Forall_forall _ _) Hz).
    + by apply IH.
Qed.

(** No two records of a sorted store have the same key. *)
Lemma store_sorted_key_inj (s : objectStore) (x y : stored) :
  store_sorted s -> x ∈ s -> y ∈ s -> key_of x = key_of y -> x = y.
Proof.
  unfold store_sorted. induction 1 as [|z s Hs IH Hz]; [by intros H; apply elem_of_nil in H|].
  intros Hx Hy Hk.
  apply elem_of_cons in Hx as [->|Hx]; apply elem_of_cons in Hy as [->|Hy];
    try done.
  - apply (proj1 (Forall_forall _ _) Hz) in Hy. unfold key_lt in Hy.
    by rewrite Hk, key_cmp_refl in Hy.
  - apply (proj1 (Forall_forall _ _) Hz) in Hx. unfold key_lt in Hx.
    by rewrite <- Hk, key_cmp_refl in Hx.
  - by apply IH.
Qed.

(** ** xClose *)

Lemma xClose_no_file (st : IndexedDbVFS) (fileId : Z) :
  file_of_id st fileId = None -> xClose st fileId = (st, Return SQLITE_OK).
Proof. intros H. unfold xClose. by rewrite H. Qed.

Lemma xClose_no_entry (st : IndexedDbVFS) (fileId : Z) :
  mapIdToFile st !! fileId = None -> xClose st fileId = (st, Return SQLITE_OK).
Proof. intros H. apply xClose_no_file. unfold file_of_id. by rewrite H. Qed.

Lemma xClose_removes_id (st : IndexedDbVFS) (fileId : Z) (rf : nat * OpenedFileEntry) :
  file_of_id st fileId = Some rf ->
  mapIdToFile (fst (xClose st fileId)) !! fileId = None.
Proof.
  intros H. unfold xClose. rewrite H. destruct rf as [r file].
  destruct (negb _); simpl; apply lookup_delete_eq.
Qed.

(** C10. Closing a file id that has no opened-file entry returns OK and
    leaves the whole state (both maps, the entries and every record of the
    store) as it was; in particular a second [xClose] of the same id
    changes nothing. *)
Theorem xClose_without_entry (st : IndexedDbVFS) (fileId : Z) :
  (mapIdToFile st !! fileId = None ->
   xClose st fileId = (st, Return SQLITE_OK))
  /\ xClose (fst (xClose st fileId)) fileId
     = (fst (xClose st fileId), Return SQLITE_OK).
Proof.
  split; [apply xClose_no_entry|].
  destruct (file_of_id st fileId) as [rf|] eqn:E.
  - by eapply xClose_no_entry, xClose_removes_id.
  - rewrite (xClose_no_file st fileId E). simpl. by apply xClose_no_file.
Qed.

Lemma xClose_without_entry_witness :
  mapIdToFile Example.opened !! 7 = None
  /\ xClose Example.opened 7 = (Example.opened, Return SQLITE_OK).
Proof.
  split; [reflexivity|].
  apply (proj1 (xClose_without_entry Example.opened 7)). reflexivity.
Defined.

(** ** xSync *)

Lemma maybePurge_store (p : string) (n : Z) (st : IndexedDbVFS) :
  blocks (maybePurge p n st) = blocks st
  /\ trace (maybePurge p n st) = trace st
  /\ options (maybePurge p n st) = options st
  /\ objects (maybePurge p n st) = objects st.
Proof. unfold maybePurge. by destruct (_ || _). Qed.

Lemma mark_obsolete_lookup (changed : gset Z) (v : Z) (m : gmap Z Z)
  (p : option Z) (i : Z) :
  mark_obsolete changed v m p !! i
  = if bool_decide (p = Some i /\ i ∈ changed) then Some v else m !! i.
Proof.
  unfold mark_obsolete. destruct p as [q|].
  - destruct (decide (q ∈ changed)) as [Hq|Hq].
    + rewrite (bool_decide_eq_true_2 _ Hq).
      destruct (decide (q = i)) as [->|Hne].
      * by rewrite lookup_insert_eq, bool_decide_eq_true_2.
      * rewrite lookup_insert_ne by done.
        rewrite bool_decide_eq_false_2; [done|]. intros [[=] _]. done.
    + rewrite (bool_decide_eq_false_2 _ Hq).
      rewrite bool_decide_eq_false_2; [done|]. intros [[= ->] ?]. done.
  - by rewrite bool_decide_eq_false_2 by (by intros [? _]).
Qed.

Lemma foldl_mark_obsolete_lookup (changed : gset Z) (v : Z)
  (pages : list (option Z)) (m : gmap Z Z) (i : Z) :
  foldl (mark_obsolete changed v) m pages !! i
  = if bool_decide (Some i ∈ pages /\ i ∈ changed) then Some v else m !! i.
Proof.
  revert m. induction pages as [|p pages IH]; intros m; cbn [foldl].
  - rewrite bool_decide_eq_false_2; [done|].
    intros [H _]. by apply elem_of_nil in H.
  - rewrite IH, mark_obsolete_lookup.
    rewrite (bool_decide_ext (Some i ∈ p :: pages /\ i ∈ changed)
               ((Some i ∈ pages /\ i ∈ changed)
                \/ (p = Some i /\ i ∈ changed)))
      by (rewrite elem_of_cons; intuition congruence).
    repeat case_bool_decide; tauto.
Qed.

Lemma idb_get_purge_key (p : string) (st : IndexedDbVFS) (pb : PurgeBlock) :
  idb_get_purge p st = Some pb -> key_of (SPurge pb) = purge_key p.
Proof.
  unfold idb_get_purge.
  destruct (store_get _ _) as [[b|q]|] eqn:E; try done.
  intros [= ->]. by apply store_get_only_key in E.
Qed.

Lemma purge_record_or_new_key (p : string) (st : IndexedDbVFS) :
  key_of (SPurge (purge_record_or_new p st)) = purge_key p.
Proof.
  unfold purge_record_or_new.
  destruct (idb_get_purge p st) as [pb|] eqn:E; simpl; [|done].
  by apply idb_get_purge_key in E.
Qed.

Lemma block_key_not_purge_key (b : FileBlock) (p : string) :
  key_of (SBlock b) <> purge_key p.
Proof. done. Qed.

Lemma purge_record_after_put (p : string) (b : FileBlock) (st : IndexedDbVFS) :
  purge_record_or_new p (idb_put (SBlock b) st) = purge_record_or_new p st.
Proof.
  unfold purge_record_or_new, idb_get_purge, idb_put; simpl.
  by rewrite store_get_put_other by apply block_key_not_purge_key.
Qed.

Lemma xSync_callback_no_transaction (file : OpenedFileEntry) (st : IndexedDbVFS) :
  changedPages file = None ->
  xSync_callback file st = idb_put (SBlock (block0 file)) st.
Proof. intros H. unfold xSync_callback. by rewrite H. Qed.

(** The purge record that the callback of [xSync] writes at the end of a
    transaction. *)
Lemma xSync_callback_transaction (file : OpenedFileEntry) (st : IndexedDbVFS)
  (changed : gset Z) (pages : list (option Z)) :
  changedPages file = Some changed ->
  journalPages file = Some pages ->
  exists pb,
    blocks (xSync_callback file st)
    = store_put (SPurge pb) (store_put (SBlock (block0 file)) (blocks st))
    /\ trace (xSync_callback file st)
       = trace st ++ [EvPut (SBlock (block0 file)); EvPut (SPurge pb)]
    /\ options (xSync_callback file st) = options st
    /\ key_of (SPurge pb) = purge_key (path file)
    /\ forall i,
         purge_data pb !! i
         = if bool_decide (Some i ∈ pages /\ i ∈ changed)
           then Some (version (block0 file))
           else purge_data (purge_record_or_new (path file) st) !! i.
Proof.
  intros Hc Hj. unfold xSync_callback. rewrite Hc, Hj.
  rewrite purge_record_after_put. cbv zeta.
  match goal with
  | |- context [maybePurge ?p ?n ?s] =>
      destruct (maybePurge_store p n s) as (Hb & Ht & Ho & _)
  end.
  eexists.
  rewrite Hb, Ht, Ho. simpl.
  split; [reflexivity|]. split; [by rewrite <- app_assoc|].
  split; [done|]. split; [apply (purge_record_or_new_key (path file) st)|].
  intros i. apply foldl_mark_obsolete_lookup.
Qed.



(** ** Typed arrays *)

Lemma subarray_prefix (a : Int8Array) (n : Z) :
  0 <= n -> subarray a 0 n = take (Z.to_nat n) a.
Proof.
  intros Hn. unfold subarray, relative_index, byteLength. simpl.
  destruct (Z.ltb_spec n 0); [exfalso; lia|].
  rewrite (Z.min_l 0) by lia. rewrite drop_0, Z.sub_0_r.
  destruct (decide (n <= Z.of_nat (length a))).
  - by rewrite Z.min_l by lia.
  - rewrite Z.min_r by lia. rewrite Nat2Z.id.
    by rewrite !take_ge by lia.
Qed.

(** The copy of the incoming bytes into the journal header: they
    replace the beginning of the header, cut at the header's length. *)
Lemma header_copy (header src : Int8Array) :
  ta_set header (subarray src 0 (byteLength header)) 0
  = Some (take (length header) src ++ drop (length src) header).
Proof.
  unfold byteLength. rewrite subarray_prefix by lia. rewrite Nat2Z.id.
  unfold ta_set, byteLength. rewrite length_take.
  simpl.
  match goal with
  | |- context [?x <? ?y] => destruct (Z.ltb_spec x y); [exfalso; lia|]
  end.
  f_equal. f_equal.
  destruct (decide (length src <= length header)%nat).
  - by rewrite Nat.min_r by lia.
  - rewrite Nat.min_l by lia. by rewrite !drop_ge by lia.
Qed.

Lemma header_copy_first (header src : Int8Array) (b : Z) :
  (0 < length header)%nat ->
  ta_get src 0 = Some b ->
  ta_get (take (length header) src ++ drop (length src) header) 0 = Some b.
Proof.
  intros Hh Hb. unfold ta_get in *. simpl in *.
  destruct src as [|x src]; [done|]. simpl in Hb.
  destruct header as [|y header]; [simpl in Hh; lia|]. done.
Qed.

(** ** Writing the journal header *)

Lemma file_of_id_objects (st : IndexedDbVFS) (fileId : Z) (r : nat)
  (file : OpenedFileEntry) :
  file_of_id st fileId = Some (r, file) -> objects st !! r = Some file.
Proof.
  unfold file_of_id. destruct (mapIdToFile st !! fileId) as [r'|]; [|done].
  simpl. destruct (objects st !! r') as [f|] eqn:E; [|done].
  simpl. by intros [= <- <-].
Qed.

Lemma file_of_path_objects (st : IndexedDbVFS) (p : string) (r : nat)
  (file : OpenedFileEntry) :
  file_of_path st p = Some (r, file) ->
  mapPathToFile st !! p = Some r /\ objects st !! r = Some file.
Proof.
  unfold file_of_path. destruct (mapPathToFile st !! p) as [r'|]; [|done].
  simpl. destruct (objects st !! r') as [f|] eqn:E; [|done].
  simpl. by intros [= <- <-].
Qed.

(** C4, as the code has it. A write to a journal file at offset 0 whose
    first byte is non-zero, with the sibling database file open, returns
    OK, copies the incoming bytes to the beginning of the in-memory
    journal header, and leaves the database file with
    [journalPages = []], an empty [changedPages] and a block-0 version
    that is exactly one less than before. The store is untouched; so the
    new version is one less than the version of the newest committed
    block 0 if and only if the cached version was equal to that version
    before the write. *)
Theorem xWriteJournal_begins_transaction (st : IndexedDbVFS) (fileId : Z)
  (pData : PData) (r d : nat) (file dbFile : OpenedFileEntry) (b : Z) :
  file_of_id st fileId = Some (r, file) ->
  isJournal file = true ->
  file_of_path st (getJournalDatabasePath file) = Some (d, dbFile) ->
  (0 < length (data (block0 file)))%nat ->
  ta_get (pData_value pData) 0 = Some b ->
  b <> 0 ->
  exists st' file' dbFile',
    xWrite st fileId pData 0 = (st', Return SQLITE_OK)
    /\ objects st' !! r = Some file'
    /\ objects st' !! d = Some dbFile'
    /\ data (block0 file')
       = take (length (data (block0 file))) (pData_value pData)
         ++ drop (length (pData_value pData)) (data (block0 file))
    /\ journalPages dbFile' = Some []
    /\ changedPages dbFile' = Some ∅
    /\ version (block0 dbFile') = version (block0 dbFile) - 1
    /\ blocks st' = blocks st
    /\ forall committed,
         committed_block0 (getJournalDatabasePath file) (blocks st)
         = Some committed ->
         committed_block0 (getJournalDatabasePath file) (blocks st')
         = Some committed
         /\ (version (block0 dbFile') = version committed - 1
             <-> version (block0 dbFile) = version committed).
Proof.
  intros Hfile Hj Hdb Hlen Hb Hnz.
  pose proof (file_of_id_objects _ _ _ _ Hfile) as Hr.
  destruct (file_of_path_objects _ _ _ _ Hdb) as [Hpath Hd].
  unfold xWrite. rewrite Hfile, Hj. unfold xWriteJournal.
  rewrite Z.eqb_refl, header_copy, (header_copy_first _ _ b Hlen Hb), Hpath.
  destruct (Z.eqb_spec b 0); [done|]. cbn [negb].
  unfold modify_object. cbn [objects with_objects blocks].
  destruct (decide (r = d)) as [->|Hne].
  - assert (dbFile = file) as -> by congruence.
    eexists _, _, _. split; [reflexivity|].
    cbn [objects with_objects blocks].
    rewrite !lookup_alter_eq, Hd. cbn.
    repeat split; intros; simpl in *; try done; lia.
  - eexists _, _, _. split; [reflexivity|].
    cbn [objects with_objects blocks].
    rewrite lookup_alter_eq.
    rewrite (lookup_alter_ne _ _ d r) by done.
    rewrite (lookup_alter_ne _ _ r d) by done.
    rewrite !lookup_alter_eq.
    rewrite (lookup_alter_ne _ _ d r) by done.
    rewrite (lookup_alter_ne _ _ r d) by done.
    rewrite !lookup_alter_eq.
    rewrite (lookup_alter_ne _ _ r d) by done.
    rewrite Hr, Hd. cbn.
    repeat split; intros; simpl in *; try done; lia.
Qed.

(** C4: the journal header written a second time before any [xSync]
    (the first byte is non-zero, the database file is open) returns OK
    and takes the cached version of block 0 from -1 to -2, while the
    newest committed block 0 in the store still has version 0: the
    in-memory version is two less than the committed one. *)
Lemma xWriteJournal_not_below_committed :
  file_of_id Example.begun 2 = Some (1%nat, Example.begun_journal_file)
  /\ isJournal Example.begun_journal_file = true
  /\ file_of_path Example.begun
       (getJournalDatabasePath Example.begun_journal_file)
     = Some (0%nat, Example.begun_db_file)
  /\ ta_get Example.header 0 = Some (-39)
  /\ xWrite Example.begun 2 (mkPData 28 Example.header) 0
     = (Example.begun_twice, Return SQLITE_OK)
  /\ version (block0 Example.begun_twice_db_file) = -2
  /\ (version <$> committed_block0 "/db" (blocks Example.begun_twice))
     = Some 0
  /\ ~ begins_below_committed Example.begun 2 (mkPData 28 Example.header).
Proof.
  assert (H1 : file_of_id Example.begun 2
               = Some (1%nat, Example.begun_journal_file))
    by (vm_compute; reflexivity).
  split; [exact H1|].
  split; [vm_compute; reflexivity|]. split; [vm_compute; reflexivity|].
  split; [reflexivity|]. split; [vm_compute; reflexivity|].
  split; [vm_compute; reflexivity|]. split; [vm_compute; reflexivity|].
  intros H.
  specialize (H 1%nat Example.begun_journal_file 0%nat
                Example.begun_twice_db_file Example.db_block0 H1).
  assert (Hv : version (block0 Example.begun_twice_db_file)
               = version Example.db_block0 - 1).
  { apply H; vm_compute; reflexivity. }
  vm_compute in Hv. discriminate Hv.
Qed.

(** ** The checksum of a journal page *)

Lemma ToUint8_of_int8 (v : Z) :
  -128 <= v < 128 -> (if 0 <=? v then v else v + 256) = ToUint8 v.
Proof.
  intros Hv. unfold ToUint8.
  destruct (Z.leb_spec 0 v).
  - symmetry. apply Z.mod_small. lia.
  - rewrite <- (Z_mod_plus_full v 1 256). symmetry. apply Z.mod_small. lia.
Qed.

Lemma ToUint8_ToInt8 (z : Z) : ToUint8 (ToInt8 z) = z `mod` 256.
Proof.
  unfold ToUint8, ToInt8. Z.to_euclidean_division_equations. lia.
Qed.

Lemma uint32_bytes (u : Z) :
  0 <= u < 2 ^ 32 ->
  (u / 2 ^ 24) `mod` 256 * 2 ^ 24 + (u / 2 ^ 16) `mod` 256 * 2 ^ 16
  + (u / 2 ^ 8) `mod` 256 * 2 ^ 8 + u `mod` 256 = u.
Proof.
  intros Hu. change (2 ^ 32) with 4294967296 in Hu.
  change (2 ^ 24) with 16777216. change (2 ^ 16) with 65536.
  change (2 ^ 8) with 256.
  Z.to_euclidean_division_equations. lia.
Qed.

Lemma ta_set_length (a src a' : Int8Array) (off : Z) :
  ta_set a src off = Some a' -> length a' = length a.
Proof.
  unfold ta_set, byteLength.
  destruct (Z.ltb_spec off 0); [done|].
  destruct (Z.ltb_spec (Z.of_nat (length a)) (off + Z.of_nat (length src)));
    [done|].
  simpl. intros [= <-].
  rewrite !length_app, length_take, length_drop. lia.
Qed.

Lemma ta_set_drop (a src a' : Int8Array) (off : Z) :
  ta_set a src off = Some a' ->
  0 <= off /\ drop (Z.to_nat off) a' = src ++ drop (Z.to_nat off + length src) a.
Proof.
  unfold ta_set, byteLength.
  destruct (Z.ltb_spec off 0); [done|].
  destruct (Z.ltb_spec (Z.of_nat (length a)) (off + Z.of_nat (length src)));
    [done|].
  simpl. intros [= <-]. split; [done|].
  rewrite drop_app_length'; [done|]. rewrite length_take. lia.
Qed.

Lemma ta_set_fits (a src a' : Int8Array) (off : Z) :
  ta_set a src off = Some a' ->
  off + Z.of_nat (length src) <= Z.of_nat (length a).
Proof.
  unfold ta_set, byteLength.
  destruct (Z.ltb_spec off 0); [done|].
  by destruct (Z.ltb_spec (Z.of_nat (length a)) (off + Z.of_nat (length src))).
Qed.

(** Reading back what [setUint32] stored gives the low 32 bits. *)
Lemma getUint32_setUint32 (a a' : Int8Array) (off : Z) (v : jsnum) :
  setUint32 a off v = Some a' ->
  getUint32 a' off = Some (match v with Some z => ToUint32 z | None => 0 end).
Proof.
  unfold setUint32. intros H.
  pose proof (ta_set_length _ _ _ _ H) as Hlen.
  pose proof (ta_set_fits _ _ _ _ H) as Hfit.
  destruct (ta_set_drop _ _ _ _ H) as [Hoff Hdrop].
  unfold getUint32, byteLength. rewrite Hlen, Hdrop.
  simpl in Hfit.
  destruct (Z.ltb_spec off 0); [exfalso; lia|].
  destruct (Z.ltb_spec (Z.of_nat (length a)) (off + 4)); [exfalso; lia|].
  simpl. rewrite !ToUint8_ToInt8. f_equal.
  apply uint32_bytes.
  destruct v as [z|]; [apply Z.mod_pos_bound|]; done.
Qed.

Lemma checksum_term (d : Int8Array) (x : Z) :
  int8_values d -> 0 <= x < byteLength d ->
  match ta_get d x with
  | Some v => Some (if 0 <=? v then v else v + 256)
  | None => None
  end = Some (ToUint8 (default 0 (ta_get d x))).
Proof.
  intros Hd Hx. unfold ta_get, byteLength in *.
  destruct (Z.ltb_spec x 0); [exfalso; lia|].
  destruct (d !! Z.to_nat x) as [v|] eqn:E.
  - simpl. f_equal. apply ToUint8_of_int8.
    eapply Forall_lookup_1 in Hd; eauto.
  - apply lookup_ge_None in E. lia.
Qed.

(** The loop of [#checksum] from position [x] makes [m] steps when
    [x <= 200 * m] and, for a positive [m], [200 * (m - 1) < x]; it adds
    the unsigned bytes at [x], [x - 200], ... *)
Lemma checksum_loop_sum (d : Int8Array) (m : nat) :
  int8_values d ->
  forall (fuel : nat) (acc x : Z),
    (m <= fuel)%nat ->
    x < byteLength d ->
    x <= 200 * Z.of_nat m ->
    ((0 < m)%nat -> 200 * (Z.of_nat m - 1) < x) ->
    checksum_loop fuel d (Some acc) x
    = Some (Some (acc + foldr Z.add 0
                    ((fun k => ToUint8 (default 0
                                 (ta_get d (x - 200 * Z.of_nat k))))
                     <$> seq 0 m))).
Proof.
  intros Hd. induction m as [|m IH]; intros fuel acc x Hfuel Hlen Hx Hx'.
  - destruct fuel; simpl; destruct (Z.ltb_spec 0 x); try (exfalso; lia);
      by rewrite Z.add_0_r.
  - destruct fuel as [|fuel]; [lia|]. simpl.
    destruct (Z.ltb_spec 0 x); [|exfalso; lia].
    rewrite checksum_term by (done || lia). cbn [num_add].
    rewrite IH by lia. do 2 f_equal.
    rewrite Z.mul_0_r, Z.sub_0_r, <- Z.add_assoc. f_equal. f_equal.
    rewrite <- fmap_S_seq, <- list_fmap_compose. f_equal.
    apply list_fmap_ext. intros _ k _. simpl. do 3 f_equal. lia.
Qed.

(** [#checksum] ends and returns the nonce plus the sum of the unsigned
    bytes at [pageSize - 200], [pageSize - 400], ... above position 0. *)
Lemma checksum_correct (d : Int8Array) (nonce pageSize : Z) :
  int8_values d ->
  pageSize <= byteLength d ->
  checksum d nonce pageSize = Some (Some (nonce + checksum_sum d pageSize)).
Proof.
  intros Hd Hlen. unfold checksum, checksum_sum, checksum_positions.
  rewrite (checksum_loop_sum d (Z.to_nat ((pageSize - 1) `div` 200)) Hd).
  - do 3 f_equal.
    rewrite <- fmap_S_seq, <- !list_fmap_compose. f_equal.
    apply list_fmap_ext. intros _ k _. simpl. do 3 f_equal. lia.
  - Z.to_euclidean_division_equations; lia.
  - lia.
  - Z.to_euclidean_division_equations; lia.
  - Z.to_euclidean_division_equations; lia.
Qed.

Lemma ta_set_Some (a src : Int8Array) (off : Z) :
  0 <= off -> off + Z.of_nat (length src) <= Z.of_nat (length a) ->
  exists a', ta_set a src off = Some a'.
Proof.
  intros H0 H1. unfold ta_set, byteLength.
  destruct (Z.ltb_spec off 0); [exfalso; lia|].
  destruct (Z.ltb_spec (Z.of_nat (length a)) (off + Z.of_nat (length src)));
    [exfalso; lia|].
  by eexists.
Qed.

Lemma setUint32_Some (a : Int8Array) (off : Z) (v : jsnum) :
  0 <= off -> off + 4 <= Z.of_nat (length a) ->
  exists a', setUint32 a off v = Some a'.
Proof. intros H0 H1. unfold setUint32. apply ta_set_Some; simpl; lia. Qed.

Lemma setUint32_length (a a' : Int8Array) (off : Z) (v : jsnum) :
  setUint32 a off v = Some a' -> length a' = length a.
Proof. unfold setUint32. apply ta_set_length. Qed.

(** C7. [#checksum] returns the nonce plus the sum of the page bytes,
    read as unsigned values, at the positions [pageSize - 200],
    [pageSize - 400], ... that are strictly above 0; and the checksum
    field of a rebuilt journal page entry (its last four bytes) holds the
    low 32 bits of that number. *)
Theorem journal_entry_checksum (d : Int8Array) (nonce pageSize : Z) :
  int8_values d ->
  pageSize <= byteLength d ->
  checksum d nonce pageSize = Some (Some (nonce + checksum_sum d pageSize))
  /\ forall (st : IndexedDbVFS) (header : Int8Array) (dbPath : string)
       (dbFile : OpenedFileEntry) (b : FileBlock) (pageIndex : Z),
       getUint32 header 12 = Some nonce ->
       idb_get_block
         (older_range dbPath pageIndex (version (block0 dbFile))) st
       = Some b ->
       data b = d ->
       byteLength (data (block0 dbFile)) = pageSize ->
       byteLength d = pageSize ->
       exists st' entry,
         build_page_entry st header dbPath dbFile (pageSize + 8) pageIndex
         = (st', None)
         /\ this_cachedPageEntry st' = Some entry
         /\ getUint32 entry (pageSize + 8 - 4)
            = Some (ToUint32 (nonce + checksum_sum d pageSize)).
Proof.
  intros Hd Hlen. split; [by apply checksum_correct|].
  intros st header dbPath dbFile b pageIndex Hnonce Hblock Hdata Hps Hdlen.
  unfold build_page_entry. rewrite Hnonce, Hblock, Hdata, Hps.
  assert (Hnew : Z.of_nat (length (new_Int8Array (pageSize + 8)))
                 = pageSize + 8).
  { unfold new_Int8Array. rewrite length_replicate.
    unfold byteLength in Hdlen. lia. }
  unfold byteLength in Hdlen.
  destruct (setUint32_Some (new_Int8Array (pageSize + 8)) 0
              (Some (pageIndex + 1))) as [e1 He1]; [lia | lia |].
  rewrite He1. pose proof (setUint32_length _ _ _ _ He1) as Hl1.
  destruct (ta_set_Some e1 d 4) as [e2 He2]; [lia | lia |].
  rewrite He2. pose proof (ta_set_length _ _ _ _ He2) as Hl2.
  rewrite (checksum_correct d nonce pageSize Hd Hlen).
  destruct (setUint32_Some e2 (pageSize + 8 - 4)
              (Some (nonce + checksum_sum d pageSize))) as [e3 He3];
    [lia | lia |].
  rewrite He3. eexists _, e3. split; [reflexivity|]. split; [reflexivity|].
  apply (getUint32_setUint32 _ _ _ _ He3).
Qed.

(** ** The sweep of xLock *)

Lemma elem_of_version_index_insert (r x : stored) (l : list stored) :
  x ∈ version_index_insert r l <-> x = r \/ x ∈ l.
Proof.
  induction l as [|y l IH]; simpl.
  - rewrite list_elem_of_singleton, elem_of_nil. tauto.
  - destruct (key_cmp (version_key_of r) (version_key_of y));
      rewrite ?elem_of_cons, ?IH; tauto.
Qed.

Lemma elem_of_version_index (s : objectStore) (x : stored) :
  x ∈ version_index s <-> x ∈ s.
Proof.
  unfold version_index. induction s as [|y s IH]; simpl; [done|].
  rewrite elem_of_version_index_insert, elem_of_cons, IH. tauto.
Qed.

(** The range [[dbPath] .. [dbPath, v])] of the index ['version'] holds
    the records of [dbPath] with a version below [v]. *)
Lemma sweep_range_includes (p : string) (v : Z) (x : stored) :
  includes (bound [KStr p] [KStr p; KNum v] false true) (version_key_of x)
  = true
  <-> stored_name x = p /\ stored_version x < v.
Proof.
  assert (H : forall n w,
    includes (bound [KStr p] [KStr p; KNum v] false true) [KStr n; KNum w]
    = true <-> n = p /\ w < v).
  { intros n w. unfold includes. simpl.
    rewrite (String.compare_antisym n p).
    destruct (String.compare p n) eqn:E; simpl.
    - apply String.compare_eq_iff in E. subst n.
      destruct (Z.compare_spec w v); simpl.
      + split; [done|]. intros [_ ?]. lia.
      + split; [|done]. intros _. by split.
      + split; [done|]. intros [_ ?]. lia.
    - split; [done|]. intros [-> _].
      by rewrite string_compare_refl in E.
    - split; [done|]. intros [-> _].
      by rewrite string_compare_refl in E. }
  destruct x as [b|q]; apply H.
Qed.

Lemma key_of_name_version (x y : stored) :
  key_of x = key_of y ->
  stored_name x = stored_name y /\ stored_version x = stored_version y.
Proof. destruct x, y; simpl; intros [=]; auto. Qed.

Lemma delete_keys_blocks (keys : list idbkey) (st : IndexedDbVFS) (x : stored) :
  x ∈ blocks (foldl (fun st' key => idb_delete (only key) st') st keys)
  <-> x ∈ blocks st /\ key_of x ∉ keys.
Proof.
  revert st. induction keys as [|k keys IH]; intros st; simpl.
  - rewrite elem_of_nil. tauto.
  - rewrite IH. unfold idb_delete. simpl.
    rewrite elem_of_store_delete, not_elem_of_cons.
    split.
    + intros [[Hx Hk] Hn]. repeat split; try done.
      intros Heq. rewrite Heq in Hk.
      by rewrite (proj2 (includes_only k k) eq_refl) in Hk.
    + intros [Hx [Hne Hn]]. repeat split; try done.
      by apply includes_only_ne.
Qed.

Lemma delete_keys_frame (keys : list idbkey) (st : IndexedDbVFS) :
  let st' := foldl (fun st' key => idb_delete (only key) st') st keys in
  objects st' = objects st /\ mapIdToFile st' = mapIdToFile st
  /\ mapPathToFile st' = mapPathToFile st /\ options st' = options st.
Proof.
  revert st. induction keys as [|k keys IH]; intros st; simpl; [done|].
  destruct (IH (idb_delete (only k) st)) as (-> & -> & -> & ->). done.
Qed.

(** What the sweep removes, for the database entry registered under
    [dbPath]. *)
Lemma xLock_sweep_blocks (st : IndexedDbVFS) (file dbFile : OpenedFileEntry)
  (d : nat) (x : stored) :
  file_of_path st (getJournalDatabasePath file) = Some (d, dbFile) ->
  x ∈ blocks (xLock_sweep file st)
  <-> x ∈ blocks st
      /\ ~ (stored_name x = getJournalDatabasePath file
            /\ stored_version x < version (block0 dbFile)).
Proof.
  intros Hdb. unfold xLock_sweep. rewrite Hdb.
  rewrite delete_keys_blocks. unfold index_version_getAllKeys.
  rewrite list_elem_of_fmap.
  split; intros [Hx Hn]; (split; [done|]).
  - intros Hsweep. apply Hn. exists x. split; [done|].
    apply elem_of_filter_bool. split.
    + by apply elem_of_version_index.
    + by apply sweep_range_includes.
  - intros (y & Hk & Hy). apply elem_of_filter_bool in Hy as [_ Hy].
    apply sweep_range_includes in Hy.
    destruct (key_of_name_version _ _ Hk) as [Hname Hver].
    apply Hn. rewrite Hname, Hver. done.
Qed.

(** What [xLock] does, relative to the cached block 0: on an open
    database file that is registered under its path, [xLock] at the
    RESERVED level returns the result of the lock manager and removes
    from the store exactly the records of the file whose version is below
    (newer than) the version of the cached block 0. At any other level
    [xLock] leaves the whole state as it was. *)
Lemma xLock_sweep_below_cached (st : IndexedDbVFS) (fileId lockResult : Z)
  (r : nat) (file : OpenedFileEntry) :
  file_of_id st fileId = Some (r, file) ->
  isJournal file = false ->
  getJournalDatabasePath file = path file ->
  mapPathToFile st !! path file = Some r ->
  (exists st',
     xLock st fileId SQLITE_LOCK_RESERVED lockResult = (st', Return lockResult)
     /\ objects st' = objects st
     /\ (forall x,
           x ∈ blocks st'
           <-> x ∈ blocks st
               /\ ~ (stored_name x = path file
                     /\ stored_version x < version (block0 file))))
  /\ forall flags_,
       flags_ <> SQLITE_LOCK_RESERVED ->
       xLock st fileId flags_ lockResult = (st, Return lockResult).
Proof.
  intros Hfile Hdb Hpath Hreg.
  assert (Hsib : file_of_path st (getJournalDatabasePath file)
                 = Some (r, file)).
  { unfold file_of_path. rewrite Hpath, Hreg. simpl.
    by rewrite (file_of_id_objects _ _ _ _ Hfile). }
  split.
  - exists (xLock_sweep file st). unfold xLock. rewrite Hfile.
    rewrite Z.eqb_refl. split; [done|].
    split.
    { unfold xLock_sweep. rewrite Hsib. apply delete_keys_frame. }
    intros x. rewrite (xLock_sweep_blocks st file file r x Hsib).
    by rewrite Hpath.
  - intros flags_ Hne. unfold xLock. rewrite Hfile.
    destruct (Z.eqb_spec flags_ SQLITE_LOCK_RESERVED); done.
Qed.

(** C8 fails on the code. The sweep is made below the version of the
    cached block 0, which stays the one that [xOpen] loaded. On the
    connection [Example.stale], which opened [/db] at version 0 before
    another connection committed version -1 and whose read of block 0
    leaves its cached block 0 as it is, [xLock] at the RESERVED level
    returns the result of the lock manager and deletes the
    published block 0 and block 1 of version -1: the newest committed
    block 0 is again the one of version 0. On the connection
    [Example.unregistered], whose path is no longer in the map of the
    paths, nothing is swept: block 1 of version -1, left by an
    abandoned transaction, stays in the store. *)
Lemma xLock_reserved_sweeps_published :
  file_of_id Example.stale 1 = Some (0%nat, Example.db_file)
  /\ isJournal Example.db_file = false
  /\ (version <$> committed_block0 "/db" (blocks Example.stale)) = Some (-1)
  /\ key_of <$> blocks Example.stale
     = [[KStr "/db"; KNum 0; KNum (-1)]; [KStr "/db"; KNum 0; KNum 0];
        [KStr "/db"; KNum 1; KNum (-1)]; [KStr "/db"; KNum 1; KNum 0];
        [KStr "/db"; KStr "purge"; KNum 0]]
  /\ fst (fst (xRead Example.stale 1 (mkPData 4096 (new_Int8Array 4096)) 0))
     = Example.stale
  /\ snd (xLock Example.stale 1 SQLITE_LOCK_RESERVED 0) = Return 0
  /\ key_of <$> blocks (fst (xLock Example.stale 1 SQLITE_LOCK_RESERVED 0))
     = [[KStr "/db"; KNum 0; KNum 0]; [KStr "/db"; KNum 1; KNum 0];
        [KStr "/db"; KStr "purge"; KNum 0]]
  /\ (version <$> committed_block0 "/db"
                    (blocks (fst (xLock Example.stale 1
                                    SQLITE_LOCK_RESERVED 0))))
     = Some 0
  /\ file_of_id Example.unregistered 1 = Some (0%nat, Example.db_file)
  /\ (version <$> committed_block0 "/db" (blocks Example.unregistered))
     = Some 0
  /\ key_of <$> blocks Example.unregistered
     = [[KStr "/db"; KNum 0; KNum 0]; [KStr "/db"; KNum 1; KNum (-1)];
        [KStr "/db"; KNum 1; KNum 0]]
  /\ xLock Example.unregistered 1 SQLITE_LOCK_RESERVED 0
     = (Example.unregistered, Return 0).
Proof. vm_compute. repeat split; reflexivity. Qed.

(** ** Reading the journal *)





(** A journal read changes nothing but the cache on the VFS object. *)
Lemma build_page_entry_frame (st : IndexedDbVFS) (header : Int8Array)
  (dbPath : string) (dbFile : OpenedFileEntry) (entrySize p : Z) :
  exists i e,
    fst (build_page_entry st header dbPath dbFile entrySize p)
    = with_this_cache i e st.
Proof.
  assert (Hst : st = with_this_cache (this_cachedPageIndex st)
                                     (this_cachedPageEntry st) st)
    by by destruct st.
  unfold build_page_entry.
  destruct (getUint32 header 12); [|by eexists _, _].
  destruct (setUint32 _ 0 _); [|by eexists _, _].
  destruct (idb_get_block _ st); [|by eexists _, _].
  destruct (ta_set _ _ 4); [|by eexists _, _].
  destruct (checksum _ _ _); [|by eexists _, _].
  destruct (setUint32 _ _ _); by eexists _, _.
Qed.

Lemma xReadJournal_frame (st : IndexedDbVFS) (file : OpenedFileEntry)
  (pData : PData) (iOffset : Z) :
  exists i e,
    fst (fst (xReadJournal st file pData iOffset)) = with_this_cache i e st.
Proof.
  assert (Hst : st = with_this_cache (this_cachedPageIndex st)
                                     (this_cachedPageEntry st) st)
    by by destruct st.
  unfold xReadJournal.
  destruct (getUint32 _ 20); [|by eexists _, _].
  destruct (file_of_path st _) as [[d dbFile]|]; [|by eexists _, _].
  destruct (_ <=? _).
  - destruct (journalPages dbFile) as [pages|]; [|by eexists _, _].
    destruct (bool_decide _).
    + destruct (this_cachedPageEntry st); [|by eexists _, _].
      destruct (ta_set _ _ 0); by eexists _, _.
    + destruct (array_get pages _) as [p|]; [|by eexists _, _].
      destruct (build_page_entry_frame st (data (block0 file))
                  (getJournalDatabasePath file) dbFile
                  (byteLength (data (block0 dbFile)) + 8) p)
        as (i & e & Hbuild).
      destruct (build_page_entry _ _ _ _ _ _) as [st1 [c|]]; simpl in *.
      * by eexists _, _.
      * subst st1. simpl.
        destruct e; [|by eexists _, _].
        destruct (ta_set _ _ 0); by eexists _, _.
  - destruct (ta_set _ _ 0); by eexists _, _.
Qed.














(** ** xTruncate *)

(** The range that [xTruncate] deletes, from [[path, last, Infinity]] to
    [[path, Infinity, Infinity]], holds the blocks of the file with an
    index above [last], and nothing else. *)
Lemma truncate_range_includes (p : string) (last : Z) (x : stored) :
  includes (bound_closed [KStr p; KNum last; KInfinity]
                         [KStr p; KInfinity; KInfinity]) (key_of x) = true
  <-> exists b, x = SBlock b /\ name b = p /\ last < index b.
Proof.
  unfold includes, bound_closed. destruct x as [b|q]; simpl.
  - rewrite (String.compare_antisym (name b) p).
    destruct (String.compare p (name b)) eqn:E; simpl.
    + apply String.compare_eq_iff in E.
      destruct (Z.compare_spec last (index b)); simpl.
      * split; [done|]. intros (b' & [= <-] & _ & ?). lia.
      * split; [|done]. intros _. by exists b.
      * split; [done|]. intros (b' & [= <-] & _ & ?). lia.
    + split; [done|]. intros (b' & [= <-] & <- & _).
      by rewrite string_compare_refl in E.
    + split; [done|]. intros (b' & [= <-] & <- & _).
      by rewrite string_compare_refl in E.
  - split; [|by intros (b & ? & _)].
    rewrite (String.compare_antisym (purge_name q) p).
    by destruct (String.compare p (purge_name q)).
Qed.

Lemma issued_app (st st' : IndexedDbVFS) (l : list event) :
  trace st' = trace st ++ l -> issued st st' = l.
Proof. intros H. unfold issued. rewrite H. apply drop_app_length. Qed.

Lemma store_object_file_of_id (st : IndexedDbVFS) (fileId : Z) (r : nat)
  (file file' : OpenedFileEntry) :
  file_of_id st fileId = Some (r, file) ->
  file_of_id (store_object r file' st) fileId = Some (r, file').
Proof.
  unfold file_of_id, store_object. simpl.
  destruct (mapIdToFile st !! fileId) as [r'|]; [|done]. simpl.
  destruct (objects st !! r') as [f|]; [|done]. simpl.
  intros [= -> ->]. by rewrite lookup_insert_eq.
Qed.

(** C2, as the code has it. [xTruncate] on an open file, for every size
    that is not negative (so also for every size at or above the current
    fileSize): the cached fileSize becomes the size; exactly two
    requests are issued, the put of block 0 with the new fileSize and one
    ranged delete; afterwards the store holds that block 0, no block of
    the file with an index above [size / blockSize], and every other
    record it held before. *)
Theorem xTruncate_effect (st : IndexedDbVFS) (fileId iSize : Z) (r : nat)
  (file : OpenedFileEntry) :
  file_of_id st fileId = Some (r, file) ->
  index (block0 file) = 0 ->
  0 <= iSize ->
  let block0' := with_fileSize (Some iSize) (block0 file) in
  let last := iSize `div` byteLength (data (block0 file)) in
  exists st',
    xTruncate st fileId iSize = (st', Return SQLITE_OK)
    /\ xFileSize st' fileId = Some (Some iSize)
    /\ issued st st'
       = [EvPut (SBlock block0');
          EvDelete (bound_closed [KStr (path file); KNum last; KInfinity]
                                 [KStr (path file); KInfinity; KInfinity])]
    /\ SBlock block0' ∈ blocks st'
    /\ (forall b, SBlock b ∈ blocks st' ->
                  name b = path file -> index b <= last)
    /\ (forall x, x ∈ blocks st ->
                  key_of x <> key_of (SBlock block0') ->
                  (forall b, x = SBlock b -> name b = path file ->
                             index b <= last) ->
                  x ∈ blocks st').
Proof.
  intros Hfile Hindex Hsize block0' last.
  assert (Hlast : 0 <= last).
  { unfold last, byteLength.
    destruct (length (data (block0 file))) as [|k].
    - change (Z.of_nat 0) with 0. by rewrite Z.div_0_r.
    - apply Z.div_pos; lia. }
  eexists. unfold xTruncate. rewrite Hfile. cbv zeta.
  split; [reflexivity|].
  split.
  { unfold xFileSize, idb_delete, idb_put, file_of_id. simpl.
    apply file_of_id_objects in Hfile as Hobj.
    unfold file_of_id in Hfile.
    destruct (mapIdToFile st !! fileId) as [r'|]; [|done]. simpl in *.
    destruct (objects st !! r') as [f|]; [|done]. simpl in *.
    injection Hfile as -> ->. by rewrite lookup_insert_eq. }
  split.
  { apply issued_app. simpl. by rewrite <- app_assoc. }
  simpl. fold block0'. fold last.
  split.
  { apply elem_of_store_delete. split; [apply store_put_elem|].
    destruct (includes _ _) eqn:E; [|done].
    apply truncate_range_includes in E as (b & [= <-] & _ & Hb).
    simpl in Hb. lia. }
  split.
  { intros b Hb Hn. apply elem_of_store_delete in Hb as [_ Hb].
    destruct (Z.le_gt_cases (index b) last) as [?|Hgt]; [done|].
    exfalso. assert (Hin : includes
      (bound_closed [KStr (path file); KNum last; KInfinity]
                    [KStr (path file); KInfinity; KInfinity])
      (key_of (SBlock b)) = true).
    { apply truncate_range_includes. exists b. repeat split; [done | lia]. }
    congruence. }
  intros x Hx Hk Hkeep. apply elem_of_store_delete.
  split; [by apply store_put_keeps|].
  destruct (includes _ _) eqn:E; [|done].
  apply truncate_range_includes in E as (b & -> & Hn & Hb).
  specialize (Hkeep b eq_refl Hn). lia.
Qed.

(** C2: truncating the newly created, empty file to 4096 bytes is not a
    no-op, although 4096 is above the current fileSize 0: the cached
    fileSize changes. *)
Lemma xTruncate_not_noop :
  xFileSize Example.created 1 = Some (Some 0)
  /\ 0 <= 4096
  /\ ~ truncate_is_noop Example.created 1 4096.
Proof.
  split; [reflexivity|]. split; [lia|].
  intros [Hsize _]. vm_compute in Hsize. discriminate Hsize.
Qed.

(** ** Zero-length reads and writes *)

Lemma store_object_same (st : IndexedDbVFS) (r : nat) (f : OpenedFileEntry) :
  objects st !! r = Some f -> store_object r f st = st.
Proof.
  intros H. unfold store_object. rewrite (insert_id _ _ _ H). by destruct st.
Qed.

Lemma with_fileSize_same (b : FileBlock) :
  with_fileSize (fileSize b) b = b.
Proof. by destruct b. Qed.

Lemma with_block0_same (f : OpenedFileEntry) : with_block0 (block0 f) f = f.
Proof. by destruct f. Qed.

(** The block index that [xRead] and [xWrite] compute, [(iOffset /
    blockSize) | 0], for an offset whose block index fits in 31 bits. *)
Lemma block_index_in_range (blockSize iOffset : Z) :
  0 < blockSize -> 0 <= iOffset < 2 ^ 31 * blockSize ->
  ToInt32 (iOffset `quot` blockSize) = iOffset `div` blockSize.
Proof.
  intros Hbs Hoff. rewrite Z.quot_div_nonneg by lia.
  assert (0 <= iOffset `div` blockSize < 2 ^ 31).
  { split; [apply Z.div_pos; lia|].
    apply Z.div_lt_upper_bound; lia. }
  unfold ToInt32.
  change (2 ^ 32) with 4294967296. change (2 ^ 31) with 2147483648 in *.
  rewrite Z.mod_small by lia. lia.
Qed.

(** A block found in the range of the visible versions is not newer
    than the version asked for: the cached block 0 is never replaced. *)
Lemma visible_range_version (p : string) (i v : Z) (s : objectStore)
  (b : FileBlock) :
  store_get (visible_range p i v) s = Some (SBlock b) -> v <= version b.
Proof.
  intros H. apply store_get_in in H as [_ H]. revert H.
  unfold includes, visible_range, bound_closed. simpl.
  rewrite (String.compare_antisym (name b) p).
  destruct (String.compare p (name b)); simpl; try done.
  rewrite (Z.compare_antisym i (index b)).
  destruct (i ?= index b); simpl; try done.
  destruct (Z.compare_spec v (version b)); simpl; try done; lia.
Qed.

Lemma subarray_empty (a : Int8Array) (b : Z) : subarray a b (b + 0) = [].
Proof.
  unfold subarray. rewrite Z.add_0_r, Z.sub_diag. done.
Qed.

(** C9, as the code has it. On an open database file whose block index
    fits in 31 bits: a read of length zero leaves the whole state as it
    is and returns the short-read status when the offset is at or past
    fileSize, and OK when the offset is below fileSize and the block is
    in the store; a write of length zero at an offset below fileSize
    leaves the whole state as it is and returns OK. *)
Theorem zero_length_io (st : IndexedDbVFS) (fileId iOffset n : Z) (r : nat)
  (file : OpenedFileEntry) :
  file_of_id st fileId = Some (r, file) ->
  isJournal file = false ->
  fileSize (block0 file) = Some n ->
  0 < byteLength (data (block0 file)) ->
  0 <= iOffset < 2 ^ 31 * byteLength (data (block0 file)) ->
  (n <= iOffset ->
   xRead st fileId (mkPData 0 []) iOffset
   = (st, [], Return SQLITE_IOERR_SHORT_READ))
  /\ (iOffset < n ->
      forall b,
        idb_get_block
          (visible_range (path file)
             (iOffset `div` byteLength (data (block0 file)))
             (version (block0 file))) st = Some b ->
        xRead st fileId (mkPData 0 []) iOffset = (st, [], Return SQLITE_OK))
  /\ (iOffset < n ->
      xWrite st fileId (mkPData 0 []) iOffset = (st, Return SQLITE_OK)).
Proof.
  intros Hfile Hdb Hsize Hbs Hoff.
  pose proof (block_index_in_range _ _ Hbs Hoff) as Hidx.
  assert (Hfast : ((iOffset `div` byteLength (data (block0 file)) + 1)
                   * byteLength (data (block0 file)) <? iOffset + 0) = false).
  { apply Z.ltb_ge. rewrite Z.add_0_r.
    pose proof (Z.mul_succ_div_gt iOffset _ Hbs). lia. }
  split; [|split].
  - intros Hpast. unfold xRead. rewrite Hfile, Hdb. cbv zeta.
    rewrite Hidx. cbn [pData_size pData_value]. rewrite Hfast, Hsize.
    cbn [num_ge]. by rewrite (proj2 (Z.leb_le n iOffset) Hpast).
  - intros Hin b Hb. unfold xRead. rewrite Hfile, Hdb. cbv zeta.
    rewrite Hidx. cbn [pData_size pData_value]. rewrite Hfast, Hsize.
    cbn [num_ge]. rewrite (proj2 (Z.leb_gt n iOffset) Hin), Hb.
    assert (Hv : (version b <? version (block0 file)) = false).
    { apply Z.ltb_ge. unfold idb_get_block in Hb.
      destruct (store_get _ _) as [[b'|q]|] eqn:E; try done.
      injection Hb as ->. by apply visible_range_version in E. }
    destruct (_ =? 0); cbn; rewrite ?Hv; cbn; by rewrite subarray_empty.
  - intros Hin. unfold xWrite. rewrite Hfile, Hdb.
    assert (Hgen : needs_general_write file (mkPData 0 []) iOffset = true).
    { unfold needs_general_write. rewrite Hsize. cbn [num_lt pData_size].
      rewrite (proj2 (Z.ltb_lt iOffset n) Hin).
      destruct (Z.eqb_spec 0 (byteLength (data (block0 file)))); [lia|].
      apply orb_true_r. }
    rewrite Hgen. unfold xWriteGeneral. cbn.
    change (byteLength [] =? 0) with true. cbv iota beta.
    rewrite Hsize. cbn [Math_max]. rewrite Z.add_0_r, Z.max_l by lia.
    rewrite <- Hsize, with_fileSize_same, with_block0_same.
    by rewrite (store_object_same _ _ _ (file_of_id_objects _ _ _ _ Hfile)).
Qed.

(** C9: a zero-length read at the end of the empty file returns the
    short-read status, not OK; a zero-length write at the end of the
    two-block file puts a new record; a zero-length write at offset 0 of
    the journal during a transaction (the header starts with a non-zero
    byte) empties journalPages and changedPages of the database file. *)
Lemma zero_length_not_noop :
  ~ read_is_noop Example.created 1 (mkPData 0 []) 0
  /\ ~ write_is_noop Example.opened 1 (mkPData 0 []) 8192
  /\ ~ write_is_noop Example.written 2 (mkPData 0 []) 0.
Proof.
  split; [|split].
  - intros H. vm_compute in H. destruct H as (_ & _ & H). discriminate H.
  - intros H. vm_compute in H. destruct H as (_ & H & _). discriminate H.
  - intros H. vm_compute in H. destruct H as (H & _ & _). discriminate H.
Qed.

(** ** The dispatch of xWrite *)

Lemma aligned_iff (blockSize iOffset : Z) :
  0 < blockSize ->
  (iOffset =? iOffset `div` blockSize * blockSize) = true
  <-> ~ misaligned blockSize iOffset.
Proof.
  intros Hbs. unfold misaligned. rewrite Z.eqb_eq.
  pose proof (Z.div_mod iOffset blockSize). split; intros; lia.
Qed.

(** The payload of the record that the fast path builds: the written
    bytes followed by zeros up to the block size. *)
Lemma fresh_block_payload (blockSize : Z) (src : Int8Array) :
  byteLength src <= blockSize ->
  ta_set (new_Int8Array blockSize) src 0
  = Some (src ++ replicate (Z.to_nat blockSize - length src) 0).
Proof.
  intros Hlen. unfold ta_set, new_Int8Array, byteLength in *.
  rewrite length_replicate. simpl.
  match goal with
  | |- context [?x <? ?y] => destruct (Z.ltb_spec x y); [exfalso; lia|]
  end.
  by rewrite drop_replicate.
Qed.

(** C5, as the code has it. On an open database file, for an offset
    whose block index fits in 31 bits: every misaligned write, and every
    write that starts below fileSize with a length other than the block
    size (so every partial and every multi-block write inside the file),
    is handled by [#xWriteGeneral]; every aligned write of at most one
    block that has the block size or starts at or past fileSize takes
    the fast path, which issues a single put of a freshly built record
    when the block index is not 0 and no request at all for block 0. *)
Theorem xWrite_dispatch (st : IndexedDbVFS) (fileId iOffset n : Z) (r : nat)
  (file : OpenedFileEntry) (pData : PData) :
  file_of_id st fileId = Some (r, file) ->
  isJournal file = false ->
  fileSize (block0 file) = Some n ->
  byteLength (pData_value pData) = pData_size pData ->
  let blockSize := byteLength (data (block0 file)) in
  0 < blockSize ->
  0 <= iOffset < 2 ^ 31 * blockSize ->
  (misaligned blockSize iOffset
   \/ (iOffset < n /\ pData_size pData <> blockSize) ->
   xWrite st fileId pData iOffset = xWriteGeneral st r file pData iOffset)
  /\ (~ misaligned blockSize iOffset ->
      pData_size pData <= blockSize ->
      pData_size pData = blockSize \/ n <= iOffset ->
      exists st',
        xWrite st fileId pData iOffset = (st', Return SQLITE_OK)
        /\ xWrite st fileId pData iOffset
           = xWrite_fast st r file pData iOffset
        /\ issued st st'
           = if iOffset `div` blockSize =? 0 then []
             else [EvPut (SBlock
                     {| name := name (block0 file);
                        index := iOffset `div` blockSize;
                        version := version (block0 file);
                        data := pData_value pData
                                ++ replicate (Z.to_nat blockSize
                                              - length (pData_value pData)) 0;
                        fileSize := None |})]).
Proof.
  intros Hfile Hdb Hsize Hlen blockSize Hbs Hoff.
  pose proof (block_index_in_range _ _ Hbs Hoff) as Hidx.
  pose proof (aligned_iff blockSize iOffset Hbs) as Hal.
  split.
  - intros Hslow. unfold xWrite. rewrite Hfile, Hdb.
    assert (Hgen : needs_general_write file pData iOffset = true).
    { unfold needs_general_write. fold blockSize. rewrite Hidx, Hsize.
      cbn [num_lt]. destruct Hslow as [Hmis|[Hin Hne]].
      - destruct (iOffset =? _) eqn:E; [|done].
        exfalso. by apply (aligned_iff blockSize iOffset Hbs) in E.
      - rewrite (proj2 (Z.ltb_lt iOffset n) Hin).
        destruct (Z.eqb_spec (pData_size pData) blockSize); [done|].
        apply orb_true_r. }
    by rewrite Hgen.
  - intros Haligned Hfit Hfull.
    assert (Hgen : needs_general_write file pData iOffset = false).
    { unfold needs_general_write. fold blockSize. rewrite Hidx, Hsize.
      cbn [num_lt]. rewrite (proj2 Hal Haligned). simpl.
      destruct Hfull as [->|Hpast].
      - rewrite Z.eqb_refl. apply andb_false_r.
      - by rewrite (proj2 (Z.ltb_ge iOffset n) Hpast). }
    unfold xWrite. rewrite Hfile, Hdb, Hgen.
    unfold xWrite_fast. fold blockSize. rewrite Hidx. cbv zeta.
    cbn [block0 with_block0 data with_fileSize fresh_block].
    fold blockSize.
    destruct (Z.eqb_spec (iOffset `div` blockSize) 0) as [Hz|Hnz].
    + destruct (ta_set_Some (data (block0 file)) (pData_value pData) 0)
        as [d Hd]; [lia | unfold blockSize, byteLength in *; lia |].
      rewrite Hd. eexists. split; [reflexivity|]. split; [reflexivity|].
      by apply issued_app; simpl; rewrite app_nil_r.
    + rewrite fresh_block_payload by lia.
      eexists. split; [reflexivity|]. split; [reflexivity|].
      by apply issued_app.
Qed.

(** C5: a write of 100 bytes at offset 8192, the end of the two-block
    file, is aligned but not a full block, and it takes the fast path. *)
Lemma xWrite_dispatch_not_as_specified :
  ~ write_dispatch_as_specified Example.db_file
      (mkPData 100 (replicate 100 1)) 8192.
Proof.
  intros [_ H]. destruct (H eq_refl) as (_ & Hfull & _).
  vm_compute in Hfull. discriminate Hfull.
Qed.

(** An aligned write of two blocks at the end of the file is not sent to
    [#xWriteGeneral] either: the fast path runs and [block.data.set]
    raises a RangeError, after the cached fileSize was raised. *)
Lemma xWrite_two_blocks_at_end :
  needs_general_write Example.new_file (mkPData 8192 (replicate (Z.to_nat 8192) 1)) 0
  = false
  /\ snd (xWrite Example.created 1 (mkPData 8192 (replicate (Z.to_nat 8192) 1)) 0)
     = Throw RangeError
  /\ xFileSize
       (fst (xWrite Example.created 1 (mkPData 8192 (replicate (Z.to_nat 8192) 1)) 0)) 1
     = Some (Some 8192).
Proof. by vm_compute. Qed.

(** ** Short reads *)

(** C3 fails on the code. A read of 4 bytes from the empty file returns
    the short-read status and leaves the caller's buffer as it was; a
    read of 8 bytes that starts 4 bytes before the end of the two-block
    file copies the 4 bytes of the file and leaves the other 4 bytes of
    the buffer as they were; a read of 8 bytes inside block 0 of a file
    of 4 bytes returns OK. *)
Lemma xRead_short_read_tail_not_zeroed :
  xRead Example.created 1 (mkPData 4 [1; 2; 3; 4]) 0
  = (Example.created, [1; 2; 3; 4], Return SQLITE_IOERR_SHORT_READ)
  /\ xRead Example.opened 1 (mkPData 8 [1; 2; 3; 4; 5; 6; 7; 8]) 8188
     = (Example.opened, [8; 8; 8; 8; 5; 6; 7; 8],
        Return SQLITE_IOERR_SHORT_READ)
  /\ snd (xRead (fst (xTruncate Example.created 1 4)) 1
            (mkPData 8 [1; 2; 3; 4; 5; 6; 7; 8]) 0)
     = Return SQLITE_OK.
Proof. by vm_compute. Qed.

(** [a.fill(v, a.length)] fills nothing. *)
Lemma ta_fill_from_length (a : Int8Array) (v : Z) :
  ta_fill a v (byteLength a) (byteLength a) = a.
Proof.
  unfold ta_fill, relative_index, byteLength.
  destruct (Z.ltb_spec (Z.of_nat (length a)) 0); [exfalso; lia|].
  by rewrite Z.min_id, Z.leb_refl.
Qed.

(** In general: a read inside one block that starts at or past fileSize
    returns the short-read status and hands the buffer back as it was. *)
Lemma xRead_past_end_keeps_buffer (st : IndexedDbVFS) (fileId iOffset n : Z)
  (r : nat) (file : OpenedFileEntry) (pData : PData) :
  file_of_id st fileId = Some (r, file) ->
  isJournal file = false ->
  fileSize (block0 file) = Some n ->
  byteLength (pData_value pData) = pData_size pData ->
  let blockSize := byteLength (data (block0 file)) in
  0 < blockSize ->
  0 <= iOffset < 2 ^ 31 * blockSize ->
  iOffset + pData_size pData <= (iOffset `div` blockSize + 1) * blockSize ->
  n <= iOffset ->
  xRead st fileId pData iOffset
  = (st, pData_value pData, Return SQLITE_IOERR_SHORT_READ).
Proof.
  intros Hfile Hdb Hsize Hlen blockSize Hbs Hoff Hone Hpast.
  unfold xRead. rewrite Hfile, Hdb. cbv zeta. fold blockSize.
  rewrite (block_index_in_range _ _ Hbs Hoff).
  rewrite (proj2 (Z.ltb_ge _ _) Hone), Hsize. cbn [num_ge].
  rewrite (proj2 (Z.leb_le n iOffset) Hpast).
  by rewrite <- Hlen, ta_fill_from_length.
Qed.

(** ** The loops end *)

Lemma block_bytes_bounds (blockSize fileOffset bytesRemaining : Z) :
  0 < blockSize -> 0 <= fileOffset -> 0 < bytesRemaining ->
  0 < Z.min (blockSize - fileOffset `rem` blockSize) bytesRemaining
      <= bytesRemaining.
Proof.
  intros Hbs Hfo Hbr.
  pose proof (Z.rem_bound_pos fileOffset blockSize Hfo Hbs). lia.
Qed.

(** With a positive block size and enough fuel for the remaining bytes,
    the loop of [#xReadGeneral] does not run out of fuel. *)
Lemma xReadGeneral_loop_ends (fuel : nat) (st : IndexedDbVFS) (r : nat)
  (file : OpenedFileEntry) (buf : Int8Array) (blockSize : Z)
  (bufferOffset fileOffset bytesRemaining : Z) :
  0 < blockSize -> 0 <= fileOffset ->
  0 <= bytesRemaining <= Z.of_nat fuel ->
  snd (xReadGeneral_loop fuel st r file buf blockSize bufferOffset
         fileOffset bytesRemaining) <> inr Diverge.
Proof.
  intros Hbs. revert st file buf bufferOffset fileOffset bytesRemaining.
  induction fuel as [|fuel IH]; intros st file buf bo fo br Hfo Hbr; simpl.
  - destruct (Z.eqb_spec br 0); [done | lia].
  - destruct (Z.eqb_spec br 0); [done|].
    pose proof (block_bytes_bounds blockSize fo br Hbs Hfo ltac:(lia)) as Hbb.
    destruct (fo `div` blockSize =? 0).
    + destruct (_ <? _); (destruct (view_set _ _ _); [|done]);
        apply IH; lia.
    + destruct (view_set _ _ _); [|done]. apply IH; lia.
Qed.

(** [#xReadGeneral] on a file with a positive block size, at an offset
    and with a size that are not negative, ends with a status or an
    exception. *)
Lemma xReadGeneral_ends (st : IndexedDbVFS) (r : nat) (file : OpenedFileEntry)
  (pData : PData) (iOffset : Z) :
  0 < byteLength (data (block0 file)) -> 0 <= iOffset ->
  0 <= pData_size pData ->
  snd (xReadGeneral st r file pData iOffset) <> Diverge.
Proof.
  intros Hbs Hoff Hsize. unfold xReadGeneral.
  destruct (fileSize (block0 file)) as [n|]; cbn [Math_min num_sub].
  - pose proof (xReadGeneral_loop_ends
      (S (Z.to_nat (Z.abs (Z.min (iOffset + pData_size pData) n
                           - Z.min iOffset n))))
      st r file (pData_value pData) (byteLength (data (block0 file)))
      0 iOffset (Z.min (iOffset + pData_size pData) n - Z.min iOffset n)
      Hbs Hoff ltac:(lia)) as Hloop.
    destruct (xReadGeneral_loop _ _ _ _ _ _ _ _ _) as [[st1 buf] [bo|c]];
      simpl in *.
    + by destruct (bo =? _).
    + congruence.
  - by destruct (0 =? _).
Qed.

(** Likewise for the loop of [#xWriteGeneral]. *)
Lemma xWriteGeneral_loop_ends (fuel : nat) (st : IndexedDbVFS) (r : nat)
  (file : OpenedFileEntry) (src : Int8Array) (blockSize : Z)
  (lastBlockIndex : jsnum) (bufferOffset fileOffset bytesRemaining : Z) :
  0 < blockSize -> 0 <= fileOffset ->
  0 <= bytesRemaining <= Z.of_nat fuel ->
  snd (xWriteGeneral_loop fuel st r file src blockSize lastBlockIndex
         bufferOffset fileOffset bytesRemaining) <> Some Diverge.
Proof.
  intros Hbs. revert st file bufferOffset fileOffset bytesRemaining.
  induction fuel as [|fuel IH]; intros st file bo fo br Hfo Hbr; simpl.
  - destruct (Z.eqb_spec br 0); [done | lia].
  - destruct (Z.eqb_spec br 0); [done|].
    pose proof (block_bytes_bounds blockSize fo br Hbs Hfo ltac:(lia)) as Hbb.
    destruct (if fo `div` blockSize =? 0 then _ else _) as [b|]; [|done].
    destruct (ta_set _ _ _); [|done].
    apply IH; lia.
Qed.

Lemma xWriteGeneral_ends (st : IndexedDbVFS) (r : nat) (file : OpenedFileEntry)
  (pData : PData) (iOffset : Z) :
  0 < byteLength (data (block0 file)) -> 0 <= iOffset ->
  snd (xWriteGeneral st r file pData iOffset) <> Diverge.
Proof.
  intros Hbs Hoff. unfold xWriteGeneral.
  pose proof (xWriteGeneral_loop_ends (length (pData_value pData)) st r file
    (pData_value pData) (byteLength (data (block0 file)))
    ((fun n => n `div` byteLength (data (block0 file)))
       <$> fileSize (block0 file))
    0 iOffset (byteLength (pData_value pData)) Hbs Hoff
    ltac:(unfold byteLength; lia)) as Hloop.
  destruct (xWriteGeneral_loop _ _ _ _ _ _ _ _ _ _) as [[st1 f1] [c|]];
    simpl in *; [congruence | done].
Qed.

(** ** The store stays in key order *)

Lemma idb_put_sorted (x : stored) (st : IndexedDbVFS) :
  store_sorted (blocks st) -> store_sorted (blocks (idb_put x st)).
Proof. apply store_put_sorted. Qed.

Lemma idb_delete_sorted (rg : IDBKeyRange) (st : IndexedDbVFS) :
  store_sorted (blocks st) -> store_sorted (blocks (idb_delete rg st)).
Proof. apply store_delete_sorted. Qed.

Lemma xClose_sorted (st : IndexedDbVFS) (fileId : Z) :
  store_sorted (blocks st) -> store_sorted (blocks (fst (xClose st fileId))).
Proof.
  intros H. unfold xClose. destruct (file_of_id st fileId) as [[r f]|]; [|done].
  destruct (negb _); simpl; [by apply store_delete_sorted | done].
Qed.

Lemma xTruncate_sorted (st : IndexedDbVFS) (fileId iSize : Z) :
  store_sorted (blocks st) ->
  store_sorted (blocks (fst (xTruncate st fileId iSize))).
Proof.
  intros H. unfold xTruncate.
  destruct (file_of_id st fileId) as [[r f]|]; [|done]. simpl.
  by apply store_delete_sorted, store_put_sorted.
Qed.

Lemma xSync_sorted (st : IndexedDbVFS) (fileId flags_ : Z) :
  store_sorted (blocks st) ->
  store_sorted (blocks (fst (xSync st fileId flags_))).
Proof.
  intros H. unfold xSync.
  destruct (file_of_id st fileId) as [[r f]|]; [|done].
  destruct (negb _); [|done]. simpl.
  assert (Hcb : store_sorted (blocks (xSync_callback f st))).
  { unfold xSync_callback.
    destruct (changedPages f); [|by apply store_put_sorted].
    destruct (journalPages f); [|by apply store_put_sorted].
    cbv zeta.
    match goal with
    | |- context [maybePurge ?p ?n ?s] =>
        destruct (maybePurge_store p n s) as (-> & _)
    end.
    by apply store_put_sorted, store_put_sorted. }
  by destruct (durability _).
Qed.

Lemma xLock_sorted (st : IndexedDbVFS) (fileId flags_ lockResult : Z) :
  store_sorted (blocks st) ->
  store_sorted (blocks (fst (xLock st fileId flags_ lockResult))).
Proof.
  intros H. unfold xLock.
  destruct (file_of_id st fileId) as [[r f]|]; [|done]. simpl.
  destruct (_ =? _); [|done]. unfold xLock_sweep.
  destruct (file_of_path st _) as [[d dbFile]|]; [|done].
  generalize (index_version_getAllKeys
    (bound [KStr (getJournalDatabasePath f)]
       [KStr (getJournalDatabasePath f); KNum (version (block0 dbFile))]
       false true) (blocks st)).
  intros keys. revert st H.
  induction keys as [|k keys IH]; intros st H; simpl; [done|].
  by apply IH, store_delete_sorted.
Qed.

Lemma xWriteGeneral_loop_sorted (fuel : nat) (st : IndexedDbVFS) (r : nat)
  (file : OpenedFileEntry) (src : Int8Array) (blockSize : Z)
  (lastBlockIndex : jsnum) (bufferOffset fileOffset bytesRemaining : Z) :
  store_sorted (blocks st) ->
  store_sorted
    (blocks (fst (fst (xWriteGeneral_loop fuel st r file src blockSize
                         lastBlockIndex bufferOffset fileOffset
                         bytesRemaining)))).
Proof.
  revert st file bufferOffset fileOffset bytesRemaining.
  induction fuel as [|fuel IH]; intros st file bo fo br H; simpl.
  - by destruct (br =? 0).
  - destruct (br =? 0); [done|].
    destruct (if fo `div` blockSize =? 0 then _ else _) as [b|]; [|done].
    destruct (ta_set _ _ _); [|done].
    apply IH. simpl.
    destruct (fo `div` blockSize =? 0); [done | by apply store_put_sorted].
Qed.

Lemma xWrite_sorted (st : IndexedDbVFS) (fileId : Z) (pData : PData)
  (iOffset : Z) :
  store_sorted (blocks st) ->
  store_sorted (blocks (fst (xWrite st fileId pData iOffset))).
Proof.
  intros H. unfold xWrite.
  destruct (file_of_id st fileId) as [[r f]|]; [|done].
  destruct (isJournal f).
  - unfold xWriteJournal. destruct (iOffset =? 0).
    + destruct (ta_set _ _ 0); [|done].
      destruct (match ta_get _ 0 with Some _ => _ | None => _ end); [|done].
      by destruct (mapPathToFile st !! _).
    + destruct (getUint32 _ 20); [|done].
      destruct (file_of_path st _) as [[d dbFile]|]; [|done].
      destruct (_ =? 0); [|done].
      destruct (getUint32 _ 0); [|done].
      by destruct (journalPages dbFile).
  - destruct (needs_general_write f pData iOffset).
    + unfold xWriteGeneral.
      pose proof (xWriteGeneral_loop_sorted (length (pData_value pData)) st r f
        (pData_value pData) (byteLength (data (block0 f)))
        ((fun n => n `div` byteLength (data (block0 f)))
           <$> fileSize (block0 f))
        0 iOffset (byteLength (pData_value pData)) H) as Hloop.
      destruct (xWriteGeneral_loop _ _ _ _ _ _ _ _ _ _) as [[st1 f1] [c|]];
        done.
    + unfold xWrite_fast. cbv zeta.
      destruct (_ =? 0).
      * by destruct (ta_set _ _ 0).
      * destruct (ta_set _ _ 0); [|done]. by apply store_put_sorted.
Qed.

Lemma xReadGeneral_loop_blocks (fuel : nat) (st : IndexedDbVFS) (r : nat)
  (file : OpenedFileEntry) (buf : Int8Array) (blockSize : Z)
  (bufferOffset fileOffset bytesRemaining : Z) :
  blocks (fst (fst (xReadGeneral_loop fuel st r file buf blockSize
                      bufferOffset fileOffset bytesRemaining)))
  = blocks st.
Proof.
  revert st file buf bufferOffset fileOffset bytesRemaining.
  induction fuel as [|fuel IH]; intros st file buf bo fo br; simpl.
  - by destruct (br =? 0).
  - destruct (br =? 0); [done|].
    destruct (fo `div` blockSize =? 0).
    + destruct (_ <? _).
      * destruct (view_set _ _ _); [|done]. by rewrite IH.
      * destruct (view_set _ _ _); [|done]. by rewrite IH.
    + destruct (view_set _ _ _); [|done]. by rewrite IH.
Qed.

(** A read never changes the records of the store. *)
Lemma xRead_blocks (st : IndexedDbVFS) (fileId : Z) (pData : PData)
  (iOffset : Z) :
  blocks (fst (fst (xRead st fileId pData iOffset))) = blocks st.
Proof.
  unfold xRead. destruct (file_of_id st fileId) as [[r f]|]; [|done].
  destruct (isJournal f).
  - destruct (xReadJournal_frame st f pData iOffset) as (i & e & ->). done.
  - cbv zeta. destruct (_ <? _).
    + unfold xReadGeneral.
      destruct (num_sub _ _) as [n|]; cbv zeta.
      * pose proof (xReadGeneral_loop_blocks (S (Z.to_nat (Z.abs n))) st r f
          (pData_value pData) (byteLength (data (block0 f))) 0 iOffset n)
          as Hloop.
        destruct (xReadGeneral_loop _ _ _ _ _ _ _ _ _) as [[st1 buf] [bo|c]];
          simpl in *; [|done].
        by destruct (bo =? _).
      * by destruct (0 =? _).
    + destruct (num_ge _ _); [done|].
      destruct (_ =? 0).
      * destruct (idb_get_block _ st) as [b|]; [|done].
        destruct (_ <? _); by destruct (ta_set _ _ 0).
      * destruct (idb_get_block _ st) as [b|]; [|done]. simpl.
        by destruct (ta_set _ _ 0).
Qed.

(** Every operation keeps the object store in ascending key order
    without duplicate keys, which is what makes [store_get] the range
    query of the store. *)
Theorem store_stays_sorted (st : IndexedDbVFS) :
  store_sorted (blocks st) ->
  (forall fileId, store_sorted (blocks (fst (xClose st fileId))))
  /\ (forall fileId pData iOffset,
        store_sorted (blocks (fst (fst (xRead st fileId pData iOffset)))))
  /\ (forall fileId pData iOffset,
        store_sorted (blocks (fst (xWrite st fileId pData iOffset))))
  /\ (forall fileId iSize,
        store_sorted (blocks (fst (xTruncate st fileId iSize))))
  /\ (forall fileId flags_,
        store_sorted (blocks (fst (xSync st fileId flags_))))
  /\ (forall fileId flags_ lockResult,
        store_sorted (blocks (fst (xLock st fileId flags_ lockResult)))).
Proof.
  intros H. repeat split; intros.
  - by apply xClose_sorted.
  - by rewrite xRead_blocks.
  - by apply xWrite_sorted.
  - by apply xTruncate_sorted.
  - by apply xSync_sorted.
  - by apply xLock_sorted.
Qed.

(** ** The theorems at concrete inputs *)


Lemma xWriteJournal_begins_transaction_witness :
  file_of_id Example.opened 2 = Some (1%nat, Example.journal_file)
  /\ exists st' file' dbFile',
       xWrite Example.opened 2 (mkPData 28 Example.header) 0
       = (st', Return SQLITE_OK)
       /\ objects st' !! 1%nat = Some file'
       /\ objects st' !! 0%nat = Some dbFile'
       /\ journalPages dbFile' = Some []
       /\ changedPages dbFile' = Some ∅
       /\ version (block0 dbFile') = version (block0 Example.db_file) - 1.
Proof.
  assert (H1 : file_of_id Example.opened 2
               = Some (1%nat, Example.journal_file)) by by vm_compute.
  split; [exact H1|].
  destruct (xWriteJournal_begins_transaction Example.opened 2
              (mkPData 28 Example.header) 1%nat 0%nat
              Example.journal_file Example.db_file (-39) H1)
    as (st' & file' & dbFile' & Hret & Hf & Hd & _ & Hj & Hc & Hv & _).
  - reflexivity.
  - by vm_compute.
  - apply Nat.ltb_lt. by vm_compute.
  - reflexivity.
  - discriminate.
  - exists st', file', dbFile'. repeat split; assumption.
Defined.


Lemma journal_entry_checksum_witness :
  int8_values (data Example.db_block1)
  /\ checksum (data Example.db_block1) 5 4096
     = Some (Some (5 + checksum_sum (data Example.db_block1) 4096)).
Proof.
  assert (H : int8_values (data Example.db_block1)).
  { apply Forall_replicate. lia. }
  split; [exact H|].
  refine (proj1 (journal_entry_checksum (data Example.db_block1) 5 4096 H _)).
  apply Z.leb_le. by vm_compute.
Defined.

Lemma xTruncate_effect_witness :
  file_of_id Example.created 1 = Some (0%nat, Example.new_file)
  /\ exists st',
       xTruncate Example.created 1 4096 = (st', Return SQLITE_OK)
       /\ xFileSize st' 1 = Some (Some 4096).
Proof.
  assert (H : file_of_id Example.created 1 = Some (0%nat, Example.new_file))
    by by vm_compute.
  split; [exact H|].
  destruct (xTruncate_effect Example.created 1 4096 0%nat Example.new_file
              H eq_refl ltac:(lia))
    as (st' & Hret & Hsize & _).
  exists st'. split; [exact Hret | exact Hsize].
Defined.

Lemma xWrite_dispatch_witness :
  file_of_id Example.opened 1 = Some (0%nat, Example.db_file)
  /\ exists st',
       xWrite Example.opened 1 (mkPData 100 (replicate 100 1)) 8192
       = (st', Return SQLITE_OK)
       /\ xWrite Example.opened 1 (mkPData 100 (replicate 100 1)) 8192
          = xWrite_fast Example.opened 0%nat Example.db_file
              (mkPData 100 (replicate 100 1)) 8192.
Proof.
  assert (H : file_of_id Example.opened 1 = Some (0%nat, Example.db_file))
    by by vm_compute.
  split; [exact H|].
  destruct (proj2 (xWrite_dispatch Example.opened 1 8192 8192 0%nat
                     Example.db_file (mkPData 100 (replicate 100 1))
                     H eq_refl eq_refl eq_refl
                     ltac:(by vm_compute) ltac:(by vm_compute)))
    as (st' & Hret & Hfast & _).
  - unfold misaligned. by vm_compute.
  - apply Z.leb_le. by vm_compute.
  - right. lia.
  - exists st'. split; [exact Hret | exact Hfast].
Defined.

Lemma zero_length_io_witness :
  file_of_id Example.opened 1 = Some (0%nat, Example.db_file)
  /\ xWrite Example.opened 1 (mkPData 0 []) 100
     = (Example.opened, Return SQLITE_OK).
Proof.
  assert (H : file_of_id Example.opened 1 = Some (0%nat, Example.db_file))
    by by vm_compute.
  split; [exact H|].
  refine (proj2 (proj2 (zero_length_io Example.opened 1 100 8192 0%nat
                          Example.db_file H eq_refl eq_refl _ _)) _).
  - by vm_compute.
  - by vm_compute.
  - lia.
Defined.

(** The stores of the example states are in key order. *)
Lemma example_stores_sorted :
  store_sorted (blocks Example.opened)
  /\ store_sorted (blocks Example.written)
  /\ store_sorted (blocks Example.synced).
Proof.
  assert (H : store_sorted (blocks Example.opened)).
  { repeat constructor. }
  split; [exact H|].
  assert (H1 : store_sorted (blocks Example.written)).
  { unfold Example.written, Example.journalled, Example.begun.
    repeat apply xWrite_sorted. exact H. }
  split; [exact H1|].
  unfold Example.synced. by apply xSync_sorted.
Qed.

(** The journal entry of page 2, read back during the transaction, is
    rebuilt from the block of version 0: the page number, the 4096 bytes
    that block 1 held before it was overwritten, and the checksum
    5 + 20 * 8. *)
Lemma example_journal_entry :
  snd (fst (xRead Example.written 2 (mkPData 4104 (new_Int8Array 4104)) 4096))
  = [0; 0; 0; 2] ++ replicate (Z.to_nat 4096) 8 ++ [0; 0; 0; -91]
  /\ ToUint8 (-91) = 5 + 20 * 8.
Proof. by vm_compute. Qed.

(** The sweep at the RESERVED level, run by a connection that finds the
    records of the abandoned transaction, leaves the committed blocks. *)
Lemma example_sweep :
  blocks (fst (xLock Example.reopened 1 SQLITE_LOCK_RESERVED 0))
  = blocks Example.opened.
Proof. by vm_compute. Qed.

(** * Further properties *)

(** ** Range queries and the requests that change the store *)

Lemma filter_filter_andb {A} (f g : A -> bool) (l : list A) :
  List.filter f (List.filter g l) = List.filter (fun x => g x && f x) l.
Proof.
  induction l as [|x l IH]; simpl; [done|].
  destruct (g x); simpl; [|done]. destruct (f x); by rewrite IH.
Qed.

(** A query is not affected by the removal of records that are outside
    its range. *)
Lemma store_get_filter_keep (rg : IDBKeyRange) (keep : stored -> bool)
  (s : objectStore) :
  (forall x, x ∈ s -> includes rg (key_of x) = true -> keep x = true) ->
  store_get rg (List.filter keep s) = store_get rg s.
Proof.
  intros H. unfold store_get. rewrite filter_filter_andb.
  f_equal. induction s as [|x s IH]; simpl; [done|].
  rewrite IH by (intros y Hy; apply H; by right).
  destruct (includes rg (key_of x)) eqn:E.
  - rewrite (H x); [done | left | done].
  - by rewrite andb_false_r.
Qed.

(** A query is not affected by the put of a record outside its range. *)
Lemma store_get_put_outside (rg : IDBKeyRange) (r : stored) (s : objectStore) :
  includes rg (key_of r) = false ->
  store_get rg (store_put r s) = store_get rg s.
Proof.
  intros Hr. unfold store_get. induction s as [|x s IH]; simpl.
  - by rewrite Hr.
  - destruct (key_cmp (key_of r) (key_of x)) eqn:E; simpl.
    + apply key_cmp_eq in E. by rewrite Hr, <- E, Hr.
    + by rewrite Hr.
    + destruct (includes rg (key_of x)); [done | apply IH].
Qed.

(** A put into a range that held no record makes the record the answer
    of the query. *)
Lemma store_get_put_first (rg : IDBKeyRange) (r : stored) (s : objectStore) :
  store_get rg s = None ->
  includes rg (key_of r) = true ->
  store_get rg (store_put r s) = Some r.
Proof.
  intros Hs Hr. unfold store_get in *. induction s as [|x s IH]; simpl in *.
  - by rewrite Hr.
  - destruct (includes rg (key_of x)) eqn:Ex; [done|].
    destruct (key_cmp (key_of r) (key_of x)) eqn:E; simpl.
    + by rewrite Hr.
    + by rewrite Hr.
    + rewrite Ex. by apply IH.
Qed.

(** A sequence of ranged deletes, as one filter. *)
Lemma delete_ranges_blocks {A} (f : A -> IDBKeyRange) (l : list A)
  (st : IndexedDbVFS) :
  blocks (foldl (fun st' a => idb_delete (f a) st') st l)
  = List.filter
      (fun x => forallb (fun a => negb (includes (f a) (key_of x))) l)
      (blocks st).
Proof.
  revert st. induction l as [|a l IH]; intros st; simpl.
  - induction (blocks st) as [|x s IHs]; simpl; [done | by rewrite <- IHs].
  - rewrite IH. unfold idb_delete. simpl. unfold store_delete.
    by rewrite filter_filter_andb.
Qed.

Lemma delete_ranges_frame {A} (f : A -> IDBKeyRange) (l : list A)
  (st : IndexedDbVFS) :
  let st' := foldl (fun st' a => idb_delete (f a) st') st l in
  objects st' = objects st /\ mapIdToFile st' = mapIdToFile st
  /\ mapPathToFile st' = mapPathToFile st /\ options st' = options st
  /\ pendingPurges st' = pendingPurges st /\ idleTasks st' = idleTasks st.
Proof.
  revert st. induction l as [|a l IH]; intros st; simpl; [done|].
  destruct (IH (idb_delete (f a) st)) as (-> & -> & -> & -> & -> & ->). done.
Qed.

(** The range [[path] .. [path, []]] holds every record of the file:
    blocks of every index and version, and the purge record. *)
Lemma file_range_includes (p : string) (x : stored) :
  includes (bound_closed [KStr p] [KStr p; KEmptyArray]) (key_of x) = true
  <-> stored_name x = p.
Proof.
  assert (H : forall n k v, keypart_cmp k KEmptyArray = Lt ->
    includes (bound_closed [KStr p] [KStr p; KEmptyArray]) [KStr n; k; KNum v]
    = true <-> n = p).
  { intros n k v Hk. unfold includes. simpl.
    rewrite (String.compare_antisym n p).
    destruct (String.compare p n) eqn:E; simpl.
    - apply String.compare_eq_iff in E. subst n. by rewrite Hk.
    - split; [done|]. intros ->. by rewrite string_compare_refl in E.
    - split; [done|]. intros ->. by rewrite string_compare_refl in E. }
  destruct x as [b|q]; apply H; done.
Qed.

(** The range of the block-0 records of a file. *)
Lemma block0_range_includes (p : string) (x : stored) :
  includes (block0_range p) (key_of x) = true
  <-> exists b, x = SBlock b /\ name b = p /\ index b = 0.
Proof.
  unfold includes, block0_range, bound_closed.
  destruct x as [[n i v d fs]|q]; simpl.
  - rewrite (String.compare_antisym n p).
    destruct (String.compare p n) eqn:E; simpl.
    + apply String.compare_eq_iff in E.
      destruct i; simpl.
      * split; [|done]. intros _. by eexists.
      * split; [done|]. by intros (b' & [= <-] & _ & ?).
      * split; [done|]. by intros (b' & [= <-] & _ & ?).
    + split; [done|]. intros (b' & [= <-] & <- & _).
      by rewrite string_compare_refl in E.
    + split; [done|]. intros (b' & [= <-] & <- & _).
      by rewrite string_compare_refl in E.
  - split; [|by intros (b & ? & _)].
    rewrite (String.compare_antisym (purge_name q) p).
    by destruct (String.compare p (purge_name q)).
Qed.

(** The range of the versions of block [i] visible at version [v]. *)
Lemma visible_range_includes (p : string) (i v : Z) (x : stored) :
  includes (visible_range p i v) (key_of x) = true
  <-> exists b, x = SBlock b /\ name b = p /\ index b = i /\ v <= version b.
Proof.
  unfold includes, visible_range, bound_closed. destruct x as [b|q]; simpl.
  - rewrite (String.compare_antisym (name b) p).
    destruct (String.compare p (name b)) eqn:E; simpl.
    + apply String.compare_eq_iff in E.
      rewrite (Z.compare_antisym i (index b)).
      destruct (Z.compare_spec i (index b)); simpl.
      * destruct (Z.compare_spec v (version b)); simpl.
        -- split; [|done]. intros _. exists b. repeat split; try done. lia.
        -- split; [|done]. intros _. exists b. repeat split; try done. lia.
        -- split; [done|]. intros (b' & [= <-] & _ & _ & ?). lia.
      * split; [done|]. intros (b' & [= <-] & _ & ? & _). lia.
      * split; [done|]. intros (b' & [= <-] & _ & ? & _). lia.
    + split; [done|]. intros (b' & [= <-] & <- & _).
      by rewrite string_compare_refl in E.
    + split; [done|]. intros (b' & [= <-] & <- & _).
      by rewrite string_compare_refl in E.
  - split; [|by intros (b & ? & _)].
    rewrite (String.compare_antisym (purge_name q) p).
    by destruct (String.compare p (purge_name q)).
Qed.

(** The range of the versions of page [i] strictly older than [v]. *)
Lemma older_range_includes (p : string) (i v : Z) (x : stored) :
  includes (older_range p i v) (key_of x) = true
  <-> exists b, x = SBlock b /\ name b = p /\ index b = i /\ v < version b.
Proof.
  unfold includes, older_range. destruct x as [b|q]; simpl.
  - rewrite (String.compare_antisym (name b) p).
    destruct (String.compare p (name b)) eqn:E; simpl.
    + apply String.compare_eq_iff in E.
      rewrite (Z.compare_antisym i (index b)).
      destruct (Z.compare_spec i (index b)); simpl.
      * destruct (Z.compare_spec v (version b)); simpl.
        -- split; [done|]. intros (b' & [= <-] & _ & _ & ?). lia.
        -- split; [|done]. intros _. exists b. repeat split; try done.
        -- split; [done|]. intros (b' & [= <-] & _ & _ & ?). lia.
      * split; [done|]. intros (b' & [= <-] & _ & ? & _). lia.
      * split; [done|]. intros (b' & [= <-] & _ & ? & _). lia.
    + split; [done|]. intros (b' & [= <-] & <- & _).
      by rewrite string_compare_refl in E.
    + split; [done|]. intros (b' & [= <-] & <- & _).
      by rewrite string_compare_refl in E.
  - split; [|by intros (b & ? & _)].
    rewrite (String.compare_antisym (purge_name q) p).
    by destruct (String.compare p (purge_name q)).
Qed.

(** ** Opening, closing and deleting files *)

Lemma store_get_is_Some (rg : IDBKeyRange) (s : objectStore) :
  is_Some (store_get rg s) <-> exists x, x ∈ s /\ includes rg (key_of x) = true.
Proof.
  split.
  - intros [x H]. exists x. by apply store_get_in.
  - intros (x & Hx & Hi). unfold store_get.
    assert (Hf : x ∈ List.filter (fun x => includes rg (key_of x)) s)
      by by apply elem_of_filter_bool.
    destruct (List.filter _ s); [by apply elem_of_nil in Hf | by eexists].
Qed.

Lemma committed_block0_get (p : string) (st : IndexedDbVFS) :
  idb_get_block (block0_range p) st = committed_block0 p (blocks st).
Proof. done. Qed.

(** What [blocks.get] finds in the range of the block-0 records is a
    block. *)
Lemma committed_block0_store_get (p : string) (s : objectStore) :
  committed_block0 p s = None <-> store_get (block0_range p) s = None.
Proof.
  unfold committed_block0. fold (block0_range p).
  destruct (store_get (block0_range p) s) as [[b|q]|] eqn:E; try done.
  apply store_get_in in E as [_ E].
  apply block0_range_includes in E as (b & ? & _). done.
Qed.

Lemma committed_block0_Some (p : string) (s : objectStore) (b : FileBlock) :
  committed_block0 p s = Some b <->
  store_get (block0_range p) s = Some (SBlock b).
Proof.
  unfold committed_block0. fold (block0_range p).
  destruct (store_get (block0_range p) s) as [[b'|q]|] eqn:E;
    split; try done; intros [= ->]; done.
Qed.

Lemma register_file_of_id (fileId : Z) (file : OpenedFileEntry)
  (st : IndexedDbVFS) :
  file_of_id (register fileId file st) fileId
  = Some (fresh (dom (objects st)), file).
Proof.
  unfold file_of_id, register. simpl.
  rewrite lookup_insert_eq. simpl. by rewrite lookup_insert_eq.
Qed.

Lemma register_file_of_path (fileId : Z) (file : OpenedFileEntry)
  (st : IndexedDbVFS) :
  file_of_path (register fileId file st) (path file)
  = Some (fresh (dom (objects st)), file).
Proof.
  unfold file_of_path, register. simpl.
  rewrite lookup_insert_eq. simpl. by rewrite lookup_insert_eq.
Qed.

Lemma fresh_object (st : IndexedDbVFS) :
  objects st !! fresh (dom (objects st)) = None.
Proof. apply not_elem_of_dom, is_fresh. Qed.

(** The entries that were open stay as they are under their identifiers. *)
Lemma register_keeps_id (fileId id' : Z) (file : OpenedFileEntry)
  (st : IndexedDbVFS) (rf : nat * OpenedFileEntry) :
  id' <> fileId ->
  file_of_id st id' = Some rf ->
  file_of_id (register fileId file st) id' = Some rf.
Proof.
  intros Hne. unfold file_of_id, register. simpl.
  rewrite lookup_insert_ne by done.
  destruct (mapIdToFile st !! id') as [r'|]; [|done]. simpl.
  destruct (objects st !! r') as [f|] eqn:E; [|done]. simpl. intros [= <-].
  rewrite lookup_insert_ne; [by rewrite E|].
  intros <-. by rewrite fresh_object in E.
Qed.

Lemma register_keeps_path (fileId : Z) (q : string) (file : OpenedFileEntry)
  (st : IndexedDbVFS) (rf : nat * OpenedFileEntry) :
  q <> path file ->
  file_of_path st q = Some rf ->
  file_of_path (register fileId file st) q = Some rf.
Proof.
  intros Hne. unfold file_of_path, register. simpl.
  rewrite lookup_insert_ne by done.
  destruct (mapPathToFile st !! q) as [r'|]; [|done]. simpl.
  destruct (objects st !! r') as [f|] eqn:E; [|done]. simpl. intros [= <-].
  rewrite lookup_insert_ne; [by rewrite E|].
  intros <-. by rewrite fresh_object in E.
Qed.

Lemma register_store (fileId : Z) (file : OpenedFileEntry) (st : IndexedDbVFS) :
  blocks (register fileId file st) = blocks st
  /\ trace (register fileId file st) = trace st
  /\ options (register fileId file st) = options st
  /\ pendingPurges (register fileId file st) = pendingPurges st
  /\ idleTasks (register fileId file st) = idleTasks st.
Proof. done. Qed.

(** X1. [xOpen] of a file that has a block 0 in the store returns OK and
    registers, under the identifier and under the path, a new entry whose
    block 0 is the stored block-0 record of the path with the lowest
    version number (the latest transaction); no request that writes is
    made and the entries under the other identifiers stay. *)
Theorem xOpen_existing_file (st : IndexedDbVFS) (p : string)
  (fileId flags_ : Z) (b : FileBlock) :
  store_sorted (blocks st) ->
  committed_block0 p (blocks st) = Some b ->
  exists st' r,
    xOpen st (Some p) fileId flags_ = (Some st', Return SQLITE_OK)
    /\ file_of_id st' fileId = Some (r, new_entry p flags_ b)
    /\ file_of_path st' p = Some (r, new_entry p flags_ b)
    /\ objects st !! r = None
    /\ blocks st' = blocks st /\ trace st' = trace st
    /\ (forall id' rf, id' <> fileId ->
          file_of_id st id' = Some rf -> file_of_id st' id' = Some rf)
    /\ name b = p /\ index b = 0
    /\ (forall b', SBlock b' ∈ blocks st -> name b' = p -> index b' = 0 ->
          version b <= version b').
Proof.
  intros Hs Hb.
  exists (register fileId (new_entry p flags_ b) st), (fresh (dom (objects st))).
  split; [|split; [|split; [|split; [|split; [|split; [|split]]]]]].
  - unfold xOpen. by rewrite committed_block0_get, Hb.
  - apply register_file_of_id.
  - apply (register_file_of_path fileId (new_entry p flags_ b)).
  - apply fresh_object.
  - done.
  - done.
  - intros id' rf Hne H. by apply register_keeps_id.
  - apply committed_block0_Some in Hb.
    pose proof (store_get_in _ _ _ Hb) as [_ Hi].
    apply block0_range_includes in Hi as (b0 & [= <-] & Hn & Hx).
    split; [done|]. split; [done|].
    intros b' Hin Hn' Hx'.
    destruct (store_get_least _ _ _ (SBlock b') Hs Hb Hin) as [[= ->]|Hlt].
    + apply block0_range_includes. by exists b'.
    + lia.
    + unfold key_lt in Hlt. simpl in Hlt.
      rewrite Hn, Hn', string_compare_refl, Hx, Hx' in Hlt. simpl in Hlt.
      destruct (Z.compare_spec (version b) (version b')); try done; lia.
Qed.

(** X2. [xOpen] never raises: it returns OK when the name parses
    and the store has a block 0 for the path or the CREATE flag is set,
    and CANTOPEN otherwise. *)
Theorem xOpen_result (st : IndexedDbVFS) (pathname : option string)
  (fileId flags_ : Z) :
  let c := snd (xOpen st pathname fileId flags_) in
  (c = Return SQLITE_OK \/ c = Return SQLITE_CANTOPEN)
  /\ (c = Return SQLITE_OK <->
      exists p, pathname = Some p
        /\ (is_Some (committed_block0 p (blocks st))
            \/ Z.land flags_ SQLITE_OPEN_CREATE <> 0)).
Proof.
  unfold xOpen. destruct pathname as [p|]; simpl.
  - rewrite committed_block0_get.
    destruct (committed_block0 p (blocks st)) as [b|] eqn:Eb; simpl.
    + split; [by left|]. split; [|done]. intros _. exists p. split; [done|].
      left. by eexists.
    + destruct (Z.eqb_spec (Z.land flags_ SQLITE_OPEN_CREATE) 0) as [E|E]; simpl.
      * split; [by right|]. split; [done|].
        intros (p' & [= <-] & [[? H]|H]); [by rewrite Eb in H | done].
      * assert (Hc : forall (x y : option IndexedDbVFS * completion) (t : bool),
                  snd x = Return SQLITE_OK -> snd y = Return SQLITE_OK ->
                  snd (if t then x else y) = Return SQLITE_OK)
          by (intros x y []; done).
        rewrite Hc by done.
        split; [by left|]. split; [|done]. intros _. exists p. split; [done|].
        by right.
  - split; [by right|]. split; [done|]. by intros (p & ? & _).
Qed.

Lemma idb_get_purge_put_block (p : string) (b : FileBlock) (st : IndexedDbVFS) :
  idb_get_purge p (idb_put (SBlock b) st) = idb_get_purge p st.
Proof.
  unfold idb_get_purge, idb_put. simpl.
  by rewrite store_get_put_other by apply block_key_not_purge_key.
Qed.

Lemma xClose_keeps_store (st : IndexedDbVFS) (fileId : Z) (r : nat)
  (file : OpenedFileEntry) :
  file_of_id st fileId = Some (r, file) ->
  Z.land (flags file) SQLITE_OPEN_DELETEONCLOSE = 0 ->
  blocks (fst (xClose st fileId)) = blocks st.
Proof.
  intros Hf Hd. unfold xClose. rewrite Hf, Hd. done.
Qed.

(** X3. A file that is not in the store, created by [xOpen] with the
    CREATE flag, closed and opened again without the flag: the second
    [xOpen] returns OK and its entry holds the block 0 that the first
    one created (version 0, fileSize 0, a zero-filled block). *)
Theorem xOpen_create_close_reopen (st : IndexedDbVFS) (p : string)
  (fileId fileId' flags_ flags' : Z) :
  committed_block0 p (blocks st) = None ->
  idb_get_purge p st = None ->
  Z.land flags_ SQLITE_OPEN_CREATE <> 0 ->
  Z.land flags_ (Z.lor SQLITE_OPEN_MAIN_JOURNAL SQLITE_OPEN_TEMP_JOURNAL) = 0 ->
  Z.land flags_ SQLITE_OPEN_DELETEONCLOSE = 0 ->
  exists st1 st2 r,
    xOpen st (Some p) fileId flags_ = (Some st1, Return SQLITE_OK)
    /\ issued st st1 = [EvPut (SBlock (created_block0 p)); EvSync]
    /\ xOpen (fst (xClose st1 fileId)) (Some p) fileId' flags'
       = (Some st2, Return SQLITE_OK)
    /\ file_of_id st2 fileId' = Some (r, new_entry p flags' (created_block0 p))
    /\ xFileSize st2 fileId' = Some (Some 0).
Proof.
  intros Hb Hp Hc Hj Hd.
  set (file := new_entry p flags_ (created_block0 p)).
  set (st1 := idb_sync (idb_put (SBlock (created_block0 p))
                                (register fileId file st))).
  assert (H1 : xOpen st (Some p) fileId flags_ = (Some st1, Return SQLITE_OK)).
  { unfold xOpen. rewrite committed_block0_get, Hb.
    destruct (Z.eqb_spec (Z.land flags_ SQLITE_OPEN_CREATE) 0); [done|].
    cbn [negb]. unfold isJournal. cbn [flags new_entry]. rewrite Hj.
    cbn [Z.eqb negb block0 new_entry path]. unfold purge.
    rewrite idb_get_purge_put_block.
    unfold idb_get_purge in *. by rewrite (proj1 (register_store _ _ _)), Hp. }
  assert (Hf : file_of_id st1 fileId = Some (fresh (dom (objects st)), file))
    by apply register_file_of_id.
  assert (Hbl : blocks (fst (xClose st1 fileId))
                = store_put (SBlock (created_block0 p)) (blocks st)).
  { by rewrite (xClose_keeps_store _ _ _ _ Hf Hd). }
  assert (Hg : committed_block0 p (blocks (fst (xClose st1 fileId)))
               = Some (created_block0 p)).
  { rewrite Hbl. apply committed_block0_Some, store_get_put_first.
    - by apply committed_block0_store_get.
    - apply block0_range_includes. by eexists. }
  exists st1, (register fileId' (new_entry p flags' (created_block0 p))
                 (fst (xClose st1 fileId))), (fresh (dom (objects st1))).
  split; [done|]. split; [|split; [|split]].
  - apply issued_app. subst st1. simpl. by rewrite <- app_assoc.
  - unfold xOpen. by rewrite committed_block0_get, Hg.
  - rewrite register_file_of_id. do 3 f_equal.
    unfold xClose. rewrite Hf. cbn [flags file new_entry]. rewrite Hd. done.
  - unfold xFileSize. by rewrite register_file_of_id.
Qed.

(** X4. [xOpen] creates a journal file in memory only: with the CREATE
    flag and a journal flag, for a path with no block 0 in the store, it
    returns OK, registers an empty file and makes no request at all. *)
Theorem xOpen_creates_journal_in_memory (st : IndexedDbVFS) (p : string)
  (fileId flags_ : Z) :
  committed_block0 p (blocks st) = None ->
  Z.land flags_ SQLITE_OPEN_CREATE <> 0 ->
  Z.land flags_ (Z.lor SQLITE_OPEN_MAIN_JOURNAL SQLITE_OPEN_TEMP_JOURNAL) <> 0 ->
  exists st' r,
    xOpen st (Some p) fileId flags_ = (Some st', Return SQLITE_OK)
    /\ file_of_id st' fileId = Some (r, new_entry p flags_ (created_block0 p))
    /\ blocks st' = blocks st /\ trace st' = trace st
    /\ xAccess st' (Some p) 0 = (Some 0, Return SQLITE_OK).
Proof.
  intros Hb Hc Hj.
  exists (register fileId (new_entry p flags_ (created_block0 p)) st),
         (fresh (dom (objects st))).
  split; [|split; [|split; [|split]]].
  - unfold xOpen. rewrite committed_block0_get, Hb.
    destruct (Z.eqb_spec (Z.land flags_ SQLITE_OPEN_CREATE) 0); [done|].
    cbn [negb]. unfold isJournal. cbn [flags new_entry].
    by destruct (Z.eqb_spec (Z.land flags_
      (Z.lor SQLITE_OPEN_MAIN_JOURNAL SQLITE_OPEN_TEMP_JOURNAL)) 0).
  - apply register_file_of_id.
  - done.
  - done.
  - unfold xAccess, store_getKey. cbn [blocks register].
    rewrite (proj1 (register_store _ _ _)).
    apply committed_block0_store_get in Hb. by rewrite Hb.
Qed.

Lemma xAccess_no_block0 (st : IndexedDbVFS) (p : string) (flags_ : Z) :
  (forall b, SBlock b ∈ blocks st -> name b = p -> index b <> 0) ->
  xAccess st (Some p) flags_ = (Some 0, Return SQLITE_OK).
Proof.
  intros H. unfold xAccess, store_getKey.
  destruct (store_get (block0_range p) (blocks st)) as [x|] eqn:E; [|done].
  apply store_get_in in E as [Hx Hi].
  apply block0_range_includes in Hi as (b & -> & Hn & Hi).
  by destruct (H b Hx Hn).
Qed.

(** X5. [xAccess] reports 1 exactly when the store holds a block with
    index 0 under the path, of whatever version; blocks with another
    index and the purge record do not count, and neither does an entry
    that is open. *)
Theorem xAccess_block0 (st : IndexedDbVFS) (p : string) (flags_ : Z) :
  exists res,
    xAccess st (Some p) flags_ = (Some res, Return SQLITE_OK)
    /\ (res = 0 \/ res = 1)
    /\ (res = 1 <->
        exists b, SBlock b ∈ blocks st /\ name b = p /\ index b = 0).
Proof.
  unfold xAccess, store_getKey.
  destruct (store_get (block0_range p) (blocks st)) as [x|] eqn:E; simpl.
  - exists 1. split; [done|]. split; [by right|]. split; [|done]. intros _.
    apply store_get_in in E as [Hx Hi].
    apply block0_range_includes in Hi as (b & -> & ? & ?). by exists b.
  - exists 0. split; [done|]. split; [by left|]. split; [done|].
    intros (b & Hin & Hn & Hx).
    assert (Hs : is_Some (store_get (block0_range p) (blocks st))).
    { apply store_get_is_Some. exists (SBlock b). split; [done|].
      apply block0_range_includes. by exists b. }
    rewrite E in Hs. by destruct Hs.
Qed.

(** X6. [xDelete] removes from the store every record stored under the
    path (the blocks of every index and version and the purge record)
    and no other record, with one ranged delete; the open entries are
    not touched, and [xAccess] of the path reports 0 afterwards. *)
Theorem xDelete_removes_file (st : IndexedDbVFS) (p : string) (syncDir : bool) :
  exists st',
    xDelete st (Some p) syncDir = (st', Return SQLITE_OK)
    /\ (forall x, x ∈ blocks st' <-> x ∈ blocks st /\ stored_name x <> p)
    /\ issued st st' = [EvDelete (bound_closed [KStr p] [KStr p; KEmptyArray])]
    /\ objects st' = objects st
    /\ mapIdToFile st' = mapIdToFile st
    /\ mapPathToFile st' = mapPathToFile st
    /\ xAccess st' (Some p) 0 = (Some 0, Return SQLITE_OK).
Proof.
  eexists. split; [done|].
  assert (Hx : forall x,
    x ∈ blocks (idb_delete (bound_closed [KStr p] [KStr p; KEmptyArray]) st)
    <-> x ∈ blocks st /\ stored_name x <> p).
  { intros x. unfold idb_delete. cbn [blocks with_store].
    rewrite elem_of_store_delete.
    pose proof (file_range_includes p x) as Hr.
    split; intros [H1 H2]; (split; [done|]).
    - intros Hn. apply Hr in Hn. congruence.
    - destruct (includes _ (key_of x)); [|done].
      exfalso. by apply H2, Hr. }
  split; [done|]. split; [by apply issued_app|]. do 3 (split; [done|]).
  apply xAccess_no_block0. intros b Hin Hn. apply Hx in Hin as [_ Hne]. done.
Qed.

(** X7. [xClose] of an open file removes the identifier and the path
    from the two maps (the path whichever entry it was mapped to) and
    keeps the entries under the other identifiers. Without the
    DELETEONCLOSE flag it makes no request; with it, it removes from the
    store every record stored under the path and no other record. *)
Theorem xClose_effect (st : IndexedDbVFS) (fileId : Z) (r : nat)
  (file : OpenedFileEntry) :
  file_of_id st fileId = Some (r, file) ->
  exists st',
    xClose st fileId = (st', Return SQLITE_OK)
    /\ file_of_id st' fileId = None
    /\ file_of_path st' (path file) = None
    /\ (forall id', id' <> fileId -> file_of_id st' id' = file_of_id st id')
    /\ (forall q, q <> path file -> file_of_path st' q = file_of_path st q)
    /\ objects st' = objects st
    /\ (Z.land (flags file) SQLITE_OPEN_DELETEONCLOSE = 0 ->
          blocks st' = blocks st /\ trace st' = trace st)
    /\ (Z.land (flags file) SQLITE_OPEN_DELETEONCLOSE <> 0 ->
          forall x, x ∈ blocks st' <-> x ∈ blocks st /\ stored_name x <> path file).
Proof.
  intros Hf. exists (fst (xClose st fileId)).
  split; [unfold xClose; by rewrite Hf|].
  unfold xClose. rewrite Hf. cbn [fst]. cbv zeta.
  set (st1 := with_maps _ _ st).
  assert (Hm : forall st2, mapIdToFile st2 = mapIdToFile st1 ->
            mapPathToFile st2 = mapPathToFile st1 ->
            objects st2 = objects st ->
            file_of_id st2 fileId = None
            /\ file_of_path st2 (path file) = None
            /\ (forall id', id' <> fileId -> file_of_id st2 id' = file_of_id st id')
            /\ (forall q, q <> path file -> file_of_path st2 q = file_of_path st q)
            /\ objects st2 = objects st).
  { intros st2 Hi Hp Ho. unfold file_of_id, file_of_path.
    rewrite Hi, Hp, Ho. subst st1. cbn [mapIdToFile mapPathToFile with_maps].
    rewrite !lookup_delete_eq. split; [done|]. split; [done|].
    split; [|split; [|done]].
    - intros id' Hne. by rewrite lookup_delete_ne.
    - intros q Hne. by rewrite lookup_delete_ne. }
  destruct (Z.eqb_spec (Z.land (flags file) SQLITE_OPEN_DELETEONCLOSE) 0)
    as [E|E]; cbn [negb].
  - destruct (Hm st1) as (H1 & H2 & H3 & H4 & H5); done.
  - destruct (Hm (idb_delete (bound_closed [KStr (path file)]
                                [KStr (path file); KEmptyArray]) st1))
      as (H1 & H2 & H3 & H4 & H5); [done..|].
    do 5 (split; [done|]). split; [done|]. intros _ x.
    unfold idb_delete. cbn [blocks with_store].
    rewrite elem_of_store_delete.
    pose proof (file_range_includes (path file) x) as Hr.
    change (blocks st1) with (blocks st).
    split; intros [H6 H7]; (split; [done|]).
    + intros Hn. apply Hr in Hn. congruence.
    + destruct (includes _ (key_of x)); [|done].
      exfalso. by apply H7, Hr.
Qed.

(** ** purge *)

Lemma store_get_delete_same (rg : IDBKeyRange) (s : objectStore) :
  store_get rg (store_delete rg s) = None.
Proof.
  unfold store_get, store_delete. rewrite filter_filter_andb.
  induction s as [|x s IH]; simpl; [done|].
  by destruct (includes rg (key_of x)).
Qed.

(** The first record of a range stays the first one when records are
    removed and it is kept. *)
Lemma store_get_filter_first (rg : IDBKeyRange) (keep : stored -> bool)
  (s : objectStore) :
  match store_get rg s with
  | Some x => keep x = true -> store_get rg (List.filter keep s) = Some x
  | None => store_get rg (List.filter keep s) = None
  end.
Proof.
  unfold store_get. induction s as [|y s IH]; simpl; [done|].
  destruct (includes rg (key_of y)) eqn:E; simpl.
  - intros ->. simpl. by rewrite E.
  - destruct (keep y); simpl; [by rewrite E | done].
Qed.

Lemma purge_blocks (st : IndexedDbVFS) (p : string) (pb : PurgeBlock) :
  idb_get_purge p st = Some pb ->
  blocks (purge st p) = List.filter (purge_keeps p pb) (blocks st).
Proof.
  intros H. unfold purge. rewrite H. unfold idb_delete at 1.
  cbn [blocks with_store]. unfold store_delete.
  rewrite (delete_ranges_blocks
             (fun entry : Z * Z => older_range p (fst entry) (snd entry))).
  by rewrite filter_filter_andb.
Qed.

Lemma purge_frame (st : IndexedDbVFS) (p : string) :
  objects (purge st p) = objects st
  /\ mapIdToFile (purge st p) = mapIdToFile st
  /\ mapPathToFile (purge st p) = mapPathToFile st
  /\ options (purge st p) = options st
  /\ pendingPurges (purge st p) = pendingPurges st
  /\ idleTasks (purge st p) = idleTasks st.
Proof.
  unfold purge. destruct (idb_get_purge p st) as [pb|]; [|done].
  unfold idb_delete at 1. cbn.
  apply (delete_ranges_frame
           (fun entry : Z * Z => older_range p (fst entry) (snd entry))).
Qed.

Lemma purge_keeps_spec (p : string) (pb : PurgeBlock) (x : stored) :
  purge_keeps p pb x = true
  <-> key_of x <> purge_key p
      /\ ~ (exists b v, x = SBlock b /\ name b = p
              /\ purge_data pb !! index b = Some v /\ v < version b).
Proof.
  unfold purge_keeps. rewrite andb_true_iff, negb_true_iff, forallb_forall.
  split.
  - intros [Ha Hk]. split.
    + intros Hx. apply (includes_only (purge_key p)) in Hx. congruence.
    + intros (b & v & -> & Hn & Hl & Hv).
      specialize (Ha (index b, v)).
      rewrite negb_true_iff in Ha.
      assert (Hi : includes (older_range p (index b) v) (key_of (SBlock b)) = true).
      { apply older_range_includes. by exists b. }
      cbn [fst snd] in Ha. rewrite Ha in Hi; [done|].
      apply list_elem_of_In, elem_of_map_to_list. done.
  - intros [Hk Hn]. split.
    + intros [i v] Hin. apply list_elem_of_In, elem_of_map_to_list in Hin.
      apply negb_true_iff.
      destruct (includes _ (key_of x)) eqn:E; [|done].
      apply older_range_includes in E as (b & -> & Hb & Hi & Hv).
      cbn [fst snd] in *. exfalso. apply Hn. exists b, v. by rewrite Hi.
    + destruct (includes _ (key_of x)) eqn:E; [|done].
      by apply includes_only in E.
Qed.

(** X8. [purge] of a path that has a purge record removes the record
    itself and, for every page index that the record maps to a version,
    the blocks of the path with that index and a greater version number
    (an older version); it removes no other record and touches no entry.
    A second [purge] then finds no purge record and changes nothing. *)
Theorem purge_effect (st : IndexedDbVFS) (p : string) (pb : PurgeBlock) :
  idb_get_purge p st = Some pb ->
  (forall x, x ∈ blocks (purge st p) <->
     x ∈ blocks st /\ key_of x <> purge_key p
     /\ ~ (exists b v, x = SBlock b /\ name b = p
             /\ purge_data pb !! index b = Some v /\ v < version b))
  /\ objects (purge st p) = objects st
  /\ idb_get_purge p (purge st p) = None
  /\ purge (purge st p) p = purge st p.
Proof.
  intros H.
  assert (Hn : idb_get_purge p (purge st p) = None).
  { unfold purge at 1. rewrite H. unfold idb_get_purge, idb_delete.
    cbn [blocks with_store]. by rewrite store_get_delete_same. }
  split; [|split; [|split]].
  - intros x. rewrite (purge_blocks _ _ _ H), elem_of_filter_bool.
    by rewrite purge_keeps_spec.
  - apply purge_frame.
  - done.
  - unfold purge at 1. by rewrite Hn.
Qed.

Lemma purge_visible (st : IndexedDbVFS) (p : string) (i v : Z) :
  store_sorted (blocks st) ->
  (forall pb t, idb_get_purge p st = Some pb -> purge_data pb !! i = Some t ->
     exists b, SBlock b ∈ blocks st /\ name b = p /\ index b = i
               /\ v <= version b <= t) ->
  store_get (visible_range p i v) (blocks (purge st p))
  = store_get (visible_range p i v) (blocks st).
Proof.
  intros Hs Hp.
  destruct (idb_get_purge p st) as [pb|] eqn:E;
    [|unfold purge; rewrite E; done].
  rewrite (purge_blocks _ _ _ E).
  pose proof (store_get_filter_first (visible_range p i v) (purge_keeps p pb)
                (blocks st)) as Hf.
  destruct (store_get (visible_range p i v) (blocks st)) as [x|] eqn:Ex;
    [|done].
  apply Hf. apply purge_keeps_spec.
  pose proof (store_get_in _ _ _ Ex) as [Hx Hi].
  apply visible_range_includes in Hi as (b & -> & Hn & Hi & Hv).
  split; [done|]. intros (b' & t & [= <-] & _ & Hl & Ht).
  rewrite Hi in Hl.
  destruct (Hp pb t eq_refl Hl) as (c & Hc & Hcn & Hci & Hcv).
  destruct (store_get_least _ _ _ (SBlock c) Hs Ex Hc) as [[= ->]|Hlt].
  - apply visible_range_includes. exists c. repeat split; try done. lia.
  - lia.
  - unfold key_lt in Hlt. simpl in Hlt.
    rewrite Hn, Hcn, string_compare_refl, Hi, Hci, Z.compare_refl in Hlt.
    destruct (Z.compare_spec (version b) (version c)); try done; lia.
Qed.

(** X9. [purge] does not change what a reader at version [v] gets for
    block [i] of the path, as long as every page that the purge record
    names still has a block that is visible at [v] and not older than
    the version recorded for the page. Reads of other paths are never
    changed. *)
Theorem purge_keeps_visible_block (st : IndexedDbVFS) (p : string) (i v : Z) :
  store_sorted (blocks st) ->
  (forall pb t, idb_get_purge p st = Some pb -> purge_data pb !! i = Some t ->
     exists b, SBlock b ∈ blocks st /\ name b = p /\ index b = i
               /\ v <= version b <= t) ->
  idb_get_block (visible_range p i v) (purge st p)
  = idb_get_block (visible_range p i v) st
  /\ (forall q j w, q <> p ->
        idb_get_block (visible_range q j w) (purge st p)
        = idb_get_block (visible_range q j w) st).
Proof.
  intros Hs Hp. unfold idb_get_block. split; [by rewrite purge_visible|].
  intros q j w Hq.
  destruct (idb_get_purge p st) as [pb|] eqn:E;
    [|unfold purge; rewrite E; done].
  rewrite (purge_blocks _ _ _ E).
  rewrite store_get_filter_keep; [done|]. intros x Hx Hi.
  apply visible_range_includes in Hi as (b & -> & Hn & _).
  apply purge_keeps_spec. split; [done|].
  intros (b' & t & [= <-] & Hn' & _). congruence.
Qed.

(** ** The purges that are pending *)

Lemma maybePurge_scheduled (name_ : string) (nPages : Z) (st : IndexedDbVFS) :
  purges_scheduled st -> purges_scheduled (maybePurge name_ nPages st).
Proof.
  intros [Hd He]. unfold maybePurge.
  destruct (purge_mode (options st)); cbn [orb]; [|done].
  destruct (bool_decide_reflect (name_ ∈ pendingPurges st)) as [Hin|Hin];
    cbn [orb]; [done|].
  destruct (nPages <? purgeAtLeast (options st)); [done|].
  split; cbn [idleTasks pendingPurges with_purges].
  - apply NoDup_app. split; [done|]. split; [|apply NoDup_singleton].
    intros x Hx ->%list_elem_of_singleton. apply Hin, He, Hx.
  - intros n. rewrite elem_of_app, list_elem_of_singleton, elem_of_union,
      elem_of_singleton, He. tauto.
Qed.

(** X10. At most one purge is pending for a file: the names in
    [#pendingPurges] are those of the scheduled callbacks, each once.
    [#maybePurge], [xSync] and the callback itself keep it so; with the
    option [purge: 'manual'] nothing is ever scheduled, and a file that
    has a purge pending is not scheduled again. *)
Theorem pending_purges_invariant (st : IndexedDbVFS) :
  purges_scheduled st ->
  (forall name_ nPages, purges_scheduled (maybePurge name_ nPages st))
  /\ (forall fileId flags_, purges_scheduled (fst (xSync st fileId flags_)))
  /\ purges_scheduled (run_idle_task st)
  /\ (forall name_ nPages,
        purge_mode (options st) = PurgeManual \/ name_ ∈ pendingPurges st ->
        maybePurge name_ nPages st = st)
  /\ (forall name_ rest, idleTasks st = name_ :: rest ->
        idleTasks (run_idle_task st) = rest
        /\ name_ ∉ pendingPurges (run_idle_task st)).
Proof.
  intros H. split; [|split; [|split; [|split]]].
  - intros. by apply maybePurge_scheduled.
  - intros fileId flags_. unfold xSync.
    destruct (file_of_id st fileId) as [[r file]|]; [|done].
    destruct (negb (isJournal file)); [|done]. cbn [fst].
    assert (Hc : purges_scheduled (xSync_callback file st)).
    { unfold xSync_callback.
      destruct (changedPages file); [|done].
      destruct (journalPages file); [|done].
      by apply maybePurge_scheduled. }
    by destruct (durability _).
  - destruct H as [Hd He]. unfold run_idle_task.
    destruct (idleTasks st) as [|n rest] eqn:E;
      [by split; [rewrite E | setoid_rewrite E]|].
    set (st0 := with_purges (pendingPurges st) rest st).
    destruct (purge_frame st0 n) as (_ & _ & _ & _ & Hp & Hi).
    split; cbn [idleTasks pendingPurges with_purges]; rewrite ?Hi, ?Hp;
      subst st0; cbn [idleTasks pendingPurges with_purges].
    + by apply NoDup_cons in Hd as [_ Hd].
    + intros m. rewrite elem_of_difference, elem_of_singleton, <- He.
      apply NoDup_cons in Hd as [Hn Hd]. rewrite elem_of_cons.
      split; [|tauto]. intros Hm. split; [tauto|]. by intros ->.
  - intros name_ nPages [Hm|Hin]; unfold maybePurge.
    + by rewrite Hm.
    + rewrite (bool_decide_eq_true_2 _ Hin).
      by destruct (purge_mode (options st)).
  - intros name_ rest E. unfold run_idle_task. rewrite E.
    set (st0 := with_purges (pendingPurges st) rest st).
    destruct (purge_frame st0 name_) as (_ & _ & _ & _ & Hp & Hi).
    cbn [idleTasks pendingPurges with_purges]. rewrite Hi, Hp. split; [done|].
    rewrite elem_of_difference, elem_of_singleton. tauto.
Qed.

(** ** Reads and writes of a database file *)

Lemma idb_get_block_in (rg : IDBKeyRange) (st : IndexedDbVFS) (b : FileBlock) :
  idb_get_block rg st = Some b ->
  SBlock b ∈ blocks st /\ includes rg (key_of (SBlock b)) = true.
Proof.
  unfold idb_get_block.
  destruct (store_get rg (blocks st)) as [[b'|q]|] eqn:E; try done.
  intros [= ->]. by apply store_get_in.
Qed.

(** The block that a read at the cached version fetches is never newer
    than the cached block 0: the range starts at the cached version. *)
Lemma fetched_not_newer (st : IndexedDbVFS) (file : OpenedFileEntry) (i : Z) :
  (version (default (block0 file)
              (idb_get_block
                 (visible_range (path file) i (version (block0 file))) st))
   <? version (block0 file)) = false.
Proof.
  apply Z.ltb_ge.
  destruct (idb_get_block _ st) as [b|] eqn:E; simpl; [|lia].
  apply idb_get_block_in in E as [_ E].
  apply visible_range_includes in E as (b' & [= <-] & _ & _ & ?). done.
Qed.

Lemma xReadGeneral_loop_state (fuel : nat) (st : IndexedDbVFS) (r : nat)
  (file : OpenedFileEntry) (buf : Int8Array) (blockSize : Z)
  (bufferOffset fileOffset bytesRemaining : Z) :
  fst (fst (xReadGeneral_loop fuel st r file buf blockSize
              bufferOffset fileOffset bytesRemaining)) = st.
Proof.
  revert buf bufferOffset fileOffset bytesRemaining.
  induction fuel as [|fuel IH]; intros buf bo fo br;
    cbn [xReadGeneral_loop]; cbv zeta.
  - by destruct (br =? 0).
  - destruct (br =? 0); [done|].
    rewrite fetched_not_newer.
    destruct (fo `div` blockSize =? 0);
      (destruct (view_set _ _ _); [apply IH | done]).
Qed.

(** X11. [xRead] of a database file changes nothing in the VFS: no
    entry, no cached block, no record and no request. The branch that
    would replace the cached block 0 by a newer one from the store is
    never taken, because the range that is fetched starts at the cached
    version. *)
Theorem xRead_database_keeps_state (st : IndexedDbVFS) (fileId : Z)
  (pData : PData) (iOffset : Z) (r : nat) (file : OpenedFileEntry) :
  file_of_id st fileId = Some (r, file) ->
  isJournal file = false ->
  fst (fst (xRead st fileId pData iOffset)) = st.
Proof.
  intros Hf Hj. unfold xRead. rewrite Hf, Hj. cbv zeta.
  destruct (_ <? _).
  - unfold xReadGeneral. cbv zeta.
    destruct (num_sub _ _) as [n|].
    + pose proof (xReadGeneral_loop_state (S (Z.to_nat (Z.abs n))) st r file
                    (pData_value pData) (byteLength (data (block0 file)))
                    0 iOffset n) as Hl.
      destruct (xReadGeneral_loop _ _ _ _ _ _ _ _ _) as [[st1 buf] res].
      cbn [fst] in Hl. subst st1.
      destruct res as [bo|c]; [by destruct (bo =? _) | done].
    + by destruct (0 =? _).
  - destruct (num_ge _ _); [done|].
    pose proof (fetched_not_newer st file
                  (ToInt32 (iOffset `quot` byteLength (data (block0 file)))))
      as Hv.
    destruct (idb_get_block _ st) as [b|]; simpl in Hv.
    + destruct (_ =? 0); cbn [fmap option_fmap option_map].
      * rewrite Hv. by destruct (ta_set _ _ _).
      * by destruct (ta_set _ _ _).
    + by destruct (_ =? 0).
Qed.

Lemma changedPages_add_fields (i : Z) (file : OpenedFileEntry) :
  block0 (changedPages_add i file) = block0 file
  /\ path (changedPages_add i file) = path file
  /\ flags (changedPages_add i file) = flags file
  /\ journalPages (changedPages_add i file) = journalPages file.
Proof. unfold changedPages_add. by destruct (changedPages file). Qed.

(** The range of the versions of block [i], from [[path, i]] to
    [[path, i, Infinity]]. *)
Lemma block_range_includes (p : string) (i : Z) (x : stored) :
  includes (bound_closed [KStr p; KNum i] [KStr p; KNum i; KInfinity])
           (key_of x) = true
  <-> exists b, x = SBlock b /\ name b = p /\ index b = i.
Proof.
  unfold includes, bound_closed. destruct x as [b|q]; simpl.
  - rewrite (String.compare_antisym (name b) p).
    destruct (String.compare p (name b)) eqn:E; simpl.
    + apply String.compare_eq_iff in E.
      rewrite (Z.compare_antisym i (index b)).
      destruct (Z.compare_spec i (index b)); simpl.
      * split; [|done]. intros _. by exists b.
      * split; [done|]. intros (b' & [= <-] & _ & ?). lia.
      * split; [done|]. intros (b' & [= <-] & _ & ?). lia.
    + split; [done|]. intros (b' & [= <-] & <- & _).
      by rewrite string_compare_refl in E.
    + split; [done|]. intros (b' & [= <-] & <- & _).
      by rewrite string_compare_refl in E.
  - split; [|by intros (b & ? & _)].
    rewrite (String.compare_antisym (purge_name q) p).
    by destruct (String.compare p (purge_name q)).
Qed.

(** The put of a block whose index is not 0 leaves the committed block 0
    of every path as it is. *)
Lemma committed_block0_put_other (q : string) (b : FileBlock) (s : objectStore) :
  index b <> 0 ->
  committed_block0 q (store_put (SBlock b) s) = committed_block0 q s.
Proof.
  intros Hi. unfold committed_block0. fold (block0_range q).
  rewrite store_get_put_outside; [done|].
  destruct (includes _ _) eqn:E; [|done].
  apply block0_range_includes in E as (b' & [= <-] & _ & ?). done.
Qed.

Lemma xWriteGeneral_loop_entry (fuel : nat) (st : IndexedDbVFS) (r : nat)
  (file : OpenedFileEntry) (src : Int8Array) (blockSize : Z)
  (lastBlockIndex : jsnum) (bufferOffset fileOffset bytesRemaining : Z) :
  let res := xWriteGeneral_loop fuel st r file src blockSize lastBlockIndex
               bufferOffset fileOffset bytesRemaining in
  mapIdToFile (fst (fst res)) = mapIdToFile st
  /\ fileSize (block0 (snd (fst res))) = fileSize (block0 file)
  /\ version (block0 (snd (fst res))) = version (block0 file)
  /\ name (block0 (snd (fst res))) = name (block0 file)
  /\ path (snd (fst res)) = path file
  /\ flags (snd (fst res)) = flags file
  /\ (forall q, committed_block0 q (blocks (fst (fst res)))
                = committed_block0 q (blocks st))
  /\ (forall z, snd res <> Some (Return z)).
Proof.
  revert st file bufferOffset fileOffset bytesRemaining.
  induction fuel as [|fuel IH]; intros st file bo fo br;
    cbn [xWriteGeneral_loop]; cbv zeta.
  - by destruct (br =? 0).
  - destruct (br =? 0); [done|].
    destruct (Z.eqb_spec (fo `div` blockSize) 0) as [E0|E0].
    + destruct (ta_set _ _ _) as [d|]; [|done]. cbv iota.
      match goal with
      | |- context [xWriteGeneral_loop fuel ?s r ?f src blockSize
                      lastBlockIndex ?a ?b ?c] =>
          destruct (IH s f a b c) as (H1 & H2 & H3 & H4 & H5 & H6 & H7 & H8);
          destruct (changedPages_add_fields (fo `div` blockSize)
                      (with_block0 (with_data d (block0 file)) file))
            as (G1 & G2 & G3 & _)
      end.
      rewrite H1, H2, H3, H4, H5, H6, G1, G2, G3.
      do 6 (split; [done|]). split; [|done]. intros q. by rewrite H7.
    + match goal with
      | |- context [match ?blk with Some _ => _ | None => _ end] =>
          assert (Hb : forall b, blk = Some b -> index b = fo `div` blockSize);
          [|destruct blk as [b|]; [|done]]
      end.
      { intros b. destruct (_ && _).
        - intros H. apply idb_get_block_in in H as [_ H].
          apply block_range_includes in H as (b' & [= <-] & _ & ?). done.
        - by intros [= <-]. }
      destruct (ta_set _ _ _) as [d|]; [|done]. cbv iota.
      match goal with
      | |- context [xWriteGeneral_loop fuel ?s r ?f src blockSize
                      lastBlockIndex ?a ?b ?c] =>
          destruct (IH s f a b c) as (H1 & H2 & H3 & H4 & H5 & H6 & H7 & H8);
          destruct (changedPages_add_fields (fo `div` blockSize) file)
            as (G1 & G2 & G3 & _)
      end.
      rewrite H1, H2, H3, H4, H5, H6, G1, G2, G3.
      do 6 (split; [done|]). split; [|done]. intros q. rewrite H7.
      cbn [blocks store_object with_objects idb_put with_store].
      apply committed_block0_put_other. cbn [index with_data].
      rewrite (Hb b eq_refl). done.
Qed.

Lemma file_of_id_store_object (st : IndexedDbVFS) (fileId : Z) (r : nat)
  (f : OpenedFileEntry) :
  mapIdToFile st !! fileId = Some r ->
  file_of_id (store_object r f st) fileId = Some (r, f).
Proof.
  intros H. unfold file_of_id, store_object. simpl. rewrite H. simpl.
  by rewrite lookup_insert_eq.
Qed.

Lemma file_of_id_ref (st : IndexedDbVFS) (fileId : Z) (r : nat)
  (f : OpenedFileEntry) :
  file_of_id st fileId = Some (r, f) -> mapIdToFile st !! fileId = Some r.
Proof.
  unfold file_of_id. destruct (mapIdToFile st !! fileId) as [r'|]; [|done].
  simpl. destruct (objects st !! r'); [|done]. by intros [= -> _].
Qed.

Lemma xWriteJournal_store (st : IndexedDbVFS) (r : nat) (file : OpenedFileEntry)
  (pData : PData) (iOffset : Z) :
  blocks (fst (xWriteJournal st r file pData iOffset)) = blocks st
  /\ trace (fst (xWriteJournal st r file pData iOffset)) = trace st.
Proof. unfold xWriteJournal. cbv zeta. repeat case_match; done. Qed.

(** X12. A write to a database file that returns OK, on the fast path
    or on the read-modify-write path, leaves the entry with
    fileSize = max(fileSize, iOffset + size), for an offset and a size
    that are not negative and whose sum is below 2^53, so that the sum
    of the source is exact; the version, the name, the path and the
    flags of the entry stay. *)
Theorem xWrite_extends_file (st : IndexedDbVFS) (fileId : Z) (pData : PData)
  (iOffset : Z) (r : nat) (file : OpenedFileEntry) :
  file_of_id st fileId = Some (r, file) ->
  isJournal file = false ->
  0 <= iOffset ->
  0 <= pData_size pData ->
  iOffset + pData_size pData < 2 ^ 53 ->
  snd (xWrite st fileId pData iOffset) = Return SQLITE_OK ->
  exists file',
    file_of_id (fst (xWrite st fileId pData iOffset)) fileId = Some (r, file')
    /\ fileSize (block0 file')
       = Math_max (fileSize (block0 file)) (Some (iOffset + pData_size pData))
    /\ xFileSize (fst (xWrite st fileId pData iOffset)) fileId
       = Some (Math_max (fileSize (block0 file))
                        (Some (iOffset + pData_size pData)))
    /\ version (block0 file') = version (block0 file)
    /\ name (block0 file') = name (block0 file)
    /\ path file' = path file /\ flags file' = flags file.
Proof.
  intros Hf Hj Hoff Hsz Hsafe. pose proof (file_of_id_ref _ _ _ _ Hf) as Hr.
  assert (Hx : forall st' file',
    file_of_id st' fileId = Some (r, file') ->
    fileSize (block0 file')
    = Math_max (fileSize (block0 file)) (Some (iOffset + pData_size pData)) ->
    xFileSize st' fileId
    = Some (Math_max (fileSize (block0 file))
                     (Some (iOffset + pData_size pData)))).
  { intros st' file' H1 H2. unfold xFileSize. rewrite H1. simpl. by rewrite H2. }
  unfold xWrite. rewrite Hf, Hj.
  destruct (needs_general_write file pData iOffset).
  - unfold xWriteGeneral. cbv zeta.
    match goal with
    | |- context [xWriteGeneral_loop ?n st r file ?s ?bs ?l ?a ?b ?c] =>
        pose proof (xWriteGeneral_loop_entry n st r file s bs l a b c) as Hl;
        destruct (xWriteGeneral_loop n st r file s bs l a b c)
          as [[st1 file1] failure]
    end.
    cbv zeta in Hl. cbn [fst snd] in Hl.
    destruct Hl as (H1 & H2 & H3 & H4 & H5 & H6 & _ & H8).
    destruct failure as [c|]; cbn [fst snd].
    + intros ->. by destruct (H8 SQLITE_OK).
    + intros _. eexists. split; [apply file_of_id_store_object; by rewrite H1|].
      assert (Hs : fileSize (block0 (with_block0
                (with_fileSize (Math_max (fileSize (block0 file1))
                                  (Some (iOffset + pData_size pData)))
                   (block0 file1)) file1))
              = Math_max (fileSize (block0 file))
                         (Some (iOffset + pData_size pData)))
        by (cbn; by rewrite H2).
      split; [done|]. split.
      { eapply Hx; [apply file_of_id_store_object; by rewrite H1 | done]. }
      done.
  - unfold xWrite_fast. cbv zeta.
    destruct (_ =? 0).
    + destruct (ta_set _ _ _) as [d|]; [|done]. cbn [fst snd]. intros _.
      match goal with
      | |- context [store_object r (changedPages_add ?i ?f) ?s] =>
          destruct (changedPages_add_fields i f) as (G1 & G2 & G3 & _);
          assert (Hi : file_of_id (store_object r (changedPages_add i f) s)
                         fileId = Some (r, changedPages_add i f))
            by (by apply file_of_id_store_object);
          exists (changedPages_add i f)
      end.
      split; [apply Hi|]. rewrite G1, G2, G3. split; [done|].
      split; [|done]. eapply Hx; [apply Hi|]. by rewrite G1.
    + destruct (ta_set _ _ _) as [d|]; [|done]. cbn [fst snd]. intros _.
      match goal with
      | |- context [store_object r (changedPages_add ?i ?f) ?s] =>
          destruct (changedPages_add_fields i f) as (G1 & G2 & G3 & _);
          assert (Hi : file_of_id (store_object r (changedPages_add i f) s)
                         fileId = Some (r, changedPages_add i f))
            by (by apply file_of_id_store_object);
          exists (changedPages_add i f)
      end.
      split; [apply Hi|]. rewrite G1, G2, G3. split; [done|].
      split; [|done]. eapply Hx; [apply Hi|]. by rewrite G1.
Qed.

(** X13. [xWrite] never writes a block with index 0 to the store: for
    every path, the block 0 that [xOpen] would load is the same before
    and after the call, whatever the file, the offset and the outcome.
    Block 0 reaches the store with [xSync] (and [xTruncate]) only. *)
Theorem xWrite_keeps_committed_block0 (st : IndexedDbVFS) (fileId : Z)
  (pData : PData) (iOffset : Z) (q : string) :
  committed_block0 q (blocks (fst (xWrite st fileId pData iOffset)))
  = committed_block0 q (blocks st).
Proof.
  unfold xWrite. destruct (file_of_id st fileId) as [[r file]|]; [|done].
  destruct (isJournal file).
  { by rewrite (proj1 (xWriteJournal_store _ _ _ _ _)). }
  destruct (needs_general_write file pData iOffset).
  - unfold xWriteGeneral. cbv zeta.
    match goal with
    | |- context [xWriteGeneral_loop ?n st r file ?s ?bs ?l ?a ?b ?c] =>
        pose proof (xWriteGeneral_loop_entry n st r file s bs l a b c) as Hl;
        destruct (xWriteGeneral_loop n st r file s bs l a b c)
          as [[st1 file1] failure]
    end.
    cbv zeta in Hl. cbn [fst snd] in Hl.
    destruct Hl as (_ & _ & _ & _ & _ & _ & H7 & _).
    destruct failure; cbn [fst]; apply H7.
  - unfold xWrite_fast. cbv zeta.
    destruct (Z.eqb_spec (ToInt32 (iOffset `quot` byteLength (data (block0 file)))) 0).
    + by destruct (ta_set _ _ _).
    + destruct (ta_set _ _ _) as [d|]; [|done].
      cbn [fst blocks store_object with_objects idb_put with_store].
      by apply committed_block0_put_other.
Qed.

(** X14. A write on the fast path is not seen by a reader that is at a
    greater version number (a reader that has not loaded the block 0 of
    the writer's transaction): the block it would fetch for any index of
    any path is the same before and after the call. Nor does the write
    change the block from which the journal rebuilds a page entry, which
    is fetched strictly above the writer's version. *)
Theorem fast_write_invisible (st : IndexedDbVFS) (fileId : Z) (pData : PData)
  (iOffset : Z) (r : nat) (file : OpenedFileEntry) :
  file_of_id st fileId = Some (r, file) ->
  isJournal file = false ->
  needs_general_write file pData iOffset = false ->
  forall q i w, version (block0 file) <= w ->
    (version (block0 file) < w ->
     idb_get_block (visible_range q i w) (fst (xWrite st fileId pData iOffset))
     = idb_get_block (visible_range q i w) st)
    /\ idb_get_block (older_range q i w) (fst (xWrite st fileId pData iOffset))
       = idb_get_block (older_range q i w) st.
Proof.
  intros Hf Hj Hg q i w Hw. unfold xWrite. rewrite Hf, Hj, Hg.
  unfold xWrite_fast. cbv zeta. unfold idb_get_block.
  destruct (_ =? 0).
  - by destruct (ta_set _ _ _).
  - destruct (ta_set _ _ _) as [d|]; [|done].
    cbn [fst blocks store_object with_objects idb_put with_store].
    split; [intros Hlt|].
    + rewrite store_get_put_outside; [done|].
      destruct (includes _ _) eqn:E; [|done].
      apply visible_range_includes in E as (b' & [= <-] & _ & _ & Hv).
      cbn in Hv. lia.
    + rewrite store_get_put_outside; [done|].
      destruct (includes _ _) eqn:E; [|done].
      apply older_range_includes in E as (b' & [= <-] & _ & _ & Hv).
      cbn in Hv. lia.
Qed.

Lemma includes_lower (rg : IDBKeyRange) (k : idbkey) :
  includes rg k = true -> key_cmp (lower rg) k <> Gt.
Proof. unfold includes. by destruct (key_cmp (lower rg) k). Qed.

(** A put of the record with the least key of a range makes it the
    answer of the query. *)
Lemma store_get_put_min (rg : IDBKeyRange) (x : stored) (s : objectStore) :
  store_sorted s ->
  includes rg (key_of x) = true ->
  (forall y, y ∈ s -> includes rg (key_of y) = true ->
     key_cmp (key_of x) (key_of y) <> Gt) ->
  store_get rg (store_put x s) = Some x.
Proof.
  intros Hs Hx Hmin.
  destruct (proj2 (store_get_is_Some rg (store_put x s))) as [z Hz].
  { exists x. split; [apply store_put_elem | done]. }
  rewrite Hz. f_equal.
  pose proof (store_get_in _ _ _ Hz) as [Hzin Hzi].
  destruct (store_get_least rg _ z x (store_put_sorted _ _ Hs) Hz
              (store_put_elem _ _) Hx) as [->|Hlt]; [done|].
  apply store_put_from in Hzin as [->|Hzin]; [done|].
  exfalso. apply (Hmin z Hzin Hzi). unfold key_lt in Hlt.
  by rewrite key_cmp_antisym, Hlt.
Qed.

Lemma ta_set_whole (a src : Int8Array) :
  length src = length a -> ta_set a src 0 = Some src.
Proof.
  intros H. unfold ta_set, byteLength. rewrite H.
  destruct (Z.ltb_spec (Z.of_nat (length a)) (0 + Z.of_nat (length a)));
    [lia|]. simpl. rewrite drop_all. by rewrite app_nil_r.
Qed.

Lemma subarray_whole (a : Int8Array) :
  subarray a 0 (0 + byteLength a) = a.
Proof.
  rewrite Z.add_0_l, subarray_prefix by (unfold byteLength; lia).
  unfold byteLength. rewrite Nat2Z.id. apply firstn_all.
Qed.

(** X15. What is written is read back: after a write of one whole block
    at a block boundary other than 0, a read of that block returns the
    bytes that were written, and the read-back does not depend on what
    the store held for that block before. *)
Theorem xWrite_block_then_xRead (st : IndexedDbVFS) (fileId : Z)
  (pData : PData) (iOffset : Z) (r : nat) (file : OpenedFileEntry)
  (k n : Z) (buf : Int8Array) :
  file_of_id st fileId = Some (r, file) ->
  isJournal file = false ->
  store_sorted (blocks st) ->
  name (block0 file) = path file ->
  fileSize (block0 file) = Some n ->
  0 < byteLength (data (block0 file)) ->
  1 <= k < 2 ^ 31 ->
  iOffset = k * byteLength (data (block0 file)) ->
  pData_size pData = byteLength (data (block0 file)) ->
  byteLength (pData_value pData) = byteLength (data (block0 file)) ->
  byteLength buf = byteLength (data (block0 file)) ->
  exists st',
    xWrite st fileId pData iOffset = (st', Return SQLITE_OK)
    /\ xRead st' fileId (mkPData (byteLength (data (block0 file))) buf) iOffset
       = (st', pData_value pData, Return SQLITE_OK).
Proof.
  intros Hf Hj Hs Hn Hfs Hbs Hk Hoff Hsz Hlen Hbuf.
  set (bs := byteLength (data (block0 file))) in *.
  assert (Hbi : ToInt32 (iOffset `quot` bs) = k).
  { rewrite block_index_in_range by nia. subst iOffset.
    apply Z.div_mul. lia. }
  set (file1 := with_block0
         (with_fileSize (Math_max (fileSize (block0 file))
                                  (Some (iOffset + pData_size pData)))
                        (block0 file)) file).
  set (blk := with_data (pData_value pData) (fresh_block file1 k)).
  set (file2 := changedPages_add k file1).
  set (st' := store_object r file2
                (idb_put (SBlock blk) (store_object r file1 st))).
  assert (Hw : xWrite st fileId pData iOffset = (st', Return SQLITE_OK)).
  { unfold xWrite. rewrite Hf, Hj.
    assert (Hg : needs_general_write file pData iOffset = false).
    { unfold needs_general_write. cbv zeta. fold bs. rewrite Hbi, Hsz.
      rewrite Z.eqb_refl, andb_false_r, orb_false_r.
      apply negb_false_iff, Z.eqb_eq. done. }
    rewrite Hg. unfold xWrite_fast. cbv zeta. fold bs. rewrite Hbi.
    destruct (Z.eqb_spec k 0); [lia|]. fold file1.
    assert (Hd : ta_set (data (fresh_block file1 k)) (pData_value pData) 0
                 = Some (pData_value pData)).
    { apply ta_set_whole. unfold fresh_block. cbn [data].
      unfold new_Int8Array. rewrite length_replicate.
      change (byteLength (data (block0 file1))) with bs.
      unfold byteLength in Hlen. unfold bs, byteLength in *. lia. }
    rewrite Hd. done. }
  exists st'. split; [done|].
  destruct (changedPages_add_fields k file1) as (G1 & G2 & G3 & _).
  fold file2 in G1, G2, G3.
  assert (Hf' : file_of_id st' fileId = Some (r, file2)).
  { apply file_of_id_store_object. apply (file_of_id_ref _ _ _ _ Hf). }
  unfold xRead. rewrite Hf'. cbn [pData_value pData_size].
  assert (Hj' : isJournal file2 = false) by (unfold isJournal; by rewrite G3).
  rewrite Hj'. cbv zeta. rewrite G1, G2.
  change (data (block0 file1)) with (data (block0 file)). fold bs.
  rewrite Hbi.
  destruct (Z.ltb_spec ((k + 1) * bs) (iOffset + bs)); [lia|].
  change (fileSize (block0 file1))
    with (Math_max (fileSize (block0 file)) (Some (iOffset + pData_size pData))).
  rewrite Hfs. cbn [Math_max num_ge].
  destruct (Z.leb_spec (Z.max n (iOffset + pData_size pData)) iOffset); [lia|].
  assert (Hget : idb_get_block
            (visible_range (path file1) k (version (block0 file1))) st'
            = Some blk).
  { unfold idb_get_block.
    change (blocks st') with (store_put (SBlock blk) (blocks st)).
    rewrite store_get_put_min; [done | done | |].
    - apply visible_range_includes. exists blk.
      repeat split; try done; cbn; lia.
    - intros y Hy Hi. apply includes_lower in Hi.
      change (path file1) with (path file) in Hi. rewrite <- Hn in Hi.
      done. }
  rewrite Hget. destruct (Z.eqb_spec k 0); [lia|].
  cbn [fmap option_fmap option_map].
  assert (Hrem : iOffset `rem` bs = 0) by (subst iOffset; apply Z.rem_mul; lia).
  rewrite Hrem. change (data blk) with (pData_value pData).
  replace (byteLength buf) with (byteLength (pData_value pData)) by lia.
  rewrite subarray_whole, ta_set_whole; [done|].
  unfold byteLength in *. lia.
Qed.

(** ** Publishing a transaction *)




(** ** Journal files *)

Lemma xReadJournal_store (st : IndexedDbVFS) (file : OpenedFileEntry)
  (pData : PData) (iOffset : Z) :
  blocks (fst (fst (xReadJournal st file pData iOffset))) = blocks st
  /\ trace (fst (fst (xReadJournal st file pData iOffset))) = trace st.
Proof.
  destruct (xReadJournal_frame st file pData iOffset) as (i & e & ->). done.
Qed.

(** X17. The journal is never stored: [xRead], [xWrite] and [xSync] on
    a journal file make no request that writes and leave every record
    of the store as it is. *)
Theorem journal_io_keeps_store (st : IndexedDbVFS) (fileId : Z) (r : nat)
  (file : OpenedFileEntry) :
  file_of_id st fileId = Some (r, file) ->
  isJournal file = true ->
  (forall pData iOffset,
     let st' := fst (fst (xRead st fileId pData iOffset)) in
     blocks st' = blocks st /\ trace st' = trace st)
  /\ (forall pData iOffset,
        let st' := fst (xWrite st fileId pData iOffset) in
        blocks st' = blocks st /\ trace st' = trace st)
  /\ (forall flags_, xSync st fileId flags_ = (st, Return SQLITE_OK)).
Proof.
  intros Hf Hj. split; [|split].
  - intros pData iOffset. unfold xRead. rewrite Hf, Hj.
    apply xReadJournal_store.
  - intros pData iOffset. unfold xWrite. rewrite Hf, Hj.
    apply xWriteJournal_store.
  - intros flags_. unfold xSync. by rewrite Hf, Hj.
Qed.

(** ** The sweep of [xLock] and the readers *)

(** X18. The sweep that [xLock] runs at the RESERVED level does not
    change what any reader fetches at the cached version of the
    database file or at a greater version number, for any block; reads
    of other paths are not changed at all, and neither are the
    entries. *)
Theorem xLock_sweep_keeps_visible (st : IndexedDbVFS) (fileId lockResult : Z)
  (r d : nat) (file dbFile : OpenedFileEntry) :
  file_of_id st fileId = Some (r, file) ->
  file_of_path st (getJournalDatabasePath file) = Some (d, dbFile) ->
  let st' := fst (xLock st fileId SQLITE_LOCK_RESERVED lockResult) in
  objects st' = objects st
  /\ forall q i w,
       (q = getJournalDatabasePath file -> version (block0 dbFile) <= w) ->
       idb_get_block (visible_range q i w) st'
       = idb_get_block (visible_range q i w) st.
Proof.
  intros Hf Hdb. unfold xLock. rewrite Hf, Z.eqb_refl. cbn [fst].
  unfold xLock_sweep. rewrite Hdb. cbv zeta.
  split; [apply delete_keys_frame|].
  intros q i w Hw. unfold idb_get_block.
  rewrite (delete_ranges_blocks only).
  rewrite store_get_filter_keep; [done|].
  intros x Hx Hi. apply forallb_forall. intros k Hk.
  apply negb_true_iff. destruct (includes (only k) (key_of x)) eqn:E; [|done].
  apply includes_only in E. subst k.
  apply list_elem_of_In in Hk. unfold index_version_getAllKeys in Hk.
  apply list_elem_of_fmap in Hk as (y & Hk & Hy).
  apply elem_of_filter_bool in Hy as [_ Hy].
  apply sweep_range_includes in Hy as [Hyn Hyv].
  destruct (key_of_name_version _ _ Hk) as [Hname Hver].
  apply visible_range_includes in Hi as (b & -> & Hbn & _ & Hbv).
  simpl in Hname, Hver. exfalso.
  assert (version (block0 dbFile) <= w) by (apply Hw; congruence). lia.
Qed.

(** ** The path of the database of a journal *)

Lemma string_length_app (p s : string) :
  String.length (p ++ s) = (String.length p + String.length s)%nat.
Proof. induction p as [|c p IH]; simpl; [done | by rewrite IH]. Qed.

Lemma substring_skip (p s : string) (m : nat) :
  substring (String.length p) m (p ++ s) = substring 0 m s.
Proof. induction p as [|c p IH]; simpl; [done | apply IH]. Qed.

Lemma substring_prefix (p s : string) :
  substring 0 (String.length p) (p ++ s) = p.
Proof.
  induction p as [|c p IH]; simpl; [by destruct s | by rewrite IH].
Qed.

(** X19. [#getJournalDatabasePath] of a file whose path is a path [p]
    followed by [-journal] is [p], whatever [p] is (also when [p]
    itself contains or ends with [-journal]: one suffix is removed). *)
Theorem getJournalDatabasePath_journal (file : OpenedFileEntry) (p : string) :
  path file = (p ++ "-journal")%string ->
  getJournalDatabasePath file = p.
Proof.
  intros H. unfold getJournalDatabasePath, ends_with. rewrite H. cbv zeta.
  rewrite string_length_app.
  change (String.length "-journal") with 8%nat.
  replace (String.length p + 8 - 8)%nat with (String.length p) by lia.
  rewrite substring_skip.
  destruct (Nat.leb_spec 8 (String.length p + 8)); [|lia].
  cbn [andb substring String.eqb Ascii.eqb Bool.eqb].
  apply substring_prefix.
Qed.

(** ** The pages of the journal *)

Lemma array_get_assign_same (a : list (option Z)) (k x : Z) :
  0 <= k -> array_get (array_assign a k x) k = Some x.
Proof.
  intros Hk. unfold array_get, array_assign.
  destruct (Z.ltb_spec k 0); [lia|]. cbv zeta.
  destruct (Nat.ltb_spec (Z.to_nat k) (length a)).
  - by rewrite list_lookup_insert_eq.
  - rewrite lookup_app_r by lia.
    rewrite lookup_app_r by (rewrite length_replicate; lia).
    rewrite length_replicate.
    by replace (Z.to_nat k - length a - (Z.to_nat k - length a))%nat
      with 0%nat by lia.
Qed.

Lemma array_get_assign_other (a : list (option Z)) (k j x : Z) :
  0 <= k -> j <> k ->
  array_get (array_assign a k x) j = array_get a j.
Proof.
  intros Hk Hne. unfold array_get, array_assign.
  destruct (Z.ltb_spec k 0); [lia|]. cbv zeta.
  destruct (Z.ltb_spec j 0); [done|].
  assert (Hn : Z.to_nat j <> Z.to_nat k) by lia.
  destruct (Nat.ltb_spec (Z.to_nat k) (length a)).
  - by rewrite list_lookup_insert_ne.
  - destruct (decide (Z.to_nat j < length a)%nat).
    + by rewrite lookup_app_l.
    + rewrite lookup_app_r by lia.
      rewrite (lookup_ge_None_2 a) by lia.
      destruct (decide (Z.to_nat j < Z.to_nat k)%nat).
      * rewrite lookup_app_l by (rewrite length_replicate; lia).
        rewrite lookup_replicate_2 by lia. done.
      * rewrite lookup_ge_None_2; [done|].
        rewrite length_app, length_replicate. simpl. lia.
Qed.

Lemma getUint32_nonneg (a : Int8Array) (off s : Z) :
  getUint32 a off = Some s -> 0 <= s.
Proof.
  unfold getUint32. destruct (_ || _); [done|].
  destruct (drop _ a) as [|b0 [|b1 [|b2 [|b3 ?]]]]; try done.
  intros [= <-]. unfold ToUint8.
  pose proof (Z.mod_pos_bound b0 256). pose proof (Z.mod_pos_bound b1 256).
  pose proof (Z.mod_pos_bound b2 256). pose proof (Z.mod_pos_bound b3 256).
  lia.
Qed.

(** X20. A write to a journal file at the beginning of its [k]-th page
    entry, past the header, records the page: the four leading bytes
    hold the page number [n], and afterwards [journalPages[k]] of the
    database file is [n - 1], the other elements are as before, and a
    read at the same offset looks up that page. Nothing is written to
    the store. *)
Theorem xWriteJournal_records_page (st : IndexedDbVFS) (fileId : Z)
  (pData : PData) (iOffset : Z) (r d : nat) (file dbFile : OpenedFileEntry)
  (sectorSize k n : Z) (pages : list (option Z)) :
  file_of_id st fileId = Some (r, file) ->
  isJournal file = true ->
  file_of_path st (getJournalDatabasePath file) = Some (d, dbFile) ->
  getUint32 (data (block0 file)) 20 = Some sectorSize ->
  journalPages dbFile = Some pages ->
  0 <= k < 2 ^ 31 ->
  iOffset = sectorSize + k * (byteLength (data (block0 dbFile)) + 8) ->
  iOffset <> 0 ->
  getUint32 (pData_value pData) 0 = Some n ->
  exists st' file' dbFile',
    xWrite st fileId pData iOffset = (st', Return SQLITE_OK)
    /\ objects st' !! r = Some file'
    /\ objects st' !! d = Some dbFile'
    /\ journalPages dbFile' = Some (array_assign pages k (n - 1))
    /\ array_get (array_assign pages k (n - 1)) k = Some (n - 1)
    /\ (forall j, j <> k ->
          array_get (array_assign pages k (n - 1)) j = array_get pages j)
    /\ looked_up_page file' dbFile' iOffset = Some (Some (n - 1))
    /\ blocks st' = blocks st /\ trace st' = trace st.
Proof.
  intros Hf Hj Hdb Hss Hp Hk Hoff Hnz Hn.
  pose proof (file_of_id_objects _ _ _ _ Hf) as Hr.
  destruct (file_of_path_objects _ _ _ _ Hdb) as [Hpath Hd].
  pose proof (getUint32_nonneg _ _ _ Hss) as Hs0.
  set (es := byteLength (data (block0 dbFile)) + 8) in *.
  assert (Hes : 0 < es) by (unfold es, byteLength; lia).
  assert (Hrem : (iOffset - sectorSize) `rem` es = 0).
  { replace (iOffset - sectorSize) with (k * es) by lia. apply Z.rem_mul. lia. }
  assert (Hquot : (iOffset - sectorSize) `quot` es = k).
  { replace (iOffset - sectorSize) with (k * es) by lia. apply Z.quot_mul. lia. }
  unfold xWrite. rewrite Hf, Hj. unfold xWriteJournal. cbv zeta.
  destruct (Z.eqb_spec iOffset 0); [done|].
  rewrite Hss, Hdb. fold es. rewrite Hrem, Z.eqb_refl, Hn, Hp, Hquot.
  unfold modify_object. cbn [objects with_objects].
  assert (Hlook : forall file' dbFile',
    data (block0 file') = data (block0 file) ->
    data (block0 dbFile') = data (block0 dbFile) ->
    journalPages dbFile' = Some (array_assign pages k (n - 1)) ->
    looked_up_page file' dbFile' iOffset = Some (Some (n - 1))).
  { intros file' dbFile' H1 H2 H3. unfold looked_up_page.
    rewrite H1, Hss, H3, H2. fold es.
    destruct (Z.leb_spec sectorSize iOffset); [|nia].
    rewrite Hquot. unfold ToInt32.
    rewrite Z.mod_small by lia.
    replace (k + 2 ^ 31 - 2 ^ 31) with k by lia.
    by rewrite array_get_assign_same by lia. }
  destruct (decide (r = d)) as [->|Hne].
  - assert (dbFile = file) as -> by congruence.
    eexists _, _, _. split; [reflexivity|].
    cbn [objects with_objects blocks trace].
    rewrite !lookup_alter_eq, Hd. cbn [fmap option_fmap option_map].
    split; [reflexivity|]. split; [reflexivity|]. split; [done|].
    split; [apply array_get_assign_same; lia|].
    split; [intros j Hjk; apply array_get_assign_other; [lia | done]|].
    split; [by apply Hlook | done].
  - eexists _, _, _. split; [reflexivity|].
    cbn [objects with_objects blocks trace].
    rewrite lookup_alter_eq, lookup_alter_ne, Hr by done.
    rewrite lookup_alter_ne, lookup_alter_eq, Hd by done.
    cbn [fmap option_fmap option_map].
    split; [reflexivity|]. split; [reflexivity|]. split; [done|].
    split; [apply array_get_assign_same; lia|].
    split; [intros j Hjk; apply array_get_assign_other; [lia | done]|].
    split; [by apply Hlook | done].
Qed.

Lemma ta_set_eq (a src a' : Int8Array) (off : Z) :
  ta_set a src off = Some a' ->
  a' = take (Z.to_nat off) a ++ src ++ drop (Z.to_nat off + length src) a
  /\ 0 <= off /\ off + Z.of_nat (length src) <= Z.of_nat (length a).
Proof.
  unfold ta_set, byteLength.
  destruct (Z.ltb_spec off 0); [done|].
  destruct (Z.ltb_spec (Z.of_nat (length a)) (off + Z.of_nat (length src)));
    [done|].
  simpl. intros [= <-]. done.
Qed.

Lemma getUint32_prefix (b0 b1 b2 b3 : Z) (l l' : list Z) :
  getUint32 (b0 :: b1 :: b2 :: b3 :: l) 0
  = getUint32 (b0 :: b1 :: b2 :: b3 :: l') 0.
Proof.
  unfold getUint32, byteLength. cbn [length].
  destruct (Z.ltb_spec (Z.of_nat (S (S (S (S (length l)))))) (0 + 4)); [lia|].
  destruct (Z.ltb_spec (Z.of_nat (S (S (S (S (length l')))))) (0 + 4)); [lia|].
  done.
Qed.

(** X21. The page entry that a journal read rebuilds has the layout of
    a rollback journal entry: the page number (the page index plus one)
    in the first four bytes, then the data of the block that was
    fetched, which is a block of the database with that index and a
    version number strictly greater than the current one (a version
    from before the transaction), then four bytes of checksum. *)
Theorem journal_entry_page (st : IndexedDbVFS) (header : Int8Array)
  (dbPath : string) (dbFile : OpenedFileEntry) (b : FileBlock)
  (pageIndex nonce : Z) :
  int8_values (data b) ->
  getUint32 header 12 = Some nonce ->
  idb_get_block (older_range dbPath pageIndex (version (block0 dbFile))) st
  = Some b ->
  byteLength (data b) = byteLength (data (block0 dbFile)) ->
  exists st' entry,
    build_page_entry st header dbPath dbFile
      (byteLength (data (block0 dbFile)) + 8) pageIndex = (st', None)
    /\ this_cachedPageIndex st' = Some pageIndex
    /\ this_cachedPageEntry st' = Some entry
    /\ byteLength entry = byteLength (data b) + 8
    /\ getUint32 entry 0 = Some (ToUint32 (pageIndex + 1))
    /\ subarray entry 4 (4 + byteLength (data b)) = data b
    /\ name b = dbPath /\ index b = pageIndex
    /\ version (block0 dbFile) < version b.
Proof.
  intros Hd Hnonce Hblock Hlen.
  set (ps := byteLength (data (block0 dbFile))) in *.
  assert (Hps : 0 <= ps) by (unfold ps, byteLength; lia).
  unfold build_page_entry. rewrite Hnonce, Hblock. fold ps.
  assert (Hnew : Z.of_nat (length (new_Int8Array (ps + 8))) = ps + 8).
  { unfold new_Int8Array. rewrite length_replicate. lia. }
  unfold byteLength in Hlen.
  destruct (setUint32_Some (new_Int8Array (ps + 8)) 0
              (Some (pageIndex + 1))) as [e1 He1]; [lia | lia |].
  rewrite He1. pose proof (setUint32_length _ _ _ _ He1) as Hl1.
  pose proof (getUint32_setUint32 _ _ _ _ He1) as Hg1.
  destruct (ta_set_Some e1 (data b) 4) as [e2 He2]; [lia | lia |].
  rewrite He2. pose proof (ta_set_length _ _ _ _ He2) as Hl2.
  rewrite (checksum_correct (data b) nonce ps Hd) by (unfold byteLength; lia).
  destruct (setUint32_Some e2 (ps + 8 - 4)
              (Some (nonce + checksum_sum (data b) ps))) as [e3 He3];
    [lia | lia |].
  rewrite He3. pose proof (setUint32_length _ _ _ _ He3) as Hl3.
  eexists _, e3. split; [reflexivity|]. split; [reflexivity|].
  split; [reflexivity|].
  unfold setUint32 in He1, He3.
  apply ta_set_eq in He1 as (E1 & _ & _).
  apply ta_set_eq in He2 as (E2 & _ & _).
  apply ta_set_eq in He3 as (E3 & _ & _).
  cbn [length] in E1, E3. change (Z.to_nat 0) with 0%nat in E1.
  cbn [take] in E1.
  set (w1 := ToUint32 (pageIndex + 1)) in *.
  set (w3 := ToUint32 (nonce + checksum_sum (data b) ps)) in *.
  assert (E2' : e2 = [ToInt8 (w1 / 2 ^ 24); ToInt8 (w1 / 2 ^ 16);
                      ToInt8 (w1 / 2 ^ 8); ToInt8 w1]
                     ++ data b ++ drop (4 + length (data b)) e1).
  { rewrite E2. change (Z.to_nat 4) with 4%nat. by rewrite E1 at 1. }
  assert (E3' : e3 = [ToInt8 (w1 / 2 ^ 24); ToInt8 (w1 / 2 ^ 16);
                      ToInt8 (w1 / 2 ^ 8); ToInt8 w1]
                     ++ data b
                     ++ [ToInt8 (w3 / 2 ^ 24); ToInt8 (w3 / 2 ^ 16);
                         ToInt8 (w3 / 2 ^ 8); ToInt8 w3]
                     ++ drop (Z.to_nat (ps + 8 - 4) + 4) e2).
  { rewrite E3. rewrite E2' at 1.
    replace (Z.to_nat (ps + 8 - 4)) with (4 + length (data b))%nat by lia.
    rewrite (app_assoc _ (data b)).
    rewrite take_app_length' by (rewrite length_app; simpl; lia).
    by rewrite <- !app_assoc. }
  split; [unfold byteLength; lia|]. split; [|split].
  - rewrite E3'. rewrite E1 in Hg1. cbn [app] in *.
    rewrite <- Hg1. apply getUint32_prefix.
  - unfold subarray, relative_index, byteLength. rewrite Hl3, Hl2, Hl1, Hnew.
    destruct (Z.ltb_spec 4 0); [lia|].
    destruct (Z.ltb_spec (4 + Z.of_nat (length (data b))) 0); [lia|].
    rewrite (Z.min_l 4) by lia. rewrite Z.min_l by lia.
    replace (Z.to_nat (4 + Z.of_nat (length (data b)) - 4))
      with (length (data b)) by lia.
    change (Z.to_nat 4) with 4%nat. rewrite E3'. cbn [app drop].
    rewrite drop_0. by rewrite take_app_length.
  - apply idb_get_block_in in Hblock as [_ Hi].
    apply older_range_includes in Hi as (b' & [= <-] & ? & ? & ?). done.
Qed.

(** ** The header of the journal *)

Lemma modify_object_file_of_id (st : IndexedDbVFS) (r' : nat)
  (g : OpenedFileEntry -> OpenedFileEntry) (fileId : Z) (r : nat)
  (f : OpenedFileEntry) :
  file_of_id st fileId = Some (r, f) ->
  exists f', file_of_id (modify_object r' g st) fileId = Some (r, f')
             /\ (f' = f \/ f' = g f).
Proof.
  intros H. pose proof (file_of_id_ref _ _ _ _ H) as Hr.
  pose proof (file_of_id_objects _ _ _ _ H) as Ho.
  unfold file_of_id, modify_object. cbn [mapIdToFile objects with_objects].
  rewrite Hr. cbn [mbind option_bind].
  destruct (decide (r = r')) as [<-|Hne].
  - rewrite lookup_alter_eq, Ho. eexists. split; [reflexivity | by right].
  - rewrite lookup_alter_ne, Ho by done. eexists. split; [reflexivity | by left].
Qed.

Lemma modify_object_file_of_path (st : IndexedDbVFS) (r' : nat)
  (g : OpenedFileEntry -> OpenedFileEntry) (p : string) (r : nat)
  (f : OpenedFileEntry) :
  file_of_path st p = Some (r, f) ->
  exists f', file_of_path (modify_object r' g st) p = Some (r, f')
             /\ (f' = f \/ f' = g f).
Proof.
  intros H. destruct (file_of_path_objects _ _ _ _ H) as [Hr Ho].
  unfold file_of_path, modify_object. cbn [mapPathToFile objects with_objects].
  rewrite Hr. cbn [mbind option_bind].
  destruct (decide (r = r')) as [<-|Hne].
  - rewrite lookup_alter_eq, Ho. eexists. split; [reflexivity | by right].
  - rewrite lookup_alter_ne, Ho by done. eexists. split; [reflexivity | by left].
Qed.

Lemma getUint32_app (src l : Int8Array) (off : Z) :
  0 <= off -> off + 4 <= byteLength src ->
  getUint32 (src ++ l) off = getUint32 src off.
Proof.
  intros H0 H4. unfold getUint32, byteLength in *. rewrite length_app.
  destruct (Z.ltb_spec off 0); [lia|].
  destruct (Z.ltb_spec (Z.of_nat (length src + length l)) (off + 4)); [lia|].
  destruct (Z.ltb_spec (Z.of_nat (length src)) (off + 4)); [lia|].
  cbn [orb]. rewrite drop_app_le by lia.
  destruct (drop (Z.to_nat off) src) as [|b0 [|b1 [|b2 [|b3 t]]]] eqn:E;
    try done;
    apply (f_equal length) in E; rewrite length_drop in E; simpl in E; lia.
Qed.

(** X22. The header of the journal is read back as written: after a
    write at offset 0 of a journal file that carries the sector size (at
    least 24 bytes, no more than the in-memory header holds), with the
    database file open, a read of that many bytes at offset 0 returns
    the bytes that were written. *)
Theorem journal_header_round_trip (st : IndexedDbVFS) (fileId : Z)
  (pData : PData) (r d : nat) (file dbFile : OpenedFileEntry) (s : Z)
  (buf : Int8Array) :
  file_of_id st fileId = Some (r, file) ->
  isJournal file = true ->
  file_of_path st (getJournalDatabasePath file) = Some (d, dbFile) ->
  byteLength (pData_value pData) = pData_size pData ->
  24 <= pData_size pData <= byteLength (data (block0 file)) ->
  getUint32 (pData_value pData) 20 = Some s ->
  0 < s ->
  byteLength buf = pData_size pData ->
  exists st',
    xWrite st fileId pData 0 = (st', Return SQLITE_OK)
    /\ xRead st' fileId (mkPData (pData_size pData) buf) 0
       = (st', pData_value pData, Return SQLITE_OK).
Proof.
  intros Hf Hj Hdb Hlen Hsz Hs Hpos Hbuf.
  destruct (file_of_path_objects _ _ _ _ Hdb) as [Hpath _].
  set (src := pData_value pData) in *.
  set (h' := src ++ drop (length src) (data (block0 file))).
  unfold byteLength in Hlen, Hsz, Hbuf.
  assert (Hcopy : ta_set (data (block0 file))
                    (subarray src 0 (byteLength (data (block0 file)))) 0
                  = Some h').
  { rewrite header_copy. by rewrite take_ge by lia. }
  (* the entries after the write *)
  assert (Hw : exists st' file' dbFile',
    xWrite st fileId pData 0 = (st', Return SQLITE_OK)
    /\ file_of_id st' fileId = Some (r, file')
    /\ keeps_header h' file file'
    /\ file_of_path st' (getJournalDatabasePath file) = Some (d, dbFile')).
  { unfold xWrite. rewrite Hf, Hj. unfold xWriteJournal. cbv zeta.
    rewrite Z.eqb_refl. fold src. rewrite Hcopy, Hpath.
    destruct (modify_object_file_of_id st r
                (fun f => with_block0 (with_data h' (block0 f)) f)
                _ _ _ Hf) as (f1 & Hf1 & Hk1).
    assert (K1 : keeps_header h' file f1).
    { unfold file_of_id, modify_object in Hf1.
      cbn [mapIdToFile objects with_objects] in Hf1.
      rewrite (file_of_id_ref _ _ _ _ Hf) in Hf1. cbn in Hf1.
      rewrite lookup_alter_eq, (file_of_id_objects _ _ _ _ Hf) in Hf1.
      by injection Hf1 as <-. }
    destruct (modify_object_file_of_path st r
                (fun f => with_block0 (with_data h' (block0 f)) f)
                _ _ _ Hdb) as (g1 & Hg1 & _).
    assert (Hstep : forall st0 f0 g0 r0 (g : OpenedFileEntry -> OpenedFileEntry),
      (forall f, keeps_header h' file f -> keeps_header h' file (g f)) ->
      file_of_id st0 fileId = Some (r, f0) -> keeps_header h' file f0 ->
      file_of_path st0 (getJournalDatabasePath file) = Some (d, g0) ->
      exists f0' g0',
        file_of_id (modify_object r0 g st0) fileId = Some (r, f0')
        /\ keeps_header h' file f0'
        /\ file_of_path (modify_object r0 g st0) (getJournalDatabasePath file)
           = Some (d, g0')).
    { intros st0 f0 g0 r0 g Hg H1 H2 H3.
      destruct (modify_object_file_of_id st0 r0 g _ _ _ H1) as (f0' & ? & [->| ->]);
        destruct (modify_object_file_of_path st0 r0 g _ _ _ H3) as (g0' & ? & _);
        eexists _, _; eauto. }
    set (fs := fun f : OpenedFileEntry =>
                 with_block0
                   (with_fileSize
                      (Math_max (fileSize (block0 f))
                                (Some (0 + pData_size pData)))
                      (block0 f)) f).
    assert (Kfs : forall f, keeps_header h' file f -> keeps_header h' file (fs f))
      by (intros f (? & ? & ?); done).
    destruct (match ta_get h' 0 with
              | Some b => negb (b =? 0)
              | None => false
              end).
    - edestruct Hstep as (f2 & g2 & Hf2 & K2 & Hg2);
        [| exact Hf1 | exact K1 | exact Hg1 |].
      { intros f (? & ? & ?).
        exact (conj (A := data (block0
                 (with_changedPages (Some ∅) (with_journalPages (Some []) f)))
                 = h') H (conj H0 H1)). }
      edestruct Hstep as (f3 & g3 & Hf3 & K3 & Hg3);
        [| exact Hf2 | exact K2 | exact Hg2 |].
      { intros f (? & ? & ?).
        exact (conj (A := data (block0 (with_cache (Some (-1)) None f)) = h')
                 H (conj H0 H1)). }
      edestruct Hstep as (f4 & g4 & Hf4 & K4 & Hg4);
        [| exact Hf3 | exact K3 | exact Hg3 |].
      { intros f (? & ? & ?).
        exact (conj (A := data (block0 (with_block0
                 (with_version (version (block0 f) - 1) (block0 f)) f)) = h')
                 H (conj H0 H1)). }
      edestruct (Hstep _ _ _ r fs Kfs Hf4 K4 Hg4) as (f5 & g5 & Hf5 & K5 & Hg5).
      eexists _, f5, g5. split; [reflexivity|]. done.
    - edestruct (Hstep _ _ _ r fs Kfs Hf1 K1 Hg1) as (f5 & g5 & Hf5 & K5 & Hg5).
      eexists _, f5, g5. split; [reflexivity|]. done. }
  destruct Hw as (st' & file' & dbFile' & Hw & Hf' & (Kd & Kf & Kp) & Hdb').
  exists st'. split; [done|].
  unfold xRead. rewrite Hf'.
  assert (Hj' : isJournal file' = true) by (unfold isJournal; by rewrite Kf).
  rewrite Hj'. unfold xReadJournal. cbv zeta. cbn [pData_value pData_size].
  assert (Hp' : getJournalDatabasePath file' = getJournalDatabasePath file)
    by (unfold getJournalDatabasePath; by rewrite Kp).
  rewrite Hp', Kd, Hdb'.
  unfold h' at 1. rewrite getUint32_app, Hs by (unfold byteLength; lia).
  destruct (Z.leb_spec s 0); [lia|].
  assert (Hsub : subarray h' 0 (0 + pData_size pData) = src).
  { rewrite Z.add_0_l, subarray_prefix by lia. unfold h'.
    by rewrite take_app_length' by lia. }
  rewrite Hsub, ta_set_whole by lia. done.
Qed.

(** ** Commit and purge *)

(** What [xSync] leaves in the store of a block written at the current
    version, and of the versions recorded in the purge record. *)
Lemma xSync_callback_purge_bounds (file : OpenedFileEntry) (st : IndexedDbVFS)
  (b : FileBlock) :
  SBlock b ∈ blocks st ->
  index b <> index (block0 file) ->
  (forall pb t, idb_get_purge (path file) st = Some pb ->
     purge_data pb !! index b = Some t -> version (block0 file) <= t) ->
  SBlock b ∈ blocks (xSync_callback file st)
  /\ (forall pb t, idb_get_purge (path file) (xSync_callback file st) = Some pb ->
        purge_data pb !! index b = Some t -> version (block0 file) <= t).
Proof.
  intros Hb Hi Hp.
  assert (Hk : key_of (SBlock b) <> key_of (SBlock (block0 file)))
    by (simpl; congruence).
  assert (H1 : SBlock b ∈ blocks (idb_put (SBlock (block0 file)) st)
          /\ (forall pb t,
                idb_get_purge (path file) (idb_put (SBlock (block0 file)) st)
                = Some pb ->
                purge_data pb !! index b = Some t ->
                version (block0 file) <= t)).
  { split; [by apply store_put_keeps|].
    intros pb t. rewrite idb_get_purge_put_block. apply Hp. }
  destruct (changedPages file) as [changed|] eqn:Ec;
    [|by rewrite xSync_callback_no_transaction].
  destruct (journalPages file) as [pages|] eqn:Ej;
    [|unfold xSync_callback; by rewrite Ec, Ej].
  destruct (xSync_callback_transaction file st changed pages Ec Ej)
    as (pb & Hbl & _ & _ & Hkey & Hdata).
  split.
  - rewrite Hbl. apply store_put_keeps; [by apply store_put_keeps|].
    rewrite Hkey. apply block_key_not_purge_key.
  - intros pb' t. unfold idb_get_purge. rewrite Hbl, <- Hkey.
    rewrite store_get_put_same. intros [= <-]. rewrite Hdata.
    destruct (bool_decide _); [intros [= <-]; lia|].
    unfold purge_record_or_new.
    destruct (idb_get_purge (path file) st) as [pb1|] eqn:E1; simpl.
    + by apply Hp.
    + by rewrite lookup_empty.
Qed.

(** X23. Commit and purge keep what was written: a block other than
    block 0 that is in the store at the current version of the file is
    still what a read at that version fetches after [xSync] followed by
    [purge], provided the versions that an earlier purge record names
    for its page are not below (newer than) the current one. *)
Theorem commit_then_purge_keeps_block (st : IndexedDbVFS) (fileId flags_ : Z)
  (r : nat) (file : OpenedFileEntry) (b : FileBlock) :
  file_of_id st fileId = Some (r, file) ->
  isJournal file = false ->
  store_sorted (blocks st) ->
  index (block0 file) = 0 ->
  SBlock b ∈ blocks st ->
  name b = path file -> index b <> 0 -> version b = version (block0 file) ->
  (forall pb t, idb_get_purge (path file) st = Some pb ->
     purge_data pb !! index b = Some t -> version (block0 file) <= t) ->
  idb_get_block (visible_range (path file) (index b) (version (block0 file)))
                (purge (fst (xSync st fileId flags_)) (path file))
  = Some b.
Proof.
  intros Hf Hj Hs H0 Hb Hn Hi Hv Hp.
  pose proof (xSync_sorted st fileId flags_ Hs) as Hs1.
  assert (Hfacts : SBlock b ∈ blocks (fst (xSync st fileId flags_))
    /\ (forall pb t,
          idb_get_purge (path file) (fst (xSync st fileId flags_)) = Some pb ->
          purge_data pb !! index b = Some t -> version (block0 file) <= t)).
  { unfold xSync. rewrite Hf, Hj. cbn [negb fst].
    destruct (xSync_callback_purge_bounds file st b Hb ltac:(congruence) Hp)
      as [H1 H2].
    by destruct (durability _). }
  destruct Hfacts as [Hb1 Hp1].
  set (st1 := fst (xSync st fileId flags_)) in *.
  assert (Hin : includes (visible_range (path file) (index b)
                            (version (block0 file))) (key_of (SBlock b)) = true).
  { apply visible_range_includes. exists b. repeat split; try done. lia. }
  unfold idb_get_block. rewrite purge_visible; [|done|].
  - destruct (proj2 (store_get_is_Some
                (visible_range (path file) (index b) (version (block0 file)))
                (blocks st1))) as [z Hz]; [by exists (SBlock b)|].
    rewrite Hz.
    destruct (store_get_least _ _ _ (SBlock b) Hs1 Hz Hb1 Hin) as [<-|Hlt];
      [done|].
    apply store_get_in in Hz as [_ Hzi].
    apply visible_range_includes in Hzi as (c & -> & Hcn & Hci & Hcv).
    unfold key_lt in Hlt. simpl in Hlt.
    rewrite Hcn, Hn, string_compare_refl, Hci, Z.compare_refl in Hlt.
    destruct (Z.compare_spec (version c) (version b)); try done; lia.
  - intros pb t Hpb Ht. exists b. repeat split; try done; try lia.
    specialize (Hp1 pb t Hpb Ht). lia.
Qed.

(** ** The general paths on the inputs of the fast paths *)

(** X24. [#xReadGeneral] agrees with the fast path of [xRead]: for a
    read that lies inside one block and inside the file, of a block
    that is in the store, both give the same buffer, the same status
    and the same state. *)
Theorem xReadGeneral_single_block (st : IndexedDbVFS) (fileId : Z)
  (pData : PData) (iOffset : Z) (r : nat) (file : OpenedFileEntry)
  (n : Z) (b : FileBlock) :
  file_of_id st fileId = Some (r, file) ->
  isJournal file = false ->
  0 < byteLength (data (block0 file)) ->
  0 <= iOffset < 2 ^ 31 * byteLength (data (block0 file)) ->
  0 < pData_size pData ->
  byteLength (pData_value pData) = pData_size pData ->
  iOffset + pData_size pData
  <= (iOffset `div` byteLength (data (block0 file)) + 1)
     * byteLength (data (block0 file)) ->
  fileSize (block0 file) = Some n ->
  iOffset + pData_size pData <= n ->
  idb_get_block
    (visible_range (path file) (iOffset `div` byteLength (data (block0 file)))
                   (version (block0 file))) st = Some b ->
  xReadGeneral st r file pData iOffset = xRead st fileId pData iOffset.
Proof.
  intros Hf Hj Hbs Hoff Hsz Hlen Hone Hfs Hn Hb.
  set (bs := byteLength (data (block0 file))) in *.
  set (sz := pData_size pData) in *.
  set (buf := pData_value pData) in *.
  pose proof (fetched_not_newer st file (iOffset `div` bs)) as Hv.
  fold bs in Hv. rewrite Hb in Hv. cbn [default from_option id] in Hv.
  pose proof (Z.mod_pos_bound iOffset bs Hbs) as Hmod.
  pose proof (Z.div_mod iOffset bs ltac:(lia)) as Hdm.
  assert (Hrem : iOffset `rem` bs = iOffset `mod` bs)
    by (apply Z.rem_mod_nonneg; lia).
  assert (Hmin : Z.min (bs - iOffset `rem` bs) sz = sz) by (rewrite Hrem; nia).
  assert (Hri : relative_index (byteLength buf) 0 = 0).
  { unfold relative_index, byteLength. cbn [Z.ltb Z.compare]. lia. }
  set (blk := if iOffset `div` bs =? 0 then block0 file else b).
  set (common := match ta_set buf (subarray (data blk) (iOffset `rem` bs)
                                     (iOffset `rem` bs + sz)) 0 with
                 | Some buf' => (st, buf', Return SQLITE_OK)
                 | None => (st, buf, Throw RangeError)
                 end).
  transitivity common.
  - unfold xReadGeneral. cbv zeta. fold bs sz buf. rewrite Hfs.
    cbn [Math_min num_sub].
    replace (Z.min (iOffset + sz) n - Z.min iOffset n) with sz by lia.
    cbn [xReadGeneral_loop]. cbv zeta.
    destruct (Z.eqb_spec sz 0); [lia|].
    rewrite Hb, Hmin. cbn [default from_option id]. rewrite Hv.
    unfold view_set. rewrite Hri. unfold common, blk.
    destruct (iOffset `div` bs =? 0);
      (destruct (ta_set _ _ _) as [buf'|]; [|done]);
      replace (sz - sz) with 0 by lia;
      (destruct (Z.to_nat (Z.abs sz)); cbn [xReadGeneral_loop Z.eqb];
       rewrite Z.add_0_l, Z.eqb_refl; done).
  - unfold xRead. rewrite Hf, Hj. cbv zeta. fold bs sz buf.
    rewrite block_index_in_range by done.
    destruct (Z.ltb_spec ((iOffset `div` bs + 1) * bs) (iOffset + sz)); [lia|].
    rewrite Hfs. cbn [num_ge].
    destruct (Z.leb_spec n iOffset); [lia|].
    rewrite Hb. unfold common, blk. rewrite Hlen.
    destruct (iOffset `div` bs =? 0); cbn [fmap option_fmap option_map].
    + rewrite Hv. done.
    + done.
Qed.

Lemma store_object_twice (r : nat) (f g : OpenedFileEntry) (st : IndexedDbVFS) :
  store_object r f (store_object r g st) = store_object r f st.
Proof.
  unfold store_object, with_objects. cbn. by rewrite insert_insert_eq.
Qed.

(** X25. [#xWriteGeneral] agrees with the fast path of [xWrite]: for a
    write of one whole block at a block boundary, the read-modify-write
    loop fetches nothing and leaves the same state, with the same
    requests, as the direct write. *)
Theorem xWriteGeneral_full_block (st : IndexedDbVFS) (r : nat)
  (file : OpenedFileEntry) (pData : PData) (iOffset k : Z) :
  0 < byteLength (data (block0 file)) ->
  0 <= k < 2 ^ 31 ->
  iOffset = k * byteLength (data (block0 file)) ->
  pData_size pData = byteLength (data (block0 file)) ->
  byteLength (pData_value pData) = byteLength (data (block0 file)) ->
  xWriteGeneral st r file pData iOffset = xWrite_fast st r file pData iOffset.
Proof.
  intros Hbs Hk Hoff Hsz Hlen.
  set (bs := byteLength (data (block0 file))) in *.
  set (src := pData_value pData) in *.
  assert (Hbi : ToInt32 (iOffset `quot` bs) = k).
  { rewrite block_index_in_range by nia. subst iOffset. apply Z.div_mul. lia. }
  assert (Hdiv : iOffset `div` bs = k)
    by (subst iOffset; apply Z.div_mul; lia).
  assert (Hrem : iOffset `rem` bs = 0)
    by (subst iOffset; apply Z.rem_mul; lia).
  assert (Hsub : subarray src 0 (0 + bs) = src)
    by (rewrite <- Hlen; apply subarray_whole).
  assert (Hsl : length src = length (data (block0 file)))
    by (unfold bs, byteLength in Hlen; lia).
  unfold xWriteGeneral, xWrite_fast. cbv zeta. fold bs src.
  rewrite Hbi, Hlen.
  destruct (length src) as [|m] eqn:Em;
    [unfold bs, byteLength in Hbs; lia|].
  cbn [xWriteGeneral_loop]. cbv zeta.
  destruct (Z.eqb_spec bs 0); [lia|].
  rewrite Hdiv, Hrem, Z.sub_0_r, Z.min_id, Hsub, Z.ltb_irrefl, andb_false_r.
  replace (bs - bs) with 0 by lia.
  destruct (Z.eqb_spec k 0) as [->|Hk0].
  - cbn [data with_block0 with_fileSize block0].
    rewrite ta_set_whole by (by rewrite Em).
    destruct m; cbn [xWriteGeneral_loop Z.eqb];
      rewrite store_object_twice, (store_object_twice r _ _ st);
      f_equal; f_equal; unfold changedPages_add;
      cbn [changedPages with_block0]; by destruct (changedPages file).
  - assert (Hfresh : ta_set (data (fresh_block file k)) src 0 = Some src).
    { apply ta_set_whole. unfold fresh_block, new_Int8Array. cbn [data].
      rewrite length_replicate. fold bs. unfold byteLength in Hlen. lia. }
    rewrite Hfresh.
    change (data (fresh_block
              (with_block0 (with_fileSize
                 (Math_max (fileSize (block0 file)) (Some (iOffset + pData_size pData)))
                 (block0 file)) file) k))
      with (data (fresh_block file k)).
    rewrite Hfresh.
    destruct m; cbn [xWriteGeneral_loop Z.eqb];
      rewrite store_object_twice;
      match goal with
      | |- (_, _) = (store_object r ?f (idb_put ?x (store_object r ?g st)), _) =>
          change (idb_put x (store_object r g st))
            with (store_object r g (idb_put x st));
          rewrite (store_object_twice r f g)
      end;
      f_equal; f_equal; unfold changedPages_add;
      cbn [changedPages with_block0]; by destruct (changedPages file).
Qed.

(** X26. Reads and writes of a database file end: with a positive
    block size, an offset and a size that are not negative, [xRead] and
    [xWrite] return a status or raise an exception; the loops of the
    general paths do not run on. *)
Theorem database_io_ends (st : IndexedDbVFS) (fileId : Z) (pData : PData)
  (iOffset : Z) (r : nat) (file : OpenedFileEntry) :
  file_of_id st fileId = Some (r, file) ->
  isJournal file = false ->
  0 < byteLength (data (block0 file)) ->
  0 <= iOffset ->
  0 <= pData_size pData ->
  snd (xRead st fileId pData iOffset) <> Diverge
  /\ snd (xWrite st fileId pData iOffset) <> Diverge.
Proof.
  intros Hf Hj Hbs Hoff Hsz. split.
  - unfold xRead. rewrite Hf, Hj. cbv zeta.
    destruct (_ <? _); [by apply xReadGeneral_ends|].
    destruct (num_ge _ _); [done|].
    destruct (_ =? 0); destruct (idb_get_block _ st) as [b|];
      cbn [fmap option_fmap option_map]; try done.
    + destruct (_ <? _); by destruct (ta_set _ _ _).
    + by destruct (ta_set _ _ _).
  - unfold xWrite. rewrite Hf, Hj.
    destruct (needs_general_write _ _ _); [by apply xWriteGeneral_ends|].
    unfold xWrite_fast. cbv zeta.
    destruct (_ =? 0); by destruct (ta_set _ _ _).
Qed.

(** ** The further theorems at concrete inputs *)

Lemma xOpen_existing_file_witness :
  committed_block0 "/db" (blocks Example.opened) = Some Example.db_block0
  /\ exists st' r,
       xOpen Example.opened (Some "/db") 3 262 = (Some st', Return SQLITE_OK)
       /\ file_of_id st' 3 = Some (r, new_entry "/db" 262 Example.db_block0).
Proof.
  assert (H : committed_block0 "/db" (blocks Example.opened)
              = Some Example.db_block0) by (vm_compute; reflexivity).
  split; [exact H|].
  destruct (xOpen_existing_file Example.opened "/db" 3 262 Example.db_block0
              (proj1 example_stores_sorted) H)
    as (st' & r & Hret & Hf & _).
  exists st', r. split; [exact Hret | exact Hf].
Defined.

Lemma xOpen_create_close_reopen_witness :
  committed_block0 "/other" (blocks Example.opened) = None
  /\ exists st1 st2 r,
       xOpen Example.opened (Some "/other") 3 262 = (Some st1, Return SQLITE_OK)
       /\ xOpen (fst (xClose st1 3)) (Some "/other") 4 258
          = (Some st2, Return SQLITE_OK)
       /\ file_of_id st2 4
          = Some (r, new_entry "/other" 258 (created_block0 "/other")).
Proof.
  assert (H : committed_block0 "/other" (blocks Example.opened) = None)
    by (vm_compute; reflexivity).
  split; [exact H|].
  destruct (xOpen_create_close_reopen Example.opened "/other" 3 4 262 258 H)
    as (st1 & st2 & r & H1 & _ & H2 & H3 & _).
  - vm_compute. reflexivity.
  - vm_compute. discriminate.
  - vm_compute. reflexivity.
  - vm_compute. reflexivity.
  - exists st1, st2, r. split; [exact H1|]. split; [exact H2 | exact H3].
Defined.

Lemma xOpen_creates_journal_in_memory_witness :
  committed_block0 "/new-journal" (blocks Example.created) = None
  /\ exists st' r,
       xOpen Example.created (Some "/new-journal") 2 2054
       = (Some st', Return SQLITE_OK)
       /\ file_of_id st' 2
          = Some (r, new_entry "/new-journal" 2054
                       (created_block0 "/new-journal"))
       /\ blocks st' = blocks Example.created.
Proof.
  assert (H : committed_block0 "/new-journal" (blocks Example.created) = None)
    by (vm_compute; reflexivity).
  split; [exact H|].
  destruct (xOpen_creates_journal_in_memory Example.created "/new-journal"
              2 2054 H)
    as (st' & r & H1 & H2 & H3 & _).
  - vm_compute. discriminate.
  - vm_compute. discriminate.
  - exists st', r. split; [exact H1|]. split; [exact H2 | exact H3].
Defined.

Lemma xClose_effect_witness :
  file_of_id Example.opened 1 = Some (0%nat, Example.db_file)
  /\ exists st',
       xClose Example.opened 1 = (st', Return SQLITE_OK)
       /\ file_of_id st' 1 = None
       /\ file_of_path st' (path Example.db_file) = None.
Proof.
  assert (H : file_of_id Example.opened 1 = Some (0%nat, Example.db_file))
    by (vm_compute; reflexivity).
  split; [exact H|].
  destruct (xClose_effect Example.opened 1 0%nat Example.db_file H)
    as (st' & H1 & H2 & H3 & _).
  exists st'. split; [exact H1|]. split; [exact H2 | exact H3].
Defined.

Lemma purge_effect_witness :
  idb_get_purge "/db" Example.synced = Some Example.synced_purge
  /\ idb_get_purge "/db" (purge Example.synced "/db") = None.
Proof.
  assert (H : idb_get_purge "/db" Example.synced = Some Example.synced_purge)
    by (vm_compute; reflexivity).
  split; [exact H|].
  exact (proj1 (proj2 (proj2
           (purge_effect Example.synced "/db" Example.synced_purge H)))).
Defined.

Lemma purge_keeps_visible_block_witness :
  store_sorted (blocks Example.synced)
  /\ idb_get_block (visible_range "/db" 1 (-1)) (purge Example.synced "/db")
     = idb_get_block (visible_range "/db" 1 (-1)) Example.synced.
Proof.
  assert (H : store_sorted (blocks Example.synced))
    by exact (proj2 (proj2 example_stores_sorted)).
  split; [exact H|].
  refine (proj1 (purge_keeps_visible_block Example.synced "/db" 1 (-1) H _)).
  intros pb t Hpb Ht.
  assert (Hs : idb_get_purge "/db" Example.synced = Some Example.synced_purge)
    by (vm_compute; reflexivity).
  rewrite Hs in Hpb. injection Hpb as <-.
  assert (t = -1) as -> by (vm_compute in Ht; congruence).
  exists Example.written_block1. split.
  - apply (list_elem_of_lookup_2 _ 2%nat). vm_compute. reflexivity.
  - split; [reflexivity|]. split; [reflexivity|]. simpl. lia.
Defined.

Lemma pending_purges_invariant_witness :
  purges_scheduled Example.eager_written
  /\ idleTasks Example.scheduled = ["/db"%string]
  /\ purges_scheduled Example.scheduled
  /\ purges_scheduled (run_idle_task Example.scheduled)
  /\ idleTasks (run_idle_task Example.scheduled) = []
  /\ ("/db"%string ∉ pendingPurges (run_idle_task Example.scheduled))
  /\ maybePurge "/db" 100 Example.scheduled = Example.scheduled.
Proof.
  assert (H0 : purges_scheduled Example.eager_written).
  { split; [constructor|]. intros n. split; intros Hn.
    - by apply elem_of_nil in Hn.
    - by apply elem_of_empty in Hn. }
  assert (Hi : idleTasks Example.scheduled = ["/db"%string])
    by (vm_compute; reflexivity).
  assert (H1 : purges_scheduled Example.scheduled)
    by exact (proj1 (proj2 (pending_purges_invariant Example.eager_written H0))
                1 0).
  destruct (pending_purges_invariant Example.scheduled H1)
    as (_ & _ & H2 & H3 & H4).
  destruct (H4 "/db"%string [] Hi) as [H5 H6].
  split; [exact H0|]. split; [exact Hi|]. split; [exact H1|].
  split; [exact H2|]. split; [exact H5|]. split; [exact H6|].
  apply H3. right. apply (proj2 H1). rewrite Hi. left.
Defined.

Lemma xRead_database_keeps_state_witness :
  file_of_id Example.opened 1 = Some (0%nat, Example.db_file)
  /\ fst (fst (xRead Example.opened 1 (mkPData 8192 (new_Int8Array 8192)) 0))
     = Example.opened.
Proof.
  assert (H : file_of_id Example.opened 1 = Some (0%nat, Example.db_file))
    by (vm_compute; reflexivity).
  split; [exact H|].
  apply (xRead_database_keeps_state Example.opened 1
           (mkPData 8192 (new_Int8Array 8192)) 0 0%nat Example.db_file H).
  vm_compute. reflexivity.
Defined.

Lemma xWrite_block_then_xRead_witness :
  file_of_id Example.opened 1 = Some (0%nat, Example.db_file)
  /\ exists st',
       xWrite Example.opened 1 (mkPData 4096 (replicate (Z.to_nat 4096) 9)) 4096
       = (st', Return SQLITE_OK)
       /\ xRead st' 1
            (mkPData (byteLength (data (block0 Example.db_file)))
                     (new_Int8Array 4096)) 4096
          = (st', replicate (Z.to_nat 4096) 9, Return SQLITE_OK).
Proof.
  assert (H : file_of_id Example.opened 1 = Some (0%nat, Example.db_file))
    by (vm_compute; reflexivity).
  split; [exact H|].
  apply (xWrite_block_then_xRead Example.opened 1
           (mkPData 4096 (replicate (Z.to_nat 4096) 9)) 4096 0%nat
           Example.db_file 1 8192 (new_Int8Array 4096) H).
  - vm_compute. reflexivity.
  - exact (proj1 example_stores_sorted).
  - reflexivity.
  - reflexivity.
  - vm_compute. reflexivity.
  - lia.
  - vm_compute. reflexivity.
  - vm_compute. reflexivity.
  - vm_compute. reflexivity.
  - vm_compute. reflexivity.
Defined.

Lemma xWrite_extends_file_witness :
  file_of_id Example.opened 1 = Some (0%nat, Example.db_file)
  /\ xFileSize
       (fst (xWrite Example.opened 1 (mkPData 100 (replicate 100 1)) 8192)) 1
     = Some (Some 8292).
Proof.
  assert (H : file_of_id Example.opened 1 = Some (0%nat, Example.db_file))
    by (vm_compute; reflexivity).
  split; [exact H|].
  destruct (xWrite_extends_file Example.opened 1
              (mkPData 100 (replicate 100 1)) 8192 0%nat Example.db_file H)
    as (file' & _ & _ & Hsize & _).
  - vm_compute. reflexivity.
  - lia.
  - simpl. lia.
  - vm_compute. reflexivity.
  - vm_compute. reflexivity.
  - exact Hsize.
Defined.

Lemma fast_write_invisible_witness :
  file_of_id Example.opened 1 = Some (0%nat, Example.db_file)
  /\ idb_get_block (visible_range "/db" 1 1)
       (fst (xWrite Example.opened 1
               (mkPData 4096 (replicate (Z.to_nat 4096) 9)) 4096))
     = idb_get_block (visible_range "/db" 1 1) Example.opened.
Proof.
  assert (H : file_of_id Example.opened 1 = Some (0%nat, Example.db_file))
    by (vm_compute; reflexivity).
  split; [exact H|].
  refine (proj1 (fast_write_invisible Example.opened 1
                   (mkPData 4096 (replicate (Z.to_nat 4096) 9)) 4096 0%nat
                   Example.db_file H _ _ "/db" 1 1 _) _).
  - vm_compute. reflexivity.
  - vm_compute. reflexivity.
  - simpl. lia.
  - simpl. lia.
Defined.


Lemma journal_io_keeps_store_witness :
  file_of_id Example.opened 2 = Some (1%nat, Example.journal_file)
  /\ blocks (fst (xWrite Example.opened 2 (mkPData 28 Example.header) 0))
     = blocks Example.opened.
Proof.
  assert (H : file_of_id Example.opened 2 = Some (1%nat, Example.journal_file))
    by (vm_compute; reflexivity).
  split; [exact H|].
  refine (proj1 (proj1 (proj2 (journal_io_keeps_store Example.opened 2 1%nat
                   Example.journal_file H _))
                   (mkPData 28 Example.header) 0)).
  vm_compute. reflexivity.
Defined.

Lemma xWriteJournal_records_page_witness :
  file_of_id Example.begun 2 = Some (1%nat, Example.begun_journal_file)
  /\ exists st' file' dbFile',
       xWrite Example.begun 2 (mkPData 4 [0; 0; 0; 2]) 4096
       = (st', Return SQLITE_OK)
       /\ objects st' !! 0%nat = Some dbFile'
       /\ journalPages dbFile' = Some (array_assign [] 0 (2 - 1))
       /\ looked_up_page file' dbFile' 4096 = Some (Some (2 - 1)).
Proof.
  assert (H : file_of_id Example.begun 2
              = Some (1%nat, Example.begun_journal_file))
    by (vm_compute; reflexivity).
  split; [exact H|].
  destruct (xWriteJournal_records_page Example.begun 2
              (mkPData 4 [0; 0; 0; 2]) 4096 1%nat 0%nat
              Example.begun_journal_file Example.begun_db_file 4096 0 2 [] H)
    as (st' & file' & dbFile' & H1 & _ & H2 & H3 & _ & _ & H4 & _).
  - vm_compute. reflexivity.
  - vm_compute. reflexivity.
  - vm_compute. reflexivity.
  - vm_compute. reflexivity.
  - lia.
  - vm_compute. reflexivity.
  - discriminate.
  - vm_compute. reflexivity.
  - exists st', file', dbFile'.
    split; [exact H1|]. split; [exact H2|]. split; [exact H3 | exact H4].
Defined.

Lemma journal_entry_page_witness :
  idb_get_block
    (older_range "/db" 1 (version (block0 Example.written_db_file)))
    Example.written = Some Example.db_block1
  /\ exists st' entry,
       build_page_entry Example.written Example.header "/db"
         Example.written_db_file
         (byteLength (data (block0 Example.written_db_file)) + 8) 1
       = (st', None)
       /\ this_cachedPageEntry st' = Some entry
       /\ getUint32 entry 0 = Some (ToUint32 (1 + 1))
       /\ subarray entry 4 (4 + byteLength (data Example.db_block1))
          = data Example.db_block1.
Proof.
  assert (H : idb_get_block
                (older_range "/db" 1 (version (block0 Example.written_db_file)))
                Example.written = Some Example.db_block1)
    by (vm_compute; reflexivity).
  split; [exact H|].
  destruct (journal_entry_page Example.written Example.header "/db"
              Example.written_db_file Example.db_block1 1 5)
    as (st' & entry & H1 & _ & H2 & _ & H3 & H4 & _).
  - apply Forall_replicate. lia.
  - vm_compute. reflexivity.
  - exact H.
  - vm_compute. reflexivity.
  - exists st', entry.
    split; [exact H1|]. split; [exact H2|]. split; [exact H3 | exact H4].
Defined.

Lemma getJournalDatabasePath_journal_witness :
  path Example.journal_file = ("/db" ++ "-journal")%string
  /\ getJournalDatabasePath Example.journal_file = "/db".
Proof.
  assert (H : path Example.journal_file = ("/db" ++ "-journal")%string)
    by reflexivity.
  split; [exact H|].
  exact (getJournalDatabasePath_journal Example.journal_file "/db" H).
Defined.

Lemma xLock_sweep_keeps_visible_witness :
  file_of_id Example.reopened 1 = Some (0%nat, Example.db_file)
  /\ idb_get_block (visible_range "/db" 1 0)
       (fst (xLock Example.reopened 1 SQLITE_LOCK_RESERVED 0))
     = idb_get_block (visible_range "/db" 1 0) Example.reopened.
Proof.
  assert (H : file_of_id Example.reopened 1 = Some (0%nat, Example.db_file))
    by (vm_compute; reflexivity).
  split; [exact H|].
  refine (proj2 (xLock_sweep_keeps_visible Example.reopened 1 0 0%nat 0%nat
                   Example.db_file Example.db_file H _) "/db" 1 0 _).
  - vm_compute. reflexivity.
  - intros _. simpl. lia.
Defined.

Lemma journal_header_round_trip_witness :
  file_of_id Example.opened 2 = Some (1%nat, Example.journal_file)
  /\ exists st',
       xWrite Example.opened 2 (mkPData 28 Example.header) 0
       = (st', Return SQLITE_OK)
       /\ xRead st' 2 (mkPData 28 (new_Int8Array 28)) 0
          = (st', Example.header, Return SQLITE_OK).
Proof.
  assert (H : file_of_id Example.opened 2 = Some (1%nat, Example.journal_file))
    by (vm_compute; reflexivity).
  split; [exact H|].
  apply (journal_header_round_trip Example.opened 2
           (mkPData 28 Example.header) 1%nat 0%nat
           Example.journal_file Example.db_file 4096 (new_Int8Array 28) H).
  - vm_compute. reflexivity.
  - vm_compute. reflexivity.
  - reflexivity.
  - split; [simpl; lia | apply Z.leb_le; vm_compute; reflexivity].
  - vm_compute. reflexivity.
  - lia.
  - reflexivity.
Defined.

Lemma commit_then_purge_keeps_block_witness :
  file_of_id Example.written 1 = Some (0%nat, Example.written_db_file)
  /\ idb_get_block
       (visible_range (path Example.written_db_file)
          (index Example.written_block1)
          (version (block0 Example.written_db_file)))
       (purge (fst (xSync Example.written 1 0)) (path Example.written_db_file))
     = Some Example.written_block1.
Proof.
  assert (H : file_of_id Example.written 1
              = Some (0%nat, Example.written_db_file))
    by (vm_compute; reflexivity).
  split; [exact H|].
  apply (commit_then_purge_keeps_block Example.written 1 0 0%nat
           Example.written_db_file Example.written_block1 H).
  - vm_compute. reflexivity.
  - exact (proj1 (proj2 example_stores_sorted)).
  - vm_compute. reflexivity.
  - apply (list_elem_of_lookup_2 _ 1%nat). vm_compute. reflexivity.
  - vm_compute. reflexivity.
  - simpl. lia.
  - vm_compute. reflexivity.
  - intros pb t Hpb. vm_compute in Hpb. discriminate Hpb.
Defined.

Lemma xReadGeneral_single_block_witness :
  file_of_id Example.opened 1 = Some (0%nat, Example.db_file)
  /\ xReadGeneral Example.opened 0%nat Example.db_file
       (mkPData 100 (new_Int8Array 100)) 4106
     = xRead Example.opened 1 (mkPData 100 (new_Int8Array 100)) 4106.
Proof.
  assert (H : file_of_id Example.opened 1 = Some (0%nat, Example.db_file))
    by (vm_compute; reflexivity).
  split; [exact H|].
  apply (xReadGeneral_single_block Example.opened 1
           (mkPData 100 (new_Int8Array 100)) 4106 0%nat Example.db_file
           8192 Example.db_block1 H).
  - vm_compute. reflexivity.
  - vm_compute. reflexivity.
  - split; [lia | vm_compute; reflexivity].
  - simpl. lia.
  - reflexivity.
  - apply Z.leb_le. vm_compute. reflexivity.
  - reflexivity.
  - simpl. lia.
  - vm_compute. reflexivity.
Defined.

Lemma xWriteGeneral_full_block_witness :
  byteLength (data (block0 Example.db_file)) = 4096
  /\ xWriteGeneral Example.opened 0%nat Example.db_file
       (mkPData 4096 (replicate (Z.to_nat 4096) 9)) 4096
     = xWrite_fast Example.opened 0%nat Example.db_file
         (mkPData 4096 (replicate (Z.to_nat 4096) 9)) 4096.
Proof.
  assert (H : byteLength (data (block0 Example.db_file)) = 4096)
    by (vm_compute; reflexivity).
  split; [exact H|].
  apply (xWriteGeneral_full_block Example.opened 0%nat Example.db_file
           (mkPData 4096 (replicate (Z.to_nat 4096) 9)) 4096 1).
  - rewrite H. lia.
  - lia.
  - rewrite H. reflexivity.
  - rewrite H. reflexivity.
  - vm_compute. reflexivity.
Defined.

Lemma database_io_ends_witness :
  file_of_id Example.opened 1 = Some (0%nat, Example.db_file)
  /\ snd (xRead Example.opened 1 (mkPData 8192 (new_Int8Array 8192)) 100)
     <> Diverge.
Proof.
  assert (H : file_of_id Example.opened 1 = Some (0%nat, Example.db_file))
    by (vm_compute; reflexivity).
  split; [exact H|].
  refine (proj1 (database_io_ends Example.opened 1
                   (mkPData 8192 (new_Int8Array 8192)) 100 0%nat
                   Example.db_file H _ _ _ _)).
  - vm_compute. reflexivity.
  - vm_compute. reflexivity.
  - lia.
  - simpl. lia.
Defined.
